(** * A diary kept in the browser's localStorage

    Shallow embedding of the storage layer ([Storage]), the tag module
    ([Tags]), the diary module ([Diary]), the search pipeline ([Search]),
    the month grid of the calendar ([Calendar]) and the handlers of the
    application that save the form and create a tag ([App]), followed by
    the properties the design document states about them and by further
    properties of the code.

    Conventions of the embedding.
    - A JavaScript object used as a dictionary (the entries collection,
      keyed by date) is a [gmap string _]; arrays are lists.
    - [localStorage] holds text.  A text is represented by what
      [JSON.parse] makes of it: either it is rejected ([Malformed]) or it is
      the serialisation of a document ([Stringified v], the text
      [JSON.stringify v]).
    - [localStorage.setItem] may throw [QuotaExceededError]; whether the
      medium has room for a prospective content is a component of the
      medium itself ([accepts]).
    - Functions that read take the medium as an argument; functions that
      write return the medium after the call next to their JavaScript
      result.  [try]/[catch] blocks are kept as such over a result type.
    - Reading a property of an object also finds the names that every
      object inherits from [Object.prototype], and assigning to
      [__proto__] sets the prototype: [truthy_at] and [assign].
    - The built-in [Date] follows the language standard: a [Date] out of
      range is an Invalid Date, whose getters answer NaN ([num]), and the
      time zone of the host is a parameter of the functions that use
      [Date] ([Date.TimeZone]).
    - Strings are compared by code units; [localeCompare] orders the
      dates of the entries the same way where the dates are made of
      digits and hyphens ([plain_dates]). *)

From stdpp Require Import gmap strings list list_numbers fin_maps sorting pretty.
From Stdlib Require Import ZArith Lia Ascii.

Local Open Scope string_scope.
Local Open Scope list_scope.
Local Open Scope Z_scope.

(** ** Data model *)

Module Tag.
Record t : Type := mk { id : string; name : string; color : string }.

#[global] Instance eq_dec : EqDecision t.
Proof. solve_decision. Defined.
End Tag.

Module Entry.
(** [tags] is [None] when the property is missing or null: the code guards
    every use with [entry.tags && ...].  An empty [title] or [content] is
    the falsy string of the same guards. *)
Record t : Type := mk {
  id : string;
  date : string;
  title : string;
  content : string;
  tags : option (list string);
  images : list string;
  createdAt : Z;
  updatedAt : Z
}.

#[global] Instance eq_dec : EqDecision t.
Proof. solve_decision. Defined.

Definition with_tags (e : t) (ts : option (list string)) : t :=
  mk (id e) (date e) (title e) (content e) ts (images e)
     (createdAt e) (updatedAt e).
End Entry.

Module Snapshot.
(** The object handed to [Storage.importData].  A required field that is
    missing (or null) is [None]; objects and arrays are always truthy. *)
Record t : Type := mk {
  entries : option (gmap string Entry.t);
  tags : option (list Tag.t);
  exportedAt : string;
  version : string
}.
End Snapshot.

Module Imported.
(** What [JSON.parse] of an import file hands to [Storage.importData].  A
    field that is missing, null or otherwise falsy is [None].  A [tags] that
    is truthy is an array of tag objects, or ([other]) a value on which
    [data.tags.filter(t => ... t.id)] throws: one that has no method
    [filter] (an object that is no array, a number, a string, [true]) or an
    array that holds null; [raw] is then the text [JSON.stringify] gives
    for it.  An array of other values than tag objects and null is not
    represented. *)
Inductive tags_value : Type :=
  | tag_list (l : list Tag.t)
  | other (raw : string).

Record t : Type := mk {
  entries : option (gmap string Entry.t);
  tags : option tags_value
}.

Definition of_snapshot (data : Snapshot.t) : t :=
  mk (Snapshot.entries data) (tag_list <$> Snapshot.tags data).
End Imported.

Coercion Imported.of_snapshot : Snapshot.t >-> Imported.t.

Module TagUpdates.
(** The second argument of [updateTag]: an object with some of the
    properties of a tag. *)
Record t : Type := mk {
  id : option string;
  name : option string;
  color : option string
}.

(** [{ ...tag, ...updates }] *)
Definition spread (tag : Tag.t) (updates : t) : Tag.t :=
  Tag.mk (default (Tag.id tag) (id updates))
         (default (Tag.name tag) (name updates))
         (default (Tag.color tag) (color updates)).
End TagUpdates.

(** ** Exceptions and [try]/[catch] *)

Inductive Exn : Type :=
  | SyntaxError
  | TypeError
  | QuotaExceededError
  | Error (message : string).

Inductive Result (A : Type) : Type :=
  | Ok (a : A)
  | Throw (e : Exn).
Arguments Ok {A} a.
Arguments Throw {A} e.

Definition try_catch {A : Type} (body : Result A) (handler : Exn → A) : A :=
  match body with
  | Ok a => a
  | Throw e => handler e
  end.

(** ** The medium: [localStorage] *)

Inductive Key : Type := ENTRIES | TAGS.

(** The name under which a key is stored ([KEYS] in the source). *)
Definition KEYS (k : Key) : string :=
  match k with
  | ENTRIES => "diary_entries"
  | TAGS => "diary_tags"
  end.

(** The document kept under each key. *)
Definition Doc (k : Key) : Type :=
  match k with
  | ENTRIES => gmap string Entry.t
  | TAGS => list Tag.t
  end.

Inductive Text (A : Type) : Type :=
  | Malformed (raw : string)
  | Stringified (v : A).
Arguments Malformed {A} raw.
Arguments Stringified {A} v.

Definition JSON_parse {A : Type} (data : Text A) : Result A :=
  match data with
  | Malformed _ => Throw SyntaxError
  | Stringified v => Ok v
  end.

(** Truthiness of a string: every string but the empty one. *)
Definition truthy (s : string) : bool := negb (bool_decide (s = "")).

Definition truthy_text {A : Type} (data : Text A) : bool :=
  match data with
  | Malformed raw => truthy raw
  | Stringified _ => true
  end.

Definition JSON_stringify {A : Type} (value : A) : Text A := Stringified value.

Record Items : Type := mkItems {
  diary_entries : option (Text (gmap string Entry.t));
  diary_tags : option (Text (list Tag.t))
}.

Record LocalStorage : Type := mkLocalStorage {
  items : Items;
  (** does the medium have room for this content? *)
  accepts : Items → bool
}.

Definition getItem (ls : LocalStorage) (k : Key) : option (Text (Doc k)) :=
  match k with
  | ENTRIES => diary_entries (items ls)
  | TAGS => diary_tags (items ls)
  end.

Definition put (it : Items) (k : Key) : option (Text (Doc k)) → Items :=
  match k with
  | ENTRIES => fun t => mkItems t (diary_tags it)
  | TAGS => fun t => mkItems (diary_entries it) t
  end.

Definition setItem (ls : LocalStorage) (k : Key) (data : Text (Doc k))
  : Result LocalStorage :=
  let it := put (items ls) k (Some data) in
  if accepts ls it then Ok (mkLocalStorage it (accepts ls))
  else Throw QuotaExceededError.

Definition removeItem (ls : LocalStorage) (k : Key) : Result LocalStorage :=
  Ok (mkLocalStorage (put (items ls) k None) (accepts ls)).

(** ** Objects

    The entries collection is an object made by [JSON.parse], so its
    prototype is [Object.prototype].  [Object_prototype] lists the names it
    inherits from there: for such a name [o[name]] is a function (the
    prototype itself for ["__proto__"]), hence truthy, whether or not [o]
    has a property of that name of its own. *)

Definition Object_prototype : list string :=
  ["constructor"; "hasOwnProperty"; "isPrototypeOf"; "propertyIsEnumerable";
   "toLocaleString"; "toString"; "valueOf"; "__proto__";
   "__defineGetter__"; "__defineSetter__";
   "__lookupGetter__"; "__lookupSetter__"].

Definition inherited (name : string) : bool :=
  bool_decide (name ∈ Object_prototype).

(** [o[name]] is truthy, the own properties of [o] being objects. *)
Definition truthy_at {V : Type} (o : gmap string V) (name : string) : bool :=
  bool_decide (is_Some (o !! name)) || inherited name.

(** [o[name] = v].  An own property is created or replaced; but
    ["__proto__"], when [o] has no own property of that name, is the
    accessor of the prototype: the assignment changes the prototype and
    leaves the own properties of [o] as they are. *)
Definition assign {V : Type} (o : gmap string V) (name : string) (v : V)
  : gmap string V :=
  if bool_decide (name = "__proto__")
     && negb (bool_decide (is_Some (o !! name)))
  then o
  else <[name := v]> o.

(** ** storage.js *)

Module Storage.

(** [get(key)]: [None] is JavaScript's [null]. *)
Definition get (ls : LocalStorage) (k : Key) : option (Doc k) :=
  try_catch
    (match getItem ls k with
     | Some data =>
         if truthy_text data then
           match JSON_parse data with
           | Ok v => Ok (Some v)
           | Throw e => Throw e
           end
         else Ok None
     | None => Ok None
     end)
    (fun e => None).

(** [set(key, value)]: the medium after the call and the boolean result. *)
Definition set (ls : LocalStorage) (k : Key) (value : Doc k)
  : LocalStorage * bool :=
  try_catch
    (match setItem ls k (JSON_stringify value) with
     | Ok ls' => Ok (ls', true)
     | Throw e => Throw e
     end)
    (fun e => (ls, false)).

Definition remove (ls : LocalStorage) (k : Key) : LocalStorage * bool :=
  try_catch
    (match removeItem ls k with
     | Ok ls' => Ok (ls', true)
     | Throw e => Throw e
     end)
    (fun e => (ls, false)).

Definition getAllEntries (ls : LocalStorage) : gmap string Entry.t :=
  default ∅ (get ls ENTRIES).

(** [entries[date] || null], as far as it is an entry: [None] stands for
    null and for what [entries] inherits under the name [date], which is
    truthy but no entry (see [getEntry_truthy]). *)
Definition getEntry (ls : LocalStorage) (date : string) : option Entry.t :=
  getAllEntries ls !! date.

(** Whether [getEntry(date)] is truthy. *)
Definition getEntry_truthy (ls : LocalStorage) (date : string) : bool :=
  truthy_at (getAllEntries ls) date.

Definition saveEntry (ls : LocalStorage) (entry : Entry.t)
  : LocalStorage * bool :=
  let entries := getAllEntries ls in
  let entries := assign entries (Entry.date entry) entry in
  set ls ENTRIES entries.

(** [delete entries[date]] removes an own property only. *)
Definition deleteEntry (ls : LocalStorage) (date : string)
  : LocalStorage * bool :=
  let entries := getAllEntries ls in
  if truthy_at entries date then
    let entries := delete date entries in
    set ls ENTRIES entries
  else (ls, false).

Definition getAllTags (ls : LocalStorage) : list Tag.t :=
  default [] (get ls TAGS).

Definition saveTags (ls : LocalStorage) (tags : list Tag.t)
  : LocalStorage * bool :=
  set ls TAGS tags.

Definition addTag (ls : LocalStorage) (tag : Tag.t) : LocalStorage * bool :=
  let tags := getAllTags ls in
  let tags := tags ++ [tag] in
  saveTags ls tags.

(** [tags.findIndex(t => t.id === tagId)]: [None] is -1. *)
Definition findIndex (tags : list Tag.t) (tagId : string) : option nat :=
  fst <$> list_find (fun t => Tag.id t = tagId) tags.

Definition updateTag (ls : LocalStorage) (tagId : string)
    (updates : TagUpdates.t) : LocalStorage * bool :=
  let tags := getAllTags ls in
  match findIndex tags tagId with
  | Some index =>
      let tags := alter (fun t => TagUpdates.spread t updates) index tags in
      saveTags ls tags
  | None => (ls, false)
  end.

Definition deleteTag (ls : LocalStorage) (tagId : string)
  : LocalStorage * bool :=
  let tags := getAllTags ls in
  let filtered := filter (fun t => Tag.id t ≠ tagId) tags in
  saveTags ls filtered.

Definition exportData (ls : LocalStorage) (now : string) : Snapshot.t :=
  Snapshot.mk (Some (getAllEntries ls)) (Some (getAllTags ls)) now "1.0".

(** [{ ...currentEntries, ...incoming }]: on a common key the second
    operand wins ([∪] on maps prefers its left operand). *)
Definition spread {V : Type} (current incoming : gmap string V)
  : gmap string V :=
  incoming ∪ current.

(** The two documents of the merge branch of [importData]. *)
Definition mergedEntries (currentEntries data_entries : gmap string Entry.t)
  : gmap string Entry.t :=
  spread currentEntries data_entries.

Definition mergedTags (currentTags data_tags : list Tag.t) : list Tag.t :=
  let tagIds : gset string := list_to_set (Tag.id <$> currentTags) in
  let newTags := filter (fun t => Tag.id t ∉ tagIds) data_tags in
  currentTags ++ newTags.

(** [set(KEYS.TAGS, data.tags)].  A value that is no array of tags leaves
    under the key its text [raw], which is no tag list: the medium of the
    embedding holds it as a text that its readers do not take.  (What the
    application does with such a text is outside the embedding; no caller
    under [src/] passes the mode ['overwrite'].) *)
Definition set_tags (ls : LocalStorage) (data_tags : Imported.tags_value)
  : LocalStorage * bool :=
  match data_tags with
  | Imported.tag_list l => set ls TAGS l
  | Imported.other raw =>
      try_catch
        (match setItem ls TAGS (Malformed raw) with
         | Ok ls' => Ok (ls', true)
         | Throw e => Throw e
         end)
        (fun e => (ls, false))
  end.

(** [importData(data, mode = 'merge')].  The body of the [try] either
    returns or throws, each with the medium as it is at that point.  In the
    merge branch [data.tags.filter(t => !tagIds.has(t.id))] throws a
    [TypeError] when [data.tags] has no method [filter] or holds null. *)
Definition importData_body (ls : LocalStorage) (data : Imported.t)
    (mode : string) : Result (LocalStorage * bool) :=
  match Imported.entries data, Imported.tags data with
  | Some data_entries, Some data_tags =>
      if bool_decide (mode = "overwrite") then
        let '(ls, _) := set ls ENTRIES data_entries in
        let '(ls, _) := set_tags ls data_tags in
        Ok (ls, true)
      else
        let currentEntries := getAllEntries ls in
        let currentTags := getAllTags ls in
        let mergedEntries := mergedEntries currentEntries data_entries in
        match data_tags with
        | Imported.tag_list data_tags =>
            let mergedTags := mergedTags currentTags data_tags in
            let '(ls, _) := set ls ENTRIES mergedEntries in
            let '(ls, _) := set ls TAGS mergedTags in
            Ok (ls, true)
        | Imported.other _ => Throw TypeError
        end
  | _, _ => Throw (Error "Invalid data format")
  end.

Definition importData (ls : LocalStorage) (data : Imported.t)
    (mode : string) : LocalStorage * bool :=
  try_catch (importData_body ls data mode) (fun e => (ls, false)).

Definition clearAll (ls : LocalStorage) : LocalStorage :=
  let '(ls, _) := remove ls ENTRIES in
  let '(ls, _) := remove ls TAGS in
  ls.

Definition getDatesWithEntries (ls : LocalStorage) : list string :=
  (map_to_list (getAllEntries ls)).*1.

End Storage.

(** ** Strings *)

(** [String.prototype.toLowerCase], on the ASCII letters. *)
Definition lower_ascii (c : ascii) : ascii :=
  let n := N_of_ascii c in
  if ((65 <=? n) && (n <=? 90))%N then ascii_of_N (n + 32) else c.

Fixpoint toLowerCase (s : string) : string :=
  match s with
  | EmptyString => EmptyString
  | String c s' => String (lower_ascii c) (toLowerCase s')
  end.

(** [s.includes(sub)] *)
Fixpoint includes (s sub : string) : bool :=
  String.prefix sub s ||
  match s with
  | EmptyString => false
  | String _ s' => includes s' sub
  end.

(** [a < b] and [a > b] on strings compare code units from the left. *)
Definition str_lt (a b : string) : bool := String.ltb a b.
Definition str_gt (a b : string) : bool := String.ltb b a.

(** [a.localeCompare(b)]: negative, zero or positive.  The built-in
    collates by locale; the embedding gives the order of the code units,
    which is the collation order on strings of digits and hyphens, as the
    date strings are.  The statements about the order of a result assume
    such dates ([plain_dates]). *)
Definition localeCompare (a b : string) : Z :=
  match String.compare a b with
  | Lt => -1
  | Eq => 0
  | Gt => 1
  end.

(** [Array.prototype.sort(compareFn)]: a stable sort; [x] goes before [y]
    when [compareFn(x, y) <= 0] and [x] came first. *)
Fixpoint sort_insert {A : Type} (compareFn : A → A → Z) (x : A) (l : list A)
  : list A :=
  match l with
  | [] => [x]
  | y :: l' =>
      if compareFn x y <=? 0 then x :: l
      else y :: sort_insert compareFn x l'
  end.

Fixpoint Array_sort {A : Type} (compareFn : A → A → Z) (l : list A) : list A :=
  match l with
  | [] => []
  | x :: l' => sort_insert compareFn x (Array_sort compareFn l')
  end.

(** [Object.values(o)] and [Object.keys(o)] *)
Definition Object_values {V : Type} (o : gmap string V) : list V :=
  (map_to_list o).*2.

(** [String.prototype.trim], on the ASCII white space: space, tab, line
    feed, vertical tab, form feed, carriage return. *)
Definition is_white (c : ascii) : bool :=
  let n := N_of_ascii c in
  (n =? 32)%N || ((9 <=? n) && (n <=? 13))%N.

Fixpoint trimStart (s : string) : string :=
  match s with
  | EmptyString => EmptyString
  | String c s' => if is_white c then trimStart s' else s
  end.

Definition trimEnd (s : string) : string :=
  String.rev (trimStart (String.rev s)).

Definition trim (s : string) : string := trimEnd (trimStart s).

(** [l.slice(start, end)]: a negative bound counts from the end of the
    array, and both bounds are clamped to the array. *)
Definition Array_slice {A : Type} (l : list A) (start end_ : Z) : list A :=
  let len := Z.of_nat (length l) in
  let k := if start <? 0 then Z.max (len + start) 0 else Z.min start len in
  let final := if end_ <? 0 then Z.max (len + end_) 0 else Z.min end_ len in
  take (Z.to_nat (final - k)) (drop (Z.to_nat k) l).

(** ** tags.js *)

Module Tags.

(** [entry.tags = entry.tags.filter(t => t !== tagId)] *)
Definition detach (tagId : string) (entry : Entry.t) (ts : list string)
  : Entry.t :=
  Entry.with_tags entry (Some (filter (fun t => t ≠ tagId) ts)).

(** One turn of [for (const date in entries)] in [remove]: the object
    [entries] is updated in place, [updated] records that it was. *)
Definition remove_step (tagId : string)
    (st : gmap string Entry.t * bool) (date : string)
  : gmap string Entry.t * bool :=
  let '(entries, updated) := st in
  match entries !! date with
  | Some entry =>
      match Entry.tags entry with
      | Some ts =>
          if bool_decide (tagId ∈ ts)
          then (<[date := detach tagId entry ts]> entries, true)
          else st
      | None => st
      end
  | None => st
  end.

Definition remove (ls : LocalStorage) (tagId : string)
  : LocalStorage * bool :=
  let entries := Storage.getAllEntries ls in
  let '(entries, updated) :=
    foldl (remove_step tagId) (entries, false) (map_to_list entries).*1 in
  let ls := if updated then (Storage.set ls ENTRIES entries).1 else ls in
  Storage.deleteTag ls tagId.

Definition getAll (ls : LocalStorage) : list Tag.t := Storage.getAllTags ls.

(** [tags.find(t => t.id === tagId) || null] *)
Definition getById (ls : LocalStorage) (tagId : string) : option Tag.t :=
  let tags := getAll ls in
  List.find (fun t => bool_decide (Tag.id t = tagId)) tags.

(** [create(name, color)]; [id] is what [generateId()] returns.  The
    result is the tag, or null ([None]) when it could not be saved. *)
Definition create (ls : LocalStorage) (id name color : string)
  : LocalStorage * option Tag.t :=
  let tag := Tag.mk id (trim name) color in
  let '(ls, saved) := Storage.addTag ls tag in
  if saved then (ls, Some tag) else (ls, None).

Definition update (ls : LocalStorage) (tagId : string)
    (updates : TagUpdates.t) : LocalStorage * bool :=
  Storage.updateTag ls tagId updates.

(** [tags.find(t => t.name.toLowerCase() === name.toLowerCase()) || null] *)
Definition getByName (ls : LocalStorage) (name : string) : option Tag.t :=
  let tags := getAll ls in
  List.find
    (fun t => bool_decide (toLowerCase (Tag.name t) = toLowerCase name)) tags.

End Tags.

(** ** diary.js *)

Module Diary.

Definition MAX_IMAGES : Z := 10.

(** [create(date)]; [id] is what [generateId()] returns and [now] what
    [Date.now()] returns. *)
Definition create (id : string) (now : Z) (date : string) : Entry.t :=
  Entry.mk id date "" "" (Some []) [] now now.

(** [save(entry)], [now] being [Date.now()]. *)
Definition save (ls : LocalStorage) (now : Z) (entry : Entry.t)
  : LocalStorage * bool :=
  let entry :=
    Entry.mk (Entry.id entry) (Entry.date entry) (Entry.title entry)
      (Entry.content entry) (Entry.tags entry) (Entry.images entry)
      (Entry.createdAt entry) now in
  Storage.saveEntry ls entry.

Definition get (ls : LocalStorage) (date : string) : option Entry.t :=
  Storage.getEntry ls date.

(** Whether [get(date)] is truthy. *)
Definition get_truthy (ls : LocalStorage) (date : string) : bool :=
  Storage.getEntry_truthy ls date.

Definition remove (ls : LocalStorage) (date : string) : LocalStorage * bool :=
  Storage.deleteEntry ls date.

Definition getAll (ls : LocalStorage) : gmap string Entry.t :=
  Storage.getAllEntries ls.

Definition getDatesWithEntries (ls : LocalStorage) : list string :=
  Storage.getDatesWithEntries ls.

(** The module variable [currentImages] is passed in and returned. *)

(** [currentImages = images ? [...images] : []] *)
Definition setCurrentImages (images : option (list string)) : list string :=
  default [] images.

Definition getCurrentImages (currentImages : list string) : list string :=
  currentImages.

(** [currentImages.push(...images.slice(0, remaining))] *)
Definition addImages (currentImages images : list string) : list string :=
  let remaining := MAX_IMAGES - Z.of_nat (length currentImages) in
  currentImages ++ Array_slice images 0 remaining.

End Diary.

(** ** search.js *)

Module Search.

(** The module variable [currentFilters]. *)
Record Filters : Type := mkFilters {
  keyword : string;
  tags : list string;
  fromDate : option string;
  toDate : option string
}.

(** The argument of [search]: an object that has some of the properties
    of [Filters]; a property it does not have is [None]. *)
Module Arg.
Record t : Type := mk {
  keyword : option string;
  tags : option (list string);
  fromDate : option (option string);
  toDate : option (option string)
}.
(** [{}] *)
Definition empty : t := mk None None None None.
End Arg.

Definition initialFilters : Filters := mkFilters "" [] None None.

(** [{ ...currentFilters, ...filters }] *)
Definition spread (currentFilters : Filters) (filters : Arg.t) : Filters :=
  mkFilters
    (default (keyword currentFilters) (Arg.keyword filters))
    (default (tags currentFilters) (Arg.tags filters))
    (default (fromDate currentFilters) (Arg.fromDate filters))
    (default (toDate currentFilters) (Arg.toDate filters)).

(** Truthiness of a date bound: [null] and the empty string are falsy. *)
Definition truthy_bound (d : option string) : bool :=
  match d with
  | Some s => truthy s
  | None => false
  end.

Definition searchByKeyword (ls : LocalStorage) (keyword : string)
  : list Entry.t :=
  let entries := Storage.getAllEntries ls in
  let lowerKeyword := toLowerCase keyword in
  foldl
    (fun results entry =>
       let titleMatch :=
         truthy (Entry.title entry) &&
         includes (toLowerCase (Entry.title entry)) lowerKeyword in
       let contentMatch :=
         truthy (Entry.content entry) &&
         includes (toLowerCase (Entry.content entry)) lowerKeyword in
       if titleMatch || contentMatch then results ++ [entry] else results)
    [] (Object_values entries).

(** [tagIds] is [None] when the argument is null or undefined. *)
Definition filterByTags (entries : list Entry.t)
    (tagIds : option (list string)) : list Entry.t :=
  match tagIds with
  | None => entries
  | Some [] => entries
  | Some tagIds =>
      List.filter
        (fun entry =>
           match Entry.tags entry with
           | None => false
           | Some [] => false
           | Some ts =>
               existsb (fun tagId => bool_decide (tagId ∈ ts)) tagIds
           end)
        entries
  end.

Definition filterByDateRange (entries : list Entry.t)
    (fromDate toDate : option string) : list Entry.t :=
  List.filter
    (fun entry =>
       let entryDate := Entry.date entry in
       if truthy_bound fromDate && str_lt entryDate (default "" fromDate)
       then false
       else if truthy_bound toDate && str_gt entryDate (default "" toDate)
       then false
       else true)
    entries.

(** [search(filters)]: the new value of [currentFilters] and the result. *)
Definition search (ls : LocalStorage) (currentFilters : Filters)
    (filters : Arg.t) : Filters * list Entry.t :=
  let currentFilters := spread currentFilters filters in
  let results :=
    if truthy (keyword currentFilters)
    then searchByKeyword ls (keyword currentFilters)
    else Object_values (Storage.getAllEntries ls) in
  let results :=
    if bool_decide (0 < length (tags currentFilters))%nat
    then filterByTags results (Some (tags currentFilters))
    else results in
  let results :=
    if truthy_bound (fromDate currentFilters)
       || truthy_bound (toDate currentFilters)
    then filterByDateRange results
           (fromDate currentFilters) (toDate currentFilters)
    else results in
  let results :=
    Array_sort
      (fun a b => localeCompare (Entry.date b) (Entry.date a)) results in
  (currentFilters, results).

End Search.

(** ** Numbers that may be NaN *)

(** A number of the program that is an integer, or NaN ([None]): what the
    getters of an invalid [Date] return, and what arithmetic makes of
    it. *)
Definition num : Type := option Z.

(** [a + b] and [a - b] *)
Definition num_add (a b : num) : num :=
  match a, b with
  | Some a, Some b => Some (a + b)
  | _, _ => None
  end.

Definition num_sub (a b : num) : num :=
  match a, b with
  | Some a, Some b => Some (a - b)
  | _, _ => None
  end.

(** [a < b] and [a <= b]: false when an operand is NaN. *)
Definition num_lt (a b : num) : bool :=
  match a, b with
  | Some a, Some b => a <? b
  | _, _ => false
  end.

Definition num_le (a b : num) : bool :=
  match a, b with
  | Some a, Some b => a <=? b
  | _, _ => false
  end.

(** [String(n)] *)
Definition String_num (n : num) : string :=
  match n with
  | Some z => pretty z
  | None => "NaN"
  end.

(** ** The built-in [Date]

    The definitions are those of the language standard.  A [Date] holds a
    time value, in milliseconds from 1 January 1970 UTC, or NaN when the
    time is more than 100 000 000 days from there ([TimeClip]).
    [new Date(year, month, date)] takes its arguments for local time and the
    getters answer in local time; the offset of local time is given by the
    host ([LocalTZA]), a parameter of the embedding.  The calendar itself
    (DayFromYear, InLeapYear, MakeDay, YearFromTime, MonthFromTime,
    DateFromTime, WeekDay) is written on day numbers. *)

Module Date.

Definition DayFromYear (y : Z) : Z :=
  365 * (y - 1970) + (y - 1969) / 4 - (y - 1901) / 100 + (y - 1601) / 400.

Definition DaysInYear (y : Z) : Z :=
  if negb (y mod 4 =? 0) then 365
  else if negb (y mod 100 =? 0) then 366
  else if negb (y mod 400 =? 0) then 365
  else 366.

Definition InLeapYear (y : Z) : Z := if DaysInYear y =? 366 then 1 else 0.

(** Day within the year of the first day of month [mn] (0 = January),
    [leap] being 1 in a leap year and 0 otherwise. *)
Definition monthStart (leap mn : Z) : Z :=
  if mn =? 0 then 0
  else if mn =? 1 then 31
  else if mn =? 2 then 59 + leap
  else if mn =? 3 then 90 + leap
  else if mn =? 4 then 120 + leap
  else if mn =? 5 then 151 + leap
  else if mn =? 6 then 181 + leap
  else if mn =? 7 then 212 + leap
  else if mn =? 8 then 243 + leap
  else if mn =? 9 then 273 + leap
  else if mn =? 10 then 304 + leap
  else 334 + leap.

Definition MakeDay (year month date : Z) : Z :=
  let ym := year + month / 12 in
  let mn := month mod 12 in
  DayFromYear ym + monthStart (InLeapYear ym) mn + date - 1.

(** The largest [y] with [DayFromYear y <= day]: an estimate from the mean
    length of a year, moved by one when it misses. *)
Definition YearFromDay (day : Z) : Z :=
  let y := 1970 + (day * 400) / 146097 in
  if day <? DayFromYear y then y - 1
  else if DayFromYear (y + 1) <=? day then y + 1
  else y.

Definition DayWithinYear (day : Z) : Z := day - DayFromYear (YearFromDay day).

Definition MonthFromDay (day : Z) : Z :=
  let leap := InLeapYear (YearFromDay day) in
  let d := DayWithinYear day in
  if d <? 31 then 0
  else if d <? 59 + leap then 1
  else if d <? 90 + leap then 2
  else if d <? 120 + leap then 3
  else if d <? 151 + leap then 4
  else if d <? 181 + leap then 5
  else if d <? 212 + leap then 6
  else if d <? 243 + leap then 7
  else if d <? 273 + leap then 8
  else if d <? 304 + leap then 9
  else if d <? 334 + leap then 10
  else 11.

Definition DateFromDay (day : Z) : Z :=
  DayWithinYear day
  - monthStart (InLeapYear (YearFromDay day)) (MonthFromDay day) + 1.

(** 0 = Sunday *)
Definition WeekDayFromDay (day : Z) : Z := (day + 4) mod 7.

Definition msPerDay : Z := 86400000.

(** [Day(t)], the day number of a time value. *)
Definition Day (t : Z) : Z := t / msPerDay.

(** The time zone of the host.  [LocalTZA tz t isUTC] is the offset of
    local time from UTC in milliseconds at the time value [t], which is a
    time in UTC when [isUTC] and a local time otherwise.  An offset is less
    than a day. *)
Record TimeZone : Type := mkTimeZone {
  LocalTZA : Z → bool → Z;
  LocalTZA_range : ∀ t isUTC, - msPerDay < LocalTZA t isUTC < msPerDay
}.

Definition LocalTime (tz : TimeZone) (t : Z) : Z := t + LocalTZA tz t true.
Definition UTC (tz : TimeZone) (t : Z) : Z := t - LocalTZA tz t false.

(** [TimeClip(time)]: NaN beyond 8.64e15 milliseconds. *)
Definition TimeClip (time : Z) : option Z :=
  if Z.abs time <=? 8640000000000000 then Some time else None.

(** [new Date(year, month, date)]: local midnight of the day; a year from
    0 to 99 stands for 1900 + year.  The result is the time value of the
    [Date], [None] for an invalid [Date]. *)
Definition make (tz : TimeZone) (year month date : Z) : option Z :=
  let yr := if (0 <=? year) && (year <=? 99) then 1900 + year else year in
  let finalDate := MakeDay yr month date * msPerDay in
  TimeClip (UTC tz finalDate).

(** The getters, on the time value of the [Date]. *)
Definition getFullYear (tz : TimeZone) (date : option Z) : num :=
  (fun t => YearFromDay (Day (LocalTime tz t))) <$> date.
Definition getMonth (tz : TimeZone) (date : option Z) : num :=
  (fun t => MonthFromDay (Day (LocalTime tz t))) <$> date.
Definition getDate (tz : TimeZone) (date : option Z) : num :=
  (fun t => DateFromDay (Day (LocalTime tz t))) <$> date.
Definition getDay (tz : TimeZone) (date : option Z) : num :=
  (fun t => WeekDayFromDay (Day (LocalTime tz t))) <$> date.

(** A host whose local time is UTC. *)
Definition utc : TimeZone.
Proof.
  refine (mkTimeZone (fun _ _ => 0) _). intros _ _. unfold msPerDay. lia.
Defined.

End Date.

(** ** calendar.js *)

(** ["0".repeat(n)] *)
Fixpoint zeros (n : nat) : string :=
  match n with
  | O => ""
  | S n' => String "0" (zeros n')
  end.

(** [s.padStart(targetLength, '0')] *)
Definition padStart (targetLength : nat) (s : string) : string :=
  zeros (targetLength - String.length s) +:+ s.

(** [`${year}-${String(month).padStart(2, '0')}-${String(day).padStart(2, '0')}`],
    [month] counted from 1. *)
Definition ymd (year month day : Z) : string :=
  pretty year +:+ "-" +:+ padStart 2 (pretty month)
              +:+ "-" +:+ padStart 2 (pretty day).

(** The same template with numbers that may be NaN. *)
Definition ymd_num (year month day : num) : string :=
  String_num year +:+ "-" +:+ padStart 2 (String_num month)
                  +:+ "-" +:+ padStart 2 (String_num day).

Module Calendar.

Definition formatDate (tz : Date.TimeZone) (date : option Z) : string :=
  ymd_num (Date.getFullYear tz date)
    (num_add (Date.getMonth tz date) (Some 1)) (Date.getDate tz date).

(** What [renderDays] works out for one cell before it writes the markup
    of the cell: the day number, the [data-date] attribute, the flag
    [isOtherMonth], the class list, whether the indicator is shown and,
    when the entry of the day has tags, the colours of the first three
    (none for an id that names no tag). *)
Record Cell : Type := mkCell {
  day : num;
  dateString : string;
  isOtherMonth : bool;
  classes : list string;
  hasEntry : bool;
  tagDots : option (list (option string))
}.

(** The variables the loop of [renderDays] updates. *)
Record Loop : Type := mkLoop {
  html : list Cell;
  dayCount : Z;
  nextMonthDay : Z
}.

Section renderDays.
Variable tz : Date.TimeZone.
Variable ls : LocalStorage.
Variables currentYear currentMonth : Z.
Variable selectedDate : option string.
Variable todayString : string.

Definition entriesSet : gset string :=
  list_to_set (Storage.getDatesWithEntries ls).
Definition allEntries : gmap string Entry.t := Storage.getAllEntries ls.

Definition firstDay : option Z := Date.make tz currentYear currentMonth 1.
Definition lastDay : option Z :=
  Date.make tz currentYear (currentMonth + 1) 0.
Definition startDayOfWeek : num := Date.getDay tz firstDay.
Definition prevMonthLastDay : num :=
  Date.getDate tz (Date.make tz currentYear currentMonth 0).

Definition tagsOf (dateString : string) : option (list (option string)) :=
  match allEntries !! dateString with
  | Some entry =>
      match Entry.tags entry with
      | Some ((_ :: _) as ts) =>
          Some ((fun tagId => Tag.color <$> Tags.getById ls tagId)
                  <$> take 3 ts)
      | _ => None
      end
  | None => None
  end.

(** The body of the inner loop. *)
Definition cell (st : Loop) (week dayOfWeek : Z) : Loop :=
  let cellIndex := week * 7 + dayOfWeek in
  let '(day, dateString, isOtherMonth, dayCount, nextMonthDay) :=
    if num_lt (Some cellIndex) startDayOfWeek then
      let day :=
        num_add
          (num_add (num_sub prevMonthLastDay startDayOfWeek) (Some cellIndex))
          (Some 1) in
      let prevMonth := if currentMonth =? 0 then 11 else currentMonth - 1 in
      let prevYear :=
        if currentMonth =? 0 then currentYear - 1 else currentYear in
      (day, ymd_num (Some prevYear) (Some (prevMonth + 1)) day, true,
       dayCount st, nextMonthDay st)
    else if num_le (Some (dayCount st)) (Date.getDate tz lastDay) then
      let day := dayCount st in
      (Some day, ymd currentYear (currentMonth + 1) day, false,
       dayCount st + 1, nextMonthDay st)
    else
      let day := nextMonthDay st in
      let nextMonth := if currentMonth =? 11 then 0 else currentMonth + 1 in
      let nextYear :=
        if currentMonth =? 11 then currentYear + 1 else currentYear in
      (Some day, ymd nextYear (nextMonth + 1) day, true,
       dayCount st, nextMonthDay st + 1) in
  let classes :=
    ["calendar-day"]
    ++ (if isOtherMonth then ["other-month"] else [])
    ++ (if bool_decide (dateString = todayString) then ["today"] else [])
    ++ (if bool_decide (Some dateString = selectedDate)
        then ["selected"] else [])
    ++ (if dayOfWeek =? 0 then ["sunday"] else [])
    ++ (if dayOfWeek =? 6 then ["saturday"] else []) in
  let hasEntry := bool_decide (dateString ∈ entriesSet) in
  let tagDots := if hasEntry then tagsOf dateString else None in
  mkLoop
    (html st ++ [mkCell day dateString isOtherMonth classes hasEntry tagDots])
    dayCount nextMonthDay.

(** The cells in the order in which their markup is appended. *)
Definition renderDays : list Cell :=
  html
    (foldl
       (fun st week =>
          foldl (fun st dayOfWeek => cell st week dayOfWeek) st [0; 1; 2; 3; 4; 5; 6])
       (mkLoop [] 1 1)
       [0; 1; 2; 3; 4; 5]).

End renderDays.

(** [goToPrevMonth] and [goToNextMonth] on the pair of [currentYear] and
    [currentMonth]; the call of [render] that ends them draws the grid of
    the new pair. *)
Definition goToPrevMonth (current : Z * Z) : Z * Z :=
  let '(currentYear, currentMonth) := current in
  let currentMonth := currentMonth - 1 in
  if currentMonth <? 0 then (currentYear - 1, 11)
  else (currentYear, currentMonth).

Definition goToNextMonth (current : Z * Z) : Z * Z :=
  let '(currentYear, currentMonth) := current in
  let currentMonth := currentMonth + 1 in
  if 11 <? currentMonth then (currentYear + 1, 0)
  else (currentYear, currentMonth).

End Calendar.

(** ** app.js and the form of the diary modal *)

Module App.

(** What [Diary.getModalData] reads from the page: the fields of the form,
    the ids of the selected tags and the images of the editor. *)
Record Form : Type := mkForm {
  diary_id : string;
  diary_date : string;
  diary_title : string;
  diary_content : string;
  selectedTagIds : list string;
  currentImages : list string
}.

(** [Diary.getModalData()]; [createdNow] and [updatedNow] are what its two
    calls of [Date.now()] return.  The creation time is that of the stored
    entry of the date when there is one and it is not zero. *)
Definition getModalData (ls : LocalStorage) (createdNow updatedNow : Z)
    (form : Form) : Entry.t :=
  Entry.mk (diary_id form) (diary_date form)
    (trim (diary_title form)) (trim (diary_content form))
    (Some (selectedTagIds form))
    (Diary.getCurrentImages (currentImages form))
    (match Storage.getEntry ls (diary_date form) with
     | Some stored =>
         if Entry.createdAt stored =? 0 then createdNow
         else Entry.createdAt stored
     | None => createdNow
     end)
    updatedNow.

(** [saveDiary()]: an entry with nothing in it is not saved, and removes
    the entry of its date.  [savedNow] is what [Date.now()] returns in
    [Diary.save]; [entry.tags] is the array of the selected ids;
    [existingEntry] is used for its truthiness only. *)
Definition saveDiary (ls : LocalStorage) (createdNow updatedNow savedNow : Z)
    (form : Form) : LocalStorage :=
  let entry := getModalData ls createdNow updatedNow form in
  let existingEntry := Diary.get_truthy ls (Entry.date entry) in
  if negb (truthy (Entry.title entry)) && negb (truthy (Entry.content entry))
     && bool_decide (length (Entry.images entry) = 0%nat)
     && bool_decide (length (selectedTagIds form) = 0%nat)
  then
    if existingEntry then (Diary.remove ls (Entry.date entry)).1 else ls
  else (Diary.save ls savedNow entry).1.

(** The handler of the button that creates a tag; [nameInput] and
    [colorInput] are the values of the two fields and [id] is what
    [generateId()] returns.  Without a name, or with the name of a stored
    tag, it returns without creating one. *)
Definition createTag (ls : LocalStorage) (id nameInput colorInput : string)
  : LocalStorage :=
  let name := trim nameInput in
  if negb (truthy name) then ls
  else
    match Tags.getByName ls name with
    | Some _ => ls
    | None => (Tags.create ls id name colorInput).1
    end.

End App.

(** ** Vocabulary of the statements *)

(** The medium takes the write of [value] under [k]. *)
Definition room_for (ls : LocalStorage) (k : Key) (value : Doc k) : Prop :=
  (Storage.set ls k value).2 = true.

#[global] Instance room_for_dec ls k value : Decision (room_for ls k value).
Proof. unfold room_for. apply _. Defined.

(** The medium as [set] leaves it. *)
Definition after_set (ls : LocalStorage) (k : Key) (value : Doc k)
  : LocalStorage :=
  (Storage.set ls k value).1.

(** [entry] carries the tag [tagId]. *)
Definition has_tag (entry : Entry.t) (tagId : string) : Prop :=
  match Entry.tags entry with
  | Some ts => tagId ∈ ts
  | None => False
  end.

#[global] Instance has_tag_dec entry tagId : Decision (has_tag entry tagId).
Proof. unfold has_tag. destruct (Entry.tags entry); apply _. Defined.

(** What the loop of [Tags.remove] does to one entry. *)
Definition strip (tagId : string) (entry : Entry.t) : Entry.t :=
  match Entry.tags entry with
  | Some ts =>
      if bool_decide (tagId ∈ ts) then Tags.detach tagId entry ts else entry
  | None => entry
  end.

(** Some stored entry carries the tag [tagId]: the loop of [Tags.remove]
    then sets [updated], and the entries are written back. *)
Definition carried (ls : LocalStorage) (tagId : string) : Prop :=
  map_Exists (fun _ entry => has_tag entry tagId) (Storage.getAllEntries ls).

#[global] Instance carried_dec ls tagId : Decision (carried ls tagId).
Proof. unfold carried. apply _. Defined.

(** The medium after the first step of [Tags.remove]. *)
Definition after_detach (ls : LocalStorage) (tagId : string) : LocalStorage :=
  if decide (carried ls tagId)
  then after_set ls ENTRIES (strip tagId <$> Storage.getAllEntries ls)
  else ls.

(** Invariant of the entries collection: an entry is stored under its own
    date. *)
Definition keyed_by_date (entries : gmap string Entry.t) : Prop :=
  map_Forall (fun date entry => Entry.date entry = date) entries.

#[global] Instance keyed_by_date_dec entries : Decision (keyed_by_date entries).
Proof. unfold keyed_by_date. apply _. Defined.

(** Invariant of the tag collection: every tag has a name, and no two tags
    have the same name, letter case aside. *)
Definition distinct_names (tags : list Tag.t) : Prop :=
  Forall (fun t => Tag.name t ≠ "") tags ∧
  NoDup ((fun t => toLowerCase (Tag.name t)) <$> tags).

(** A string of digits and hyphens. *)
Definition plain_char (c : ascii) : bool :=
  let n := N_of_ascii c in
  (n =? 45)%N || ((48 <=? n) && (n <=? 57))%N.

Fixpoint plainb (s : string) : bool :=
  match s with
  | EmptyString => true
  | String c s' => plain_char c && plainb s'
  end.

Definition plain (s : string) : Prop := plainb s = true.

(** The dates of the entries are strings of digits and hyphens. *)
Definition plain_dates (entries : gmap string Entry.t) : Prop :=
  map_Forall (fun _ entry => plain (Entry.date entry)) entries.

#[global] Instance plain_dates_dec entries : Decision (plain_dates entries).
Proof. unfold plain_dates, plain. apply _. Defined.


(** The argument that sets every criterion to its value in [f]. *)
Definition all_of (f : Search.Filters) : Search.Arg.t :=
  Search.Arg.mk (Some (Search.keyword f)) (Some (Search.tags f))
    (Some (Search.fromDate f)) (Some (Search.toDate f)).


(** The Gregorian calendar, as the design document means it: leap years,
    the lengths of the months and the weekday of a date, none of them taken
    from the definitions of [Date]. *)
Definition leap_year (y : Z) : bool :=
  (y mod 4 =? 0) && (negb (y mod 100 =? 0) || (y mod 400 =? 0)).

(** Length of month [m] (0 = January) of year [y]. *)
Definition daysInMonth (y m : Z) : Z :=
  if m =? 1 then (if leap_year y then 29 else 28)
  else if (m =? 3) || (m =? 5) || (m =? 8) || (m =? 10) then 30
  else 31.

(** Length of the month before month [m] of year [y]. *)
Definition daysInMonthBefore (y m : Z) : Z :=
  if m =? 0 then 31 else daysInMonth y (m - 1).

(** Weekday (0 = Sunday) of day [d] of month [m] (0 = January) of year
    [y], by the table of month offsets: January and February count with the
    year before. *)
Definition weekday (y m d : Z) : Z :=
  let y' := if m <? 2 then y - 1 else y in
  let offset := nth (Z.to_nat m) [0; 3; 2; 5; 0; 3; 5; 1; 4; 6; 2; 4] 0 in
  (y' + y' / 4 - y' / 100 + y' / 400 + offset + d) mod 7.

(** The year [new Date(year, ...)] takes [year] for. *)
Definition dateYear (year : Z) : Z :=
  if (0 <=? year) && (year <=? 99) then 1900 + year else year.

(** The host keeps the calendar day of number [day]: local midnight of the
    day is a time a [Date] can hold, and the local time of that [Date] is
    within the day.  It fails outside the range of [Date] and for a day
    that the time zone of the host skips. *)
Definition civil (tz : Date.TimeZone) (day : Z) : Prop :=
  match Date.TimeClip (Date.UTC tz (day * Date.msPerDay)) with
  | Some t => Date.Day (Date.LocalTime tz t) = day
  | None => False
  end.

#[global] Instance civil_dec tz day : Decision (civil tz day).
Proof. unfold civil. destruct (Date.TimeClip _); apply _. Defined.

(** The host keeps the days that [renderDays] asks [Date] about for a
    month: the 1st, the last day, and the day before the 1st. *)
Definition civil_month (tz : Date.TimeZone) (y m : Z) : Prop :=
  civil tz (Date.MakeDay y m 1) ∧
  civil tz (Date.MakeDay y (m + 1) 0) ∧
  civil tz (Date.MakeDay y m 0).

#[global] Instance civil_month_dec tz y m : Decision (civil_month tz y m).
Proof. unfold civil_month. apply _. Defined.

(** The day number, the date string and the flag [isOtherMonth] of the cell
    of index [i], in terms of the number [s] of cells before the 1st, the
    number [N] of days of the month and the day of the month [P] of the day
    before the 1st, which may be NaN. *)
Definition expected_cell (year month s N : Z) (P : num) (i : Z)
  : num * string * bool :=
  if i <? s then
    let day := (fun P => P - s + i + 1) <$> P in
    (day,
     if month =? 0 then ymd_num (Some (year - 1)) (Some 12) day
     else ymd_num (Some year) (Some month) day,
     true)
  else if i <? s + N then
    let day := i - s + 1 in
    (Some day, ymd year (month + 1) day, false)
  else
    let day := i - s - N + 1 in
    (Some day,
     if month =? 11 then ymd (year + 1) 1 day else ymd year (month + 2) day,
     true).

Definition cell_summary (c : Calendar.Cell) : num * string * bool :=
  (Calendar.day c, Calendar.dateString c, Calendar.isOtherMonth c).

(** What holds of the variables of the loop of [renderDays] when [n] cells
    are done. *)
Definition after_cells (year month s N : Z) (P : num) (n : nat)
    (st : Calendar.Loop) : Prop :=
  Calendar.dayCount st = 1 + Z.max 0 (Z.min (Z.of_nat n - s) N) ∧
  Calendar.nextMonthDay st = 1 + Z.max 0 (Z.of_nat n - s - N) ∧
  length (Calendar.html st) = n ∧
  ∀ (i : nat) c,
    Calendar.html st !! i = Some c →
    cell_summary c = expected_cell year month s N P (Z.of_nat i).

(** [entry] is one of the stored entries. *)
Definition stored (ls : LocalStorage) (entry : Entry.t) : Prop :=
  ∃ date, Storage.getEntry ls date = Some entry.

(** [field] is not empty and contains [keyword], letter case aside. *)
Definition field_has (field keyword : string) : Prop :=
  field ≠ "" ∧
  ∃ before after,
    toLowerCase field = before +:+ toLowerCase keyword +:+ after.

Definition matches_keyword (keyword : string) (entry : Entry.t) : Prop :=
  field_has (Entry.title entry) keyword ∨
  field_has (Entry.content entry) keyword.

(** [entry] carries one of the tags [tagIds]. *)
Definition has_one_of (tagIds : list string) (entry : Entry.t) : Prop :=
  ∃ tagId, tagId ∈ tagIds ∧ has_tag entry tagId.

(** The date of [entry] is within the bounds, each included; a bound that
    is null or the empty string is no bound. *)
Definition in_range (fromDate toDate : option string) (entry : Entry.t)
  : Prop :=
  (∀ from, fromDate = Some from → from ≠ "" →
           String.le from (Entry.date entry)) ∧
  (∀ to, toDate = Some to → to ≠ "" → String.le (Entry.date entry) to).


(** The character of a decimal digit. *)
Definition digit (n : Z) : ascii := pretty_N_char (Z.to_N n).

(** The date [(y, m, d)] comes before [(y', m', d')]. *)
Definition date_before (y m d y' m' d' : Z) : Prop :=
  y < y' ∨ (y = y' ∧ (m < m' ∨ (m = m' ∧ d < d'))).

(** The tag ids of the entry stored under [date]; none when there is no
    entry or the entry has no tags. *)
Definition tags_at (ls : LocalStorage) (date : string) : list string :=
  default [] (Storage.getEntry ls date ≫= Entry.tags).

(** The dots written in a cell: the slots of its container that hold a
    colour. *)
Definition dots (c : Calendar.Cell) : list string :=
  match Calendar.tagDots c with
  | Some slots => omap (fun slot : option string => slot) slots
  | None => []
  end.

(** What the marks of a cell at index [i] say about it. *)
Definition flags_ok (ls : LocalStorage) (selectedDate : option string)
    (todayString : string) (i : Z) (c : Calendar.Cell) : Prop :=
  ("other-month" ∈ Calendar.classes c ↔ Calendar.isOtherMonth c = true) ∧
  ("today" ∈ Calendar.classes c ↔ Calendar.dateString c = todayString) ∧
  ("selected" ∈ Calendar.classes c ↔
   selectedDate = Some (Calendar.dateString c)) ∧
  ("sunday" ∈ Calendar.classes c ↔ i mod 7 = 0) ∧
  ("saturday" ∈ Calendar.classes c ↔ i mod 7 = 6) ∧
  (Calendar.hasEntry c = true ↔
   is_Some (Storage.getEntry ls (Calendar.dateString c))) ∧
  (Calendar.hasEntry c = false → Calendar.tagDots c = None) ∧
  (is_Some (Calendar.tagDots c) ↔ tags_at ls (Calendar.dateString c) ≠ []) ∧
  dots c =
    omap (fun tagId => Tag.color <$> Tags.getById ls tagId)
      (take 3 (tags_at ls (Calendar.dateString c))) ∧
  (length (dots c) ≤ 3)%nat.

(** The marks are right in the first [n] cells. *)
Definition flags_after (ls : LocalStorage) (selectedDate : option string)
    (todayString : string) (n : nat) (st : Calendar.Loop) : Prop :=
  length (Calendar.html st) = n ∧
  ∀ (i : nat) c,
    Calendar.html st !! i = Some c →
    flags_ok ls selectedDate todayString (Z.of_nat i) c.

(** A medium that is full: every [setItem] throws. *)
Definition full (it : Items) : LocalStorage := mkLocalStorage it (fun _ => false).
(** A medium with room for everything. *)
Definition roomy (it : Items) : LocalStorage := mkLocalStorage it (fun _ => true).

(** ** Data of the scenarios *)

Module Sample.
Definition work : Tag.t := Tag.mk "T1" "Work" "#4a90d9".
Definition travail : Tag.t := Tag.mk "T1" "Travail" "#d94a4a".
Definition lire : Tag.t := Tag.mk "T2" "Lire" "#4ad97a".

Definition jan05 : Entry.t :=
  Entry.mk "entry_1" "2024-01-05" "Office" "back to work" (Some ["T1"]) []
    1704412800000 1704412800000.
Definition jan20 : Entry.t :=
  Entry.mk "entry_2" "2024-01-20" "Outside" "a walk" (Some []) []
    1705708800000 1705708800000.
Definition jan05' : Entry.t :=
  Entry.mk "entry_9" "2024-01-05" "Bureau" "au travail" (Some ["T1"; "T2"]) []
    1704412800000 1706745600000.

Definition two_entries : gmap string Entry.t :=
  <["2024-01-05" := jan05]> (<["2024-01-20" := jan20]> ∅).

(** Entries of 5 and 20 January, the first tagged [T1]; one tag, [T1]. *)
Definition items : Items :=
  mkItems (Some (Stringified two_entries)) (Some (Stringified [work])).

(** A snapshot with another entry for 5 January and with tags [T1]
    (under another name) and [T2]. *)
Definition snapshot : Snapshot.t :=
  Snapshot.mk (Some {["2024-01-05" := jan05']}) (Some [travail; lire])
    "2024-02-01T00:00:00.000Z" "1.0".

(** An entry whose only tag id names no stored tag. *)
Definition jan07 : Entry.t :=
  Entry.mk "entry_7" "2024-01-07" "Orphan" "" (Some ["T404"]) []
    1704585600000 1704585600000.

Definition items_orphan : Items :=
  mkItems (Some (Stringified (<["2024-01-07" := jan07]> two_entries)))
    (Some (Stringified [work])).

(** The time zone of Kiritimati at its change of side of the date line:
    10 h behind UTC until local midnight of 31 December 1994, 14 h ahead
    from then on, so that the local calendar has no 31 December 1994.  A
    local time that was skipped is taken with the offset before the
    change. *)
Definition kiritimati : Date.TimeZone.
Proof.
  refine (Date.mkTimeZone
            (fun t isUTC =>
               let change := Date.MakeDay 1994 11 31 * Date.msPerDay in
               let limit :=
                 if isUTC then change + 36000000
                 else change + 36000000 + 50400000 in
               if t <? limit then -36000000 else 50400000) _).
  intros t isUTC. cbv zeta. unfold Date.msPerDay.
  destruct (t <? _); lia.
Defined.
End Sample.

(** ** The storage layer: reading *)

Section reading.
Variable ls : LocalStorage.

Lemma get_absent k : getItem ls k = None → Storage.get ls k = None.
Proof. unfold Storage.get. by intros ->. Qed.

Lemma get_stringified k v :
  getItem ls k = Some (Stringified v) → Storage.get ls k = Some v.
Proof. unfold Storage.get. by intros ->. Qed.

Lemma get_throwing k data e :
  getItem ls k = Some data → JSON_parse data = Throw e →
  Storage.get ls k = None.
Proof.
  unfold Storage.get. intros -> Hparse. rewrite Hparse.
  by destruct (truthy_text data).
Qed.
End reading.

(** ** The storage layer: writing *)

Lemma set_cases ls k v :
  (accepts ls (put (items ls) k (Some (Stringified v))) = true ∧
   Storage.set ls k v =
     (mkLocalStorage (put (items ls) k (Some (Stringified v))) (accepts ls),
      true)) ∨
  (accepts ls (put (items ls) k (Some (Stringified v))) = false ∧
   Storage.set ls k v = (ls, false)).
Proof.
  unfold Storage.set, setItem, JSON_stringify.
  destruct (accepts ls _); [left|right]; done.
Qed.

Lemma set_rejected ls k v : ¬ room_for ls k v → Storage.set ls k v = (ls, false).
Proof.
  unfold room_for. destruct (set_cases ls k v) as [[_ ->]|[_ ->]]; naive_solver.
Qed.

Lemma after_set_rejected ls k v : ¬ room_for ls k v → after_set ls k v = ls.
Proof. intros H. unfold after_set. by rewrite set_rejected. Qed.

Lemma no_room ls k v : (∀ it, accepts ls it = false) → ¬ room_for ls k v.
Proof.
  intros Hfull. unfold room_for, Storage.set, setItem. by rewrite Hfull.
Qed.

Lemma set_full it k v : Storage.set (full it) k v = (full it, false).
Proof. done. Qed.

Lemma set_pair ls k v : Storage.set ls k v = (after_set ls k v, (Storage.set ls k v).2).
Proof. unfold after_set. by destruct (Storage.set ls k v). Qed.

Lemma accepts_after_set ls k v : accepts (after_set ls k v) = accepts ls.
Proof.
  unfold after_set. by destruct (set_cases ls k v) as [[_ ->]|[_ ->]].
Qed.

Lemma entries_after_set_entries ls v :
  room_for ls ENTRIES v → Storage.getAllEntries (after_set ls ENTRIES v) = v.
Proof.
  unfold room_for, after_set.
  by destruct (set_cases ls ENTRIES v) as [[_ ->]|[_ ->]].
Qed.

Lemma tags_after_set_tags ls v :
  room_for ls TAGS v → Storage.getAllTags (after_set ls TAGS v) = v.
Proof.
  unfold room_for, after_set.
  by destruct (set_cases ls TAGS v) as [[_ ->]|[_ ->]].
Qed.

Lemma tags_after_set_entries ls v :
  Storage.getAllTags (after_set ls ENTRIES v) = Storage.getAllTags ls.
Proof.
  unfold after_set. by destruct (set_cases ls ENTRIES v) as [[_ ->]|[_ ->]].
Qed.

Lemma entries_after_set_tags ls v :
  Storage.getAllEntries (after_set ls TAGS v) = Storage.getAllEntries ls.
Proof.
  unfold after_set. by destruct (set_cases ls TAGS v) as [[_ ->]|[_ ->]].
Qed.

(** C7.  When the text stored under a key is one that [JSON.parse] rejects,
    [get] returns null; under the entries key [getAllEntries] is then the
    empty object and under the tags key [getAllTags] the empty array.  The
    exception is caught inside [get]: its result is a value in every
    case. *)
Theorem corrupt_text_reads_as_absent (ls : LocalStorage) (k : Key)
    (data : Text (Doc k)) (e : Exn) :
  getItem ls k = Some data →
  JSON_parse data = Throw e →
  Storage.get ls k = None ∧
  (k = ENTRIES → Storage.getAllEntries ls = ∅) ∧
  (k = TAGS → Storage.getAllTags ls = []).
Proof.
  intros Hitem Hparse.
  pose proof (get_throwing ls k data e Hitem Hparse) as Hget.
  split; [done|].
  split; intros ->; [unfold Storage.getAllEntries|unfold Storage.getAllTags];
    by rewrite Hget.
Qed.

Lemma corrupt_text_reads_as_absent_witness :
  let ls := roomy (mkItems (Some (Malformed "{oops")) None) in
  Storage.get ls ENTRIES = None ∧
  (ENTRIES = ENTRIES → Storage.getAllEntries ls = ∅) ∧
  (ENTRIES = TAGS → Storage.getAllTags ls = []).
Proof.
  exact (corrupt_text_reads_as_absent
           (roomy (mkItems (Some (Malformed "{oops")) None))
           ENTRIES (Malformed "{oops") SyntaxError eq_refl eq_refl).
Defined.

(** C3.  An import whose input lacks [entries] or [tags] returns false and
    leaves the medium exactly as it was, whatever the mode. *)
Theorem import_invalid_untouched (ls : LocalStorage) (data : Snapshot.t)
    (mode : string) :
  Snapshot.entries data = None ∨ Snapshot.tags data = None →
  Storage.importData ls data mode = (ls, false).
Proof.
  unfold Storage.importData, Storage.importData_body.
  cbn [Imported.of_snapshot Imported.entries Imported.tags].
  intros [-> | ->]; [done|]. by destruct (Snapshot.entries data).
Qed.

Lemma import_invalid_untouched_witness :
  let ls := roomy (mkItems None (Some (Stringified [Tag.mk "T1" "Work" "#f00"]))) in
  Storage.importData ls (Snapshot.mk (Some ∅) None "2024-01-01T00:00:00.000Z" "1.0")
    "merge" = (ls, false).
Proof.
  apply import_invalid_untouched. right. reflexivity.
Defined.

(** ** Import *)

Lemma importData_overwrite ls data de dt :
  Snapshot.entries data = Some de → Snapshot.tags data = Some dt →
  Storage.importData ls data "overwrite" =
    (after_set (after_set ls ENTRIES de) TAGS dt, true).
Proof.
  intros Hde Hdt. unfold Storage.importData, Storage.importData_body, after_set.
  cbn [Imported.of_snapshot Imported.entries Imported.tags].
  rewrite Hde, Hdt. simpl.
  destruct (Storage.set ls ENTRIES de) as [ls1 b1]. simpl.
  by destruct (Storage.set ls1 TAGS dt).
Qed.

Lemma importData_merge ls data mode de dt :
  Snapshot.entries data = Some de → Snapshot.tags data = Some dt →
  mode ≠ "overwrite" →
  Storage.importData ls data mode =
    (after_set
       (after_set ls ENTRIES
          (Storage.mergedEntries (Storage.getAllEntries ls) de))
       TAGS (Storage.mergedTags (Storage.getAllTags ls) dt),
     true).
Proof.
  intros Hde Hdt Hmode.
  unfold Storage.importData, Storage.importData_body, after_set.
  cbn [Imported.of_snapshot Imported.entries Imported.tags].
  rewrite Hde, Hdt, bool_decide_eq_false_2 by done. simpl.
  destruct (Storage.set ls ENTRIES _) as [ls1 b1]. simpl.
  by destruct (Storage.set ls1 TAGS _).
Qed.

Lemma find_by_id_app (l1 l2 : list Tag.t) (t : Tag.t) :
  t ∈ l1 →
  List.find (fun t' => bool_decide (Tag.id t' = Tag.id t)) (l1 ++ l2) =
  List.find (fun t' => bool_decide (Tag.id t' = Tag.id t)) l1.
Proof.
  induction l1 as [|x l1 IH]; [by intros ?%elem_of_nil|].
  intros Hin. simpl. case_bool_decide as Hx; [done|].
  apply elem_of_cons in Hin as [->|Hin]; [done|]. by apply IH.
Qed.

Lemma set_tags_true_or_untouched ls data_tags :
  (Storage.set_tags ls data_tags).2 = true ∨
  Storage.set_tags ls data_tags = (ls, false).
Proof.
  destruct data_tags as [l|raw]; simpl.
  - destruct (set_cases ls TAGS l) as [[_ ->]|[_ ->]]; auto.
  - unfold setItem. destruct (accepts ls _); auto.
Qed.

Lemma set_tags_full ls data_tags :
  (∀ it, accepts ls it = false) → Storage.set_tags ls data_tags = (ls, false).
Proof.
  intros Hfull. destruct data_tags as [l|raw]; simpl.
  - apply set_rejected. by apply no_room.
  - unfold setItem. by rewrite Hfull.
Qed.

(** C10, as the code has it.  When the input has both [entries] and [tags]
    and [tags] is an array of tags, or the mode is ["overwrite"], the
    import returns true whatever the two writes answered: on a medium that
    takes no write the call still returns true and the medium is left as
    it was.  In merge mode with a [tags] that is no array of tags the
    import returns false and writes nothing. *)
Theorem import_reports_success_regardless (ls : LocalStorage)
    (data : Imported.t) (mode : string) :
  is_Some (Imported.entries data) →
  is_Some (Imported.tags data) →
  (mode = "overwrite" ∨ ∃ dt, Imported.tags data = Some (Imported.tag_list dt)) →
  (Storage.importData ls data mode).2 = true ∧
  ((∀ it, accepts ls it = false) →
   Storage.importData ls data mode = (ls, true)).
Proof.
  intros [de Hde] [tags Htags] Hshape.
  unfold Storage.importData, Storage.importData_body. rewrite Hde, Htags.
  destruct (decide (mode = "overwrite")) as [->|Hmode].
  - rewrite bool_decide_eq_true_2 by done.
    destruct (Storage.set ls ENTRIES de) as [ls1 b1] eqn:Hset1.
    destruct (Storage.set_tags ls1 tags) as [ls2 b2] eqn:Hset2.
    split; [done|]. intros Hfull. cbn [try_catch].
    rewrite (set_rejected ls ENTRIES de) in Hset1 by by apply no_room.
    injection Hset1 as <- <-.
    rewrite (set_tags_full ls tags Hfull) in Hset2. by injection Hset2 as <- <-.
  - rewrite bool_decide_eq_false_2 by done.
    destruct Hshape as [?|[dt Hdt]]; [done|].
    rewrite Htags in Hdt. injection Hdt as ->.
    destruct (Storage.set ls ENTRIES _) as [ls1 b1] eqn:Hset1.
    destruct (Storage.set ls1 TAGS _) as [ls2 b2] eqn:Hset2.
    split; [done|]. intros Hfull. cbn [try_catch].
    rewrite set_rejected in Hset1 by by apply no_room.
    injection Hset1 as <- <-.
    rewrite set_rejected in Hset2 by by apply no_room.
    by injection Hset2 as <- <-.
Qed.

Lemma import_reports_success_regardless_witness :
  let ls := full (mkItems None None) in
  let e := Entry.mk "entry_1" "2024-01-05" "Hello" "" (Some []) [] 1 1 in
  let data :=
    Snapshot.mk (Some {["2024-01-05" := e]}) (Some [])
      "2024-02-01T00:00:00.000Z" "1.0" in
  ((Storage.importData ls data "merge").2 = true ∧
   ((∀ it, accepts ls it = false) →
    Storage.importData ls data "merge" = (ls, true))) ∧
  Storage.getEntry (Storage.importData ls data "merge").1 "2024-01-05" = None.
Proof.
  split; [|reflexivity].
  apply (import_reports_success_regardless
           (full (mkItems None None))
           (Snapshot.mk
              (Some {["2024-01-05" :=
                        Entry.mk "entry_1" "2024-01-05" "Hello" "" (Some []) [] 1 1]})
              (Some []) "2024-02-01T00:00:00.000Z" "1.0")
           "merge").
  - by eexists.
  - by eexists.
  - right. by eexists.
Defined.

(** C10 fails as stated for an input whose [tags] is present but is no
    array of tags, such as the object [{}]: in merge mode
    [data.tags.filter] throws inside the [try], the import returns false
    and nothing is written, on a medium with room for everything. *)
Lemma import_of_foreign_tags_fails :
  let ls := roomy Sample.items in
  let data := Imported.mk (Some ∅) (Some (Imported.other "{}")) in
  is_Some (Imported.entries data) ∧ is_Some (Imported.tags data) ∧
  Storage.importData ls data "merge" = (ls, false).
Proof. split; [by eexists|]. split; [by eexists|reflexivity]. Qed.

Lemma mergedEntries_lookup (current de : gmap string Entry.t) (date : string) :
  Storage.mergedEntries current de !! date =
  match de !! date with
  | Some e => Some e
  | None => current !! date
  end.
Proof.
  unfold Storage.mergedEntries, Storage.spread.
  destruct (de !! date) as [e|] eqn:Hde.
  - by apply lookup_union_Some_l.
  - by rewrite lookup_union_r.
Qed.

Lemma mergedTags_eq (current dt : list Tag.t) :
  Storage.mergedTags current dt =
  current ++ filter (fun t => Tag.id t ∉ Tag.id <$> current) dt.
Proof.
  unfold Storage.mergedTags. f_equal.
  apply list_filter_iff. intros t. by rewrite elem_of_list_to_set.
Qed.

(** C1, as the code has it.  The two writes of an import can be refused by
    the medium, and the import does not look at their results.  When the
    medium takes both: in merge mode (any mode other than ["overwrite"]) the
    entry read back at a date is the incoming one if the snapshot has that
    date and the stored one otherwise; the tag list is the stored list
    followed by the incoming tags whose id is not among the stored ids, so
    that looking up a stored id still gives the stored tag.  In overwrite
    mode the two collections are those of the snapshot. *)
Theorem import_merge_and_overwrite (ls : LocalStorage) (data : Snapshot.t)
    (de : gmap string Entry.t) (dt : list Tag.t) :
  Snapshot.entries data = Some de →
  Snapshot.tags data = Some dt →
  (∀ mode, mode ≠ "overwrite" →
     let mergedEntries := Storage.mergedEntries (Storage.getAllEntries ls) de in
     let mergedTags := Storage.mergedTags (Storage.getAllTags ls) dt in
     room_for ls ENTRIES mergedEntries →
     room_for (after_set ls ENTRIES mergedEntries) TAGS mergedTags →
     let ls' := (Storage.importData ls data mode).1 in
     (∀ date,
        Storage.getEntry ls' date =
        match de !! date with
        | Some e => Some e
        | None => Storage.getEntry ls date
        end) ∧
     Storage.getAllTags ls' =
       Storage.getAllTags ls ++
       filter (fun t => Tag.id t ∉ Tag.id <$> Storage.getAllTags ls) dt ∧
     (∀ t, t ∈ Storage.getAllTags ls →
        Tags.getById ls' (Tag.id t) = Tags.getById ls (Tag.id t))) ∧
  (room_for ls ENTRIES de →
   room_for (after_set ls ENTRIES de) TAGS dt →
   let ls' := (Storage.importData ls data "overwrite").1 in
   Storage.getAllEntries ls' = de ∧ Storage.getAllTags ls' = dt).
Proof.
  intros Hde Hdt. split.
  - intros mode Hmode E T HE HT ls'.
    assert (Storage.getAllEntries ls' = E) as Hentries.
    { unfold ls'. rewrite (importData_merge ls data mode de dt) by done. simpl.
      rewrite entries_after_set_tags. by apply entries_after_set_entries. }
    assert (Storage.getAllTags ls' = T) as Htags.
    { unfold ls'. rewrite (importData_merge ls data mode de dt) by done. simpl.
      by apply tags_after_set_tags. }
    split; [|split].
    + intros date. unfold Storage.getEntry. rewrite Hentries.
      apply mergedEntries_lookup.
    + rewrite Htags. apply mergedTags_eq.
    + intros t Ht. unfold Tags.getById, Tags.getAll. rewrite Htags.
      unfold T. rewrite mergedTags_eq. by apply find_by_id_app.
  - intros HE HT ls'. unfold ls'.
    rewrite (importData_overwrite ls data de dt) by done. simpl. split.
    + rewrite entries_after_set_tags. by apply entries_after_set_entries.
    + by apply tags_after_set_tags.
Qed.

Lemma import_merge_and_overwrite_witness :
  let ls := roomy Sample.items in
  let merged := (Storage.importData ls Sample.snapshot "merge").1 in
  let overwritten := (Storage.importData ls Sample.snapshot "overwrite").1 in
  (Storage.getEntry merged "2024-01-05" = Some Sample.jan05' ∧
   Storage.getEntry merged "2024-01-20" = Some Sample.jan20 ∧
   Storage.getAllTags merged = [Sample.work; Sample.lire] ∧
   Tags.getById merged "T1" = Some Sample.work) ∧
  (Storage.getAllEntries overwritten = {["2024-01-05" := Sample.jan05']} ∧
   Storage.getAllTags overwritten = [Sample.travail; Sample.lire]).
Proof.
  intros ls merged overwritten.
  destruct (import_merge_and_overwrite ls Sample.snapshot _ _ eq_refl eq_refl)
    as [Hmerge Hoverwrite].
  split.
  - destruct (Hmerge "merge" ltac:(done) eq_refl eq_refl) as (He & Ht & Hid).
    split; [exact (He "2024-01-05")|].
    split; [exact (He "2024-01-20")|].
    split; [exact Ht|].
    exact (Hid Sample.work ltac:(by apply list_elem_of_here)).
  - exact (Hoverwrite eq_refl eq_refl).
Defined.

(** The scenario of the design document: the store has tag [T1] named
    "Work", the snapshot has [T1] named "Travail"; after a merge import the
    tag [T1] is still named "Work". *)
Example merge_import_keeps_Work :
  Tag.name <$> Tags.getById
    (Storage.importData (roomy Sample.items) Sample.snapshot "merge").1 "T1"
  = Some "Work".
Proof. reflexivity. Qed.

(** C1 fails as stated on a medium that is full: the import returns true,
    the incoming entry for 5 January has not replaced the stored one in
    merge mode, and in overwrite mode the collections are not those of the
    snapshot. *)
Lemma import_on_full_medium :
  let ls := full Sample.items in
  (Storage.importData ls Sample.snapshot "merge").2 = true ∧
  Storage.getEntry (Storage.importData ls Sample.snapshot "merge").1
    "2024-01-05" ≠ Some Sample.jan05' ∧
  Storage.getAllTags (Storage.importData ls Sample.snapshot "overwrite").1
    ≠ [Sample.travail; Sample.lire].
Proof.
  split; [reflexivity|]. split; vm_compute; discriminate.
Qed.

(** ** Deleting what is not there *)

Lemma filter_other_ids (tags : list Tag.t) (tagId : string) :
  tagId ∉ Tag.id <$> tags → filter (fun t => Tag.id t ≠ tagId) tags = tags.
Proof.
  induction tags as [|t tags IH]; [done|].
  rewrite fmap_cons, not_elem_of_cons. intros [Hne Hnotin].
  rewrite filter_cons_True by done. f_equal. by apply IH.
Qed.

Lemma truthy_at_own {V : Type} (o : gmap string V) (name : string) :
  is_Some (o !! name) → truthy_at o name = true.
Proof. intros Hown. unfold truthy_at. by rewrite bool_decide_eq_true_2. Qed.

Lemma truthy_at_missing {V : Type} (o : gmap string V) (name : string) :
  o !! name = None → inherited name = false → truthy_at o name = false.
Proof.
  intros Hnone Hname. unfold truthy_at. rewrite Hname, Hnone.
  rewrite bool_decide_eq_false_2; [done|]. by intros [? ?].
Qed.

Lemma truthy_at_inherited {V : Type} (o : gmap string V) (name : string) :
  inherited name = true → truthy_at o name = true.
Proof. intros Hname. unfold truthy_at. rewrite Hname. apply orb_true_r. Qed.

Lemma deleteEntry_missing ls date :
  Storage.getEntry ls date = None → inherited date = false →
  Storage.deleteEntry ls date = (ls, false).
Proof.
  unfold Storage.getEntry, Storage.deleteEntry. intros Hdate Hname.
  by rewrite truthy_at_missing.
Qed.

Lemma deleteEntry_truthy ls date :
  truthy_at (Storage.getAllEntries ls) date = true →
  Storage.deleteEntry ls date =
    Storage.set ls ENTRIES (delete date (Storage.getAllEntries ls)).
Proof. unfold Storage.deleteEntry. by intros ->. Qed.

(** C5, as the code has it.  [deleteEntry] on a date with no entry, the
    date being none of the names an object inherits, returns false and
    writes nothing.  [deleteTag] on an id that no tag has saves the tag list
    again: both collections read as before, and the result is that of the
    write, true exactly when the medium takes it. *)
Theorem delete_of_missing_target (ls : LocalStorage) (date tagId : string) :
  Storage.getEntry ls date = None →
  inherited date = false →
  tagId ∉ Tag.id <$> Storage.getAllTags ls →
  Storage.deleteEntry ls date = (ls, false) ∧
  Storage.getAllTags (Storage.deleteTag ls tagId).1 = Storage.getAllTags ls ∧
  Storage.getAllEntries (Storage.deleteTag ls tagId).1
    = Storage.getAllEntries ls ∧
  ((Storage.deleteTag ls tagId).2 = true ↔
   room_for ls TAGS (Storage.getAllTags ls)).
Proof.
  intros Hdate Hname Hid. split; [by apply deleteEntry_missing|].
  unfold Storage.deleteTag, Storage.saveTags.
  rewrite filter_other_ids by done.
  change (Storage.set ls TAGS (Storage.getAllTags ls)).1
    with (after_set ls TAGS (Storage.getAllTags ls)).
  split; [|split; [apply entries_after_set_tags|done]].
  destruct (decide (room_for ls TAGS (Storage.getAllTags ls))) as [Hroom|Hroom].
  - by apply tags_after_set_tags.
  - by rewrite after_set_rejected.
Qed.

Lemma delete_of_missing_target_witness :
  let ls := roomy Sample.items in
  Storage.deleteEntry ls "2024-03-01" = (ls, false) ∧
  Storage.getAllTags (Storage.deleteTag ls "T2").1 = Storage.getAllTags ls ∧
  Storage.getAllEntries (Storage.deleteTag ls "T2").1
    = Storage.getAllEntries ls ∧
  ((Storage.deleteTag ls "T2").2 = true ↔
   room_for ls TAGS (Storage.getAllTags ls)).
Proof.
  apply (delete_of_missing_target (roomy Sample.items) "2024-03-01" "T2").
  - reflexivity.
  - reflexivity.
  - apply not_elem_of_cons. split; [done|apply not_elem_of_nil].
Defined.

(** C5 fails as stated in two ways.  No tag has id [T2], the medium has
    room, and [deleteTag("T2")] returns true.  And no entry is stored under
    ["constructor"], yet [entries["constructor"]] is the function every
    object inherits: [deleteEntry("constructor")] writes the entries again
    and returns true. *)
Lemma missing_target_returns_true :
  let ls := roomy Sample.items in
  ("T2" ∉ Tag.id <$> Storage.getAllTags ls) ∧
  Storage.deleteTag ls "T2" = (ls, true) ∧
  (Storage.deleteTag ls "T2").2 ≠ false ∧
  Storage.getEntry ls "constructor" = None ∧
  (Storage.deleteEntry ls "constructor").2 = true.
Proof.
  split; [|split; [reflexivity|split; [discriminate|split; reflexivity]]].
  apply not_elem_of_cons. split; [done|apply not_elem_of_nil].
Qed.

(** ** Deleting a tag everywhere *)

Lemma strip_untagged tagId entry : ¬ has_tag entry tagId → strip tagId entry = entry.
Proof.
  unfold has_tag, strip. destruct (Entry.tags entry) as [ts|]; [|done].
  intros Hts. by rewrite bool_decide_eq_false_2.
Qed.

Lemma strip_tagged tagId entry :
  has_tag entry tagId →
  ∃ ts, Entry.tags entry = Some ts ∧
        strip tagId entry = Tags.detach tagId entry ts.
Proof.
  unfold has_tag, strip. destruct (Entry.tags entry) as [ts|]; [|done].
  intros Hts. exists ts. by rewrite bool_decide_eq_true_2.
Qed.

Lemma strip_has_no_tag tagId entry : ¬ has_tag (strip tagId entry) tagId.
Proof.
  destruct (decide (has_tag entry tagId)) as [Hyes|Hno].
  - destruct (strip_tagged _ _ Hyes) as (ts & Hts & ->).
    unfold has_tag, Tags.detach. simpl.
    by intros [? _]%list_elem_of_filter.
  - by rewrite strip_untagged.
Qed.

(** One turn of the loop, seen from outside: the entry at [date] is
    stripped, the others are as they were, and [updated] is raised when
    the entry carried the tag. *)
Lemma remove_step_spec tagId entries updated date :
  ∃ updated',
    Tags.remove_step tagId (entries, updated) date
      = (alter (strip tagId) date entries, updated') ∧
    (updated' = true ↔
     updated = true ∨ ∃ e, entries !! date = Some e ∧ has_tag e tagId).
Proof.
  unfold Tags.remove_step.
  destruct (entries !! date) as [e|] eqn:He.
  - destruct (decide (has_tag e tagId)) as [Hyes|Hno].
    + destruct (strip_tagged _ _ Hyes) as (ts & Hts & Hstrip).
      rewrite Hts. unfold has_tag in Hyes. rewrite Hts in Hyes.
      rewrite bool_decide_eq_true_2 by done. exists true. split.
      * f_equal. apply map_eq. intros k.
        destruct (decide (date = k)) as [<-|Hk].
        -- rewrite lookup_insert_eq, lookup_alter_eq, He. simpl.
           by rewrite Hstrip.
        -- by rewrite lookup_insert_ne, lookup_alter_ne.
      * split; [|done]. intros _. right. exists e. split; [done|].
        unfold has_tag. by rewrite Hts.
    + exists updated. split.
      * assert (alter (strip tagId) date entries = entries) as ->.
        { apply map_eq. intros k. destruct (decide (date = k)) as [<-|Hk].
          - rewrite lookup_alter_eq, He. simpl. by rewrite strip_untagged.
          - by rewrite lookup_alter_ne. }
        unfold has_tag in Hno. destruct (Entry.tags e) as [ts|]; [|done].
        by rewrite bool_decide_eq_false_2.
      * split; [by left|]. intros [?|(e' & ? & ?)]; [done|]. naive_solver.
  - exists updated. split.
    + f_equal. apply map_eq. intros k. destruct (decide (date = k)) as [<-|Hk].
      * by rewrite lookup_alter_eq, He.
      * by rewrite lookup_alter_ne.
    + split; [by left|]. intros [?|(e' & ? & ?)]; [done|]. naive_solver.
Qed.

(** The whole loop, over any duplicate-free list of dates. *)
Lemma remove_loop_spec tagId (dates : list string) :
  NoDup dates →
  ∀ entries updated,
  ∃ entries' updated',
    foldl (Tags.remove_step tagId) (entries, updated) dates
      = (entries', updated') ∧
    (∀ k, entries' !! k =
          if bool_decide (k ∈ dates) then strip tagId <$> entries !! k
          else entries !! k) ∧
    (updated' = true ↔
     updated = true ∨
     ∃ k e, k ∈ dates ∧ entries !! k = Some e ∧ has_tag e tagId).
Proof.
  induction 1 as [|date dates Hnotin Hnodup IH]; intros entries updated.
  - exists entries, updated. split; [done|]. split; [done|].
    split; [by left|]. intros [?|(k & e & Hk & _)]; [done|].
    by apply elem_of_nil in Hk.
  - cbn [foldl].
    destruct (remove_step_spec tagId entries updated date)
      as (u1 & -> & Hu1).
    destruct (IH (alter (strip tagId) date entries) u1)
      as (entries' & updated' & -> & Hlookup & Hupdated).
    exists entries', updated'. split; [done|]. split.
    + intros k. rewrite Hlookup.
      destruct (decide (k = date)) as [->|Hk].
      * rewrite (bool_decide_eq_false_2 (date ∈ dates)) by done.
        rewrite (bool_decide_eq_true_2 (date ∈ date :: dates))
          by apply list_elem_of_here.
        by rewrite lookup_alter_eq.
      * rewrite lookup_alter_ne by done.
        destruct (decide (k ∈ dates)) as [Hin|Hout].
        -- rewrite !bool_decide_eq_true_2; [done| |done].
           by apply list_elem_of_further.
        -- rewrite !bool_decide_eq_false_2; [done| |done].
           by intros [?|?]%elem_of_cons.
    + etrans; [exact Hupdated|]. split.
      * intros [Hu|(k & e & Hk & He & Htag)];
          [apply Hu1 in Hu as [?|(e & He & Htag)]|].
        -- by left.
        -- right. exists date, e. split; [apply list_elem_of_here|done].
        -- right. exists k, e. split; [by apply list_elem_of_further|].
           split; [|done].
           rewrite lookup_alter_ne in He; [done|]. intros ->. done.
      * intros [?|(k & e & Hk & He & Htag)]; [left; apply Hu1; by left|].
        apply elem_of_cons in Hk as [->|Hk].
        -- left. apply Hu1. right. by exists e.
        -- right. exists k, e. split; [done|]. split; [|done].
           rewrite lookup_alter_ne; [done|]. intros ->. done.
Qed.

(** [Tags.remove] without its loop: the entries are written back, stripped
    of the tag, when one of them carried it; then the tag is deleted. *)
Lemma Tags_remove_eq ls tagId :
  let entries := Storage.getAllEntries ls in
  ∃ updated : bool,
    Tags.remove ls tagId =
      Storage.deleteTag
        (if updated then after_set ls ENTRIES (strip tagId <$> entries) else ls)
        tagId ∧
    (updated = false → strip tagId <$> entries = entries) ∧
    (updated = true ↔ carried ls tagId).
Proof.
  intros entries. unfold Tags.remove. fold entries.
  destruct (remove_loop_spec tagId (map_to_list entries).*1
              (NoDup_fst_map_to_list entries) entries false)
    as (entries' & updated & -> & Hlookup & Hupdated).
  assert (entries' = strip tagId <$> entries) as ->.
  { apply map_eq. intros k. rewrite Hlookup, lookup_fmap.
    case_bool_decide as Hk; [done|].
    destruct (entries !! k) as [e|] eqn:He; [|done].
    exfalso. apply Hk. apply list_elem_of_fmap. exists (k, e).
    split; [done|]. by apply elem_of_map_to_list. }
  exists updated. split; [done|].
  assert (updated = true ↔ carried ls tagId) as Hcarried.
  { etrans; [exact Hupdated|]. unfold carried. fold entries. split.
    - intros [?|(k & e & _ & He & Htag)]; [done|]. by exists k, e.
    - intros (k & e & He & Htag). right. exists k, e. split; [|done].
      apply list_elem_of_fmap. exists (k, e). split; [done|].
      by apply elem_of_map_to_list. }
  split; [|done].
  intros ->. apply map_eq. intros k. rewrite lookup_fmap.
  destruct (entries !! k) as [e|] eqn:He; [|done]. simpl. f_equal.
  apply strip_untagged. intros Htag.
  assert (false = true) as Habs; [|done].
  apply Hcarried. by exists k, e.
Qed.

Lemma all_room ls k v : (∀ it, accepts ls it = true) → room_for ls k v.
Proof.
  intros Hroom. unfold room_for, Storage.set, setItem. by rewrite Hroom.
Qed.

Lemma Tags_remove_after_detach ls tagId :
  Tags.remove ls tagId = Storage.deleteTag (after_detach ls tagId) tagId.
Proof.
  destruct (Tags_remove_eq ls tagId) as (updated & -> & _ & Hcarried).
  unfold after_detach. destruct (decide (carried ls tagId)) as [Hyes|Hno].
  - apply Hcarried in Hyes. by rewrite Hyes.
  - destruct updated; [|done]. exfalso. by apply Hno, Hcarried.
Qed.

Lemma Tags_remove_collections ls tagId :
  (carried ls tagId →
   room_for ls ENTRIES (strip tagId <$> Storage.getAllEntries ls)) →
  room_for (after_detach ls tagId) TAGS
    (filter (fun t => Tag.id t ≠ tagId) (Storage.getAllTags ls)) →
  Tags.remove ls tagId = ((Tags.remove ls tagId).1, true) ∧
  Storage.getAllEntries (Tags.remove ls tagId).1
    = strip tagId <$> Storage.getAllEntries ls ∧
  Storage.getAllTags (Tags.remove ls tagId).1
    = filter (fun t => Tag.id t ≠ tagId) (Storage.getAllTags ls).
Proof.
  intros Hentries_room Htags_room.
  rewrite Tags_remove_after_detach.
  destruct (Tags_remove_eq ls tagId) as (updated & _ & Hsame & Hcarried).
  set (ls1 := after_detach ls tagId) in *.
  assert (Storage.getAllEntries ls1
          = strip tagId <$> Storage.getAllEntries ls) as Hentries.
  { unfold ls1, after_detach.
    destruct (decide (carried ls tagId)) as [Hyes|Hno].
    - apply entries_after_set_entries. by apply Hentries_room.
    - symmetry. apply Hsame. destruct updated; [|done].
      exfalso. by apply Hno, Hcarried. }
  assert (Storage.getAllTags ls1 = Storage.getAllTags ls) as Htags.
  { unfold ls1, after_detach.
    destruct (decide (carried ls tagId)); [apply tags_after_set_entries|done]. }
  unfold Storage.deleteTag, Storage.saveTags. rewrite Htags.
  set (filtered := filter _ _) in *.
  change (Storage.set ls1 TAGS filtered).1 with (after_set ls1 TAGS filtered).
  split; [|split].
  - rewrite (set_pair ls1 TAGS filtered) at 1. f_equal. exact Htags_room.
  - by rewrite entries_after_set_tags.
  - by apply tags_after_set_tags.
Qed.

(** C4, as the code has it.  The writes of [Tags.remove] can be refused by
    the medium.  [Tags.remove(T)] writes the entries, with [T] taken out,
    when some entry carries [T], and then writes the tag list without the
    tags of id [T].  When the medium takes these writes, after
    [Tags.remove(T)]: no stored entry carries [T]; no tag has id [T], the
    other tags being kept in order; an entry that did not carry [T] is read
    back unchanged; an entry that carried [T] is read back with [T]
    filtered out of its tags and its other fields as they were; no date
    gains or loses an entry. *)
Theorem cascading_tag_delete (ls : LocalStorage) (tagId : string) :
  (carried ls tagId →
   room_for ls ENTRIES (strip tagId <$> Storage.getAllEntries ls)) →
  room_for (after_detach ls tagId) TAGS
    (filter (fun t => Tag.id t ≠ tagId) (Storage.getAllTags ls)) →
  let ls' := (Tags.remove ls tagId).1 in
  (∀ date e, Storage.getEntry ls' date = Some e → ¬ has_tag e tagId) ∧
  (∀ t, t ∈ Storage.getAllTags ls' → Tag.id t ≠ tagId) ∧
  Storage.getAllTags ls'
    = filter (fun t => Tag.id t ≠ tagId) (Storage.getAllTags ls) ∧
  (∀ date e,
     Storage.getEntry ls date = Some e → ¬ has_tag e tagId →
     Storage.getEntry ls' date = Some e) ∧
  (∀ date e ts,
     Storage.getEntry ls date = Some e →
     Entry.tags e = Some ts → tagId ∈ ts →
     Storage.getEntry ls' date =
       Some (Entry.with_tags e (Some (filter (fun t => t ≠ tagId) ts)))) ∧
  (∀ date, Storage.getEntry ls date = None → Storage.getEntry ls' date = None).
Proof.
  intros Hroom_entries Hroom_tags ls'.
  destruct (Tags_remove_collections ls tagId Hroom_entries Hroom_tags)
    as (_ & Hentries & Htags).
  fold ls' in Hentries, Htags. unfold Storage.getEntry. rewrite Hentries, Htags.
  repeat split.
  - intros date e. rewrite lookup_fmap.
    destruct (Storage.getAllEntries ls !! date) as [e0|]; [|done].
    simpl. intros [= <-]. apply strip_has_no_tag.
  - intros t. by intros [? _]%list_elem_of_filter.
  - intros date e He Hno. rewrite lookup_fmap, He. simpl.
    by rewrite strip_untagged.
  - intros date e ts He Hts Hin. rewrite lookup_fmap, He. simpl. f_equal.
    unfold strip. rewrite Hts. by rewrite bool_decide_eq_true_2.
  - intros date Hnone. by rewrite lookup_fmap, Hnone.
Qed.

Lemma cascading_tag_delete_witness :
  let ls := roomy Sample.items in
  let ls' := (Tags.remove ls "T1").1 in
  ((∀ date e, Storage.getEntry ls' date = Some e → ¬ has_tag e "T1") ∧
   (∀ t, t ∈ Storage.getAllTags ls' → Tag.id t ≠ "T1")) ∧
  Storage.getEntry ls' "2024-01-05"
    = Some (Entry.with_tags Sample.jan05 (Some [])) ∧
  Storage.getEntry ls' "2024-01-20" = Some Sample.jan20 ∧
  Storage.getAllTags ls' = [].
Proof.
  intros ls ls'.
  destruct (cascading_tag_delete ls "T1"
              ltac:(intros _; by vm_compute) ltac:(by vm_compute))
    as (Hentries & Htags & _).
  split; [exact (conj Hentries Htags)|]. by vm_compute.
Defined.

(** C4 fails as stated on a medium that is full: [Tags.remove("T1")]
    returns (false), the entry of 5 January still carries [T1] and the tag
    [T1] is still in the tag collection. *)
Lemma tag_delete_on_full_medium :
  let ls := full Sample.items in
  let ls' := (Tags.remove ls "T1").1 in
  ¬ (∀ date e, Storage.getEntry ls' date = Some e → ¬ has_tag e "T1") ∧
  ¬ (∀ t, t ∈ Storage.getAllTags ls' → Tag.id t ≠ "T1").
Proof.
  intros ls ls'. split.
  - intros Hclaim. apply (Hclaim "2024-01-05" Sample.jan05); [by vm_compute|].
    apply list_elem_of_here.
  - intros Hclaim. apply (Hclaim Sample.work); [apply list_elem_of_here|done].
Qed.

(** ** Sorting *)

Section Array_sort.
Context {A : Type} (compareFn : A → A → Z).

Lemma sort_insert_Permutation x l : sort_insert compareFn x l ≡ₚ x :: l.
Proof.
  induction l as [|y l IH]; [done|]. simpl.
  destruct (compareFn x y <=? 0); [done|].
  rewrite IH. apply Permutation_swap.
Qed.

Lemma Array_sort_Permutation l : Array_sort compareFn l ≡ₚ l.
Proof.
  induction l as [|x l IH]; [done|]. simpl.
  by rewrite sort_insert_Permutation, IH.
Qed.

(** A comparison function that is consistent: of two elements one is
    not after the other, and "not after" is transitive. *)
Hypothesis compareFn_total : ∀ x y, compareFn x y ≤ 0 ∨ compareFn y x ≤ 0.
Hypothesis compareFn_trans :
  ∀ x y z, compareFn x y ≤ 0 → compareFn y z ≤ 0 → compareFn x z ≤ 0.


End Array_sort.

(** ** Order of date strings *)






(** ** Search *)

Lemma search_state ls cur arg :
  (Search.search ls cur arg).1 = Search.spread cur arg.
Proof. done. Qed.

Lemma spread_all_of cur f : Search.spread cur (all_of f) = f.
Proof. by destruct f. Qed.



Lemma elem_of_Object_values (entries : gmap string Entry.t) (e : Entry.t) :
  e ∈ Object_values entries ↔ ∃ date, entries !! date = Some e.
Proof.
  unfold Object_values. rewrite list_elem_of_fmap. split.
  - intros ([date e'] & -> & Hin). exists date. by apply elem_of_map_to_list.
  - intros [date Hdate]. exists (date, e). split; [done|].
    by apply elem_of_map_to_list.
Qed.



(** The scenario of the design document: entries at 2024-01-05 and
    2024-01-20; [search({})] on the initial filters lists 2024-01-20
    first. *)
Example search_two_entries :
  (Search.search (roomy Sample.items) Search.initialFilters Search.Arg.empty).2
  = [Sample.jan20; Sample.jan05].
Proof. by vm_compute. Qed.


(** C8.  [filterByTags] with an empty selection, or with none at all,
    returns the sequence it was given. *)
Theorem filterByTags_empty_selection (entries : list Entry.t) :
  Search.filterByTags entries (Some []) = entries ∧
  Search.filterByTags entries None = entries.
Proof. split; reflexivity. Qed.

(** The scenario of the design document: the tag filter with [T1] keeps the
    entry tagged [T1] and drops the one without tags. *)
Example filterByTags_T1 :
  Search.filterByTags [Sample.jan05; Sample.jan20] (Some ["T1"])
  = [Sample.jan05].
Proof. by vm_compute. Qed.

(** C9.  [search] leaves [currentFilters] merged with its argument; a
    criterion the argument does not mention keeps the value an earlier call
    gave it, and the result is the one for the merged criteria, whatever
    the argument spelled out.  Hence the same argument can give two
    results over the same store. *)
Theorem search_depends_on_earlier_calls :
  (∀ ls cur arg, (Search.search ls cur arg).1 = Search.spread cur arg) ∧
  (∀ cur arg,
     let merged := Search.spread cur arg in
     (Search.Arg.keyword arg = None →
      Search.keyword merged = Search.keyword cur) ∧
     (Search.Arg.tags arg = None → Search.tags merged = Search.tags cur) ∧
     (Search.Arg.fromDate arg = None →
      Search.fromDate merged = Search.fromDate cur) ∧
     (Search.Arg.toDate arg = None →
      Search.toDate merged = Search.toDate cur)) ∧
  (∀ ls cur arg,
     Search.search ls cur arg =
     Search.search ls Search.initialFilters (all_of (Search.spread cur arg))) ∧
  (∃ ls st0 a b,
     let first := Search.search ls st0 a in
     let between := Search.search ls first.1 b in
     let second := Search.search ls between.1 a in
     first.2 ≠ second.2).
Proof.
  split; [done|]. split.
  { intros cur arg merged. unfold merged, Search.spread. simpl.
    repeat split; by intros ->. }
  split.
  { intros ls cur arg. unfold Search.search at 2.
    by rewrite spread_all_of. }
  exists (roomy Sample.items), Search.initialFilters, Search.Arg.empty,
    (Search.Arg.mk None None (Some (Some "2024-01-10")) None).
  by vm_compute.
Qed.

(** ** The calendar of [Date] *)

Module DateFacts.

(** [YearFromDay] is the year of the standard: the largest [y] whose
    first day is not after [d]. *)
Lemma YearFromDay_spec d :
  Date.DayFromYear (Date.YearFromDay d) ≤ d
    < Date.DayFromYear (Date.YearFromDay d + 1).
Proof.
  unfold Date.YearFromDay.
  set (y := 1970 + d * 400 / 146097).
  assert (Date.DayFromYear (y - 1) ≤ d < Date.DayFromYear (y + 2)) as Hnear.
  { unfold y, Date.DayFromYear. Z.div_mod_to_equations. lia. }
  destruct (Z.ltb_spec d (Date.DayFromYear y)).
  - replace (y - 1 + 1) with y by lia. lia.
  - destruct (Z.leb_spec (Date.DayFromYear (y + 1)) d).
    + replace (y + 1 + 1) with (y + 2) by lia. lia.
    + lia.
Qed.

Lemma DayFromYear_next y :
  Date.DayFromYear (y + 1) = Date.DayFromYear y + Date.DaysInYear y.
Proof.
  unfold Date.DayFromYear, Date.DaysInYear.
  destruct (Z.eqb_spec (y mod 4) 0), (Z.eqb_spec (y mod 100) 0),
    (Z.eqb_spec (y mod 400) 0); simpl; Z.div_mod_to_equations; lia.
Qed.

Lemma DaysInYear_InLeapYear y : Date.DaysInYear y = 365 + Date.InLeapYear y.
Proof.
  unfold Date.InLeapYear, Date.DaysInYear.
  by destruct (negb (y mod 4 =? 0)), (negb (y mod 100 =? 0)),
    (negb (y mod 400 =? 0)).
Qed.

Lemma InLeapYear_cases y : Date.InLeapYear y = 0 ∨ Date.InLeapYear y = 1.
Proof. unfold Date.InLeapYear. destruct (_ =? 366); auto. Qed.

Lemma DayFromYear_mono a b : a ≤ b → Date.DayFromYear a ≤ Date.DayFromYear b.
Proof. unfold Date.DayFromYear. intros. Z.div_mod_to_equations. lia. Qed.

Lemma YearFromDay_unique y d :
  Date.DayFromYear y ≤ d < Date.DayFromYear (y + 1) → Date.YearFromDay d = y.
Proof.
  intros Hd. pose proof (YearFromDay_spec d) as Hspec.
  set (y' := Date.YearFromDay d) in *.
  destruct (Z.lt_trichotomy y' y) as [Hlt|[Heq|Hgt]]; [|done|].
  - pose proof (DayFromYear_mono (y' + 1) y ltac:(lia)). lia.
  - pose proof (DayFromYear_mono (y + 1) y' ltac:(lia)). lia.
Qed.

(** The leap years of [Date] are those of the calendar. *)
Lemma InLeapYear_leap_year y :
  Date.InLeapYear y = if leap_year y then 1 else 0.
Proof.
  unfold Date.InLeapYear, Date.DaysInYear, leap_year.
  by destruct (y mod 4 =? 0), (y mod 100 =? 0), (y mod 400 =? 0).
Qed.

Lemma daysInMonth_eq y m :
  daysInMonth y m =
    if m =? 1 then 28 + Date.InLeapYear y
    else if (m =? 3) || (m =? 5) || (m =? 8) || (m =? 10) then 30
    else 31.
Proof.
  unfold daysInMonth. rewrite InLeapYear_leap_year.
  by destruct (leap_year y).
Qed.

#[local] Arguments Date.DayFromYear : simpl never.
#[local] Arguments Date.InLeapYear : simpl never.
#[local] Arguments Date.YearFromDay : simpl never.

Lemma month_cases m :
  0 ≤ m ≤ 11 →
  m = 0 ∨ m = 1 ∨ m = 2 ∨ m = 3 ∨ m = 4 ∨ m = 5 ∨
  m = 6 ∨ m = 7 ∨ m = 8 ∨ m = 9 ∨ m = 10 ∨ m = 11.
Proof. lia. Qed.

Ltac each_month m Hm :=
  destruct (month_cases m Hm)
    as [->|[->|[->|[->|[->|[->|[->|[->|[->|[->|[->| ->]]]]]]]]]]].

(** Decide each comparison of the goal by arithmetic. *)
Ltac settle_ltb :=
  repeat match goal with
    | |- context [?a <? ?b] =>
        first [ rewrite (proj2 (Z.ltb_lt a b)) by lia
              | rewrite (proj2 (Z.ltb_ge a b)) by lia ]
    end.

Lemma MakeDay_in_range y m date :
  0 ≤ m ≤ 11 →
  Date.MakeDay y m date
    = Date.DayFromYear y + Date.monthStart (Date.InLeapYear y) m + date - 1.
Proof.
  intros Hm. unfold Date.MakeDay.
  assert (m / 12 = 0) as -> by (Z.div_mod_to_equations; lia).
  assert (m mod 12 = m) as -> by (Z.div_mod_to_equations; lia).
  by replace (y + 0) with y by lia.
Qed.

(** A calendar date is read back from its day number. *)
Lemma MakeDay_read y m date :
  0 ≤ m ≤ 11 → 1 ≤ date ≤ daysInMonth y m →
  let t := Date.MakeDay y m date in
  Date.YearFromDay t = y ∧ Date.MonthFromDay t = m ∧
  Date.DateFromDay t = date.
Proof.
  intros Hm Hdate t.
  pose proof (MakeDay_in_range y m date Hm) as Ht. fold t in Ht.
  pose proof (InLeapYear_cases y) as Hleap.
  pose proof (DayFromYear_next y) as Hnext.
  rewrite DaysInYear_InLeapYear in Hnext.
  rewrite daysInMonth_eq in Hdate.
  assert (Date.YearFromDay t = y) as Hyear.
  { apply YearFromDay_unique. rewrite Ht, Hnext.
    each_month m Hm; unfold Date.monthStart; simpl in *; lia. }
  unfold Date.DateFromDay, Date.MonthFromDay, Date.DayWithinYear.
  rewrite Hyear. split; [done|]. rewrite Ht.
  set (leap := Date.InLeapYear y) in *.
  each_month m Hm; unfold Date.monthStart; simpl in *; settle_ltb;
    simpl; split; lia.
Qed.

(** Day 0 of the month after [m] is the last day of [m]. *)
Lemma MakeDay_day_0 y m :
  0 ≤ m ≤ 11 →
  Date.MakeDay y (m + 1) 0 = Date.MakeDay y m (daysInMonth y m).
Proof.
  intros Hm. rewrite (MakeDay_in_range y m) by done.
  destruct (decide (m = 11)) as [->|Hne].
  - unfold Date.MakeDay. change ((11 + 1) / 12) with 1.
    change ((11 + 1) mod 12) with 0.
    rewrite DayFromYear_next, DaysInYear_InLeapYear, daysInMonth_eq.
    unfold Date.monthStart. simpl. lia.
  - rewrite (MakeDay_in_range y (m + 1)) by lia.
    assert (0 ≤ m ≤ 10) as Hm' by lia. clear Hm Hne.
    assert (m = 0 ∨ m = 1 ∨ m = 2 ∨ m = 3 ∨ m = 4 ∨ m = 5 ∨
            m = 6 ∨ m = 7 ∨ m = 8 ∨ m = 9 ∨ m = 10)
      as [->|[->|[->|[->|[->|[->|[->|[->|[->|[->| ->]]]]]]]]]] by lia;
      rewrite daysInMonth_eq; unfold Date.monthStart; simpl; lia.
Qed.

Lemma MakeDay_month_before y :
  Date.MakeDay y 0 0 = Date.MakeDay (y - 1) 11 31.
Proof.
  change 31 with (daysInMonth (y - 1) 11).
  rewrite <- (MakeDay_day_0 (y - 1) 11) by lia.
  unfold Date.MakeDay. change ((11 + 1) / 12) with 1. change (0 / 12) with 0.
  by replace (y - 1 + 1) with (y + 0) by lia.
Qed.

Lemma daysInMonth_range y m : 28 ≤ daysInMonth y m ≤ 31.
Proof.
  rewrite daysInMonth_eq. pose proof (InLeapYear_cases y).
  destruct (m =? 1); [lia|]. destruct (_ || _); lia.
Qed.

Lemma WeekDayFromDay_range d : 0 ≤ Date.WeekDayFromDay d ≤ 6.
Proof.
  unfold Date.WeekDayFromDay.
  pose proof (Z.mod_pos_bound (d + 4) 7 ltac:(lia)). lia.
Qed.

(** The day of the month is between 1 and 31, whatever the day. *)
Lemma DateFromDay_range d : 1 ≤ Date.DateFromDay d ≤ 31.
Proof.
  pose proof (YearFromDay_spec d) as Hspec.
  pose proof (InLeapYear_cases (Date.YearFromDay d)) as Hleap.
  rewrite DayFromYear_next, DaysInYear_InLeapYear in Hspec.
  unfold Date.DateFromDay, Date.MonthFromDay, Date.DayWithinYear.
  set (leap := Date.InLeapYear (Date.YearFromDay d)) in *.
  set (w := d - Date.DayFromYear (Date.YearFromDay d)).
  assert (0 ≤ w ≤ 364 + leap) as Hw by (unfold w; lia).
  clearbody w leap.
  repeat match goal with
    | |- context [if ?a <? ?b then _ else _] =>
        destruct (Z.ltb_spec a b)
    end; unfold Date.monthStart; simpl; lia.
Qed.

(** The weekday of [Date] is that of the calendar. *)
Lemma weekday_MakeDay y m d :
  0 ≤ m ≤ 11 →
  Date.WeekDayFromDay (Date.MakeDay y m d) = weekday y m d.
Proof.
  intros Hm. rewrite MakeDay_in_range by done.
  unfold Date.WeekDayFromDay, weekday.
  pose proof (DayFromYear_next (y - 1)) as Hprev.
  replace (y - 1 + 1) with y in Hprev by lia.
  assert (Date.DayFromYear y =
          365 * (y - 1970) + (y - 1) / 4 - (y - 1) / 100 + (y - 1) / 400
          - 477) as Hyear.
  { unfold Date.DayFromYear. Z.div_mod_to_equations. lia. }
  assert (y / 4 - y / 100 + y / 400 =
          (y - 1) / 4 - (y - 1) / 100 + (y - 1) / 400 + Date.InLeapYear y)
    as Hleap.
  { rewrite InLeapYear_leap_year. unfold leap_year.
    destruct (Z.eqb_spec (y mod 4) 0), (Z.eqb_spec (y mod 100) 0),
      (Z.eqb_spec (y mod 400) 0); simpl; Z.div_mod_to_equations; lia. }
  rewrite Hyear.
  set (q := (y - 1) / 4 - (y - 1) / 100 + (y - 1) / 400) in *.
  set (leap := Date.InLeapYear y) in *.
  each_month m Hm; unfold Date.monthStart; simpl;
    try (replace (y / 4 - y / 100 + y / 400) with (q + leap)
           by (rewrite <- Hleap; lia));
    rewrite ?Hleap; Z.div_mod_to_equations; lia.
Qed.

End DateFacts.

(** ** The [Date] of the host *)

Lemma make_eq tz year month date :
  Date.make tz year month date =
    Date.TimeClip
      (Date.UTC tz (Date.MakeDay (dateYear year) month date * Date.msPerDay)).
Proof. done. Qed.

(** On a day the host keeps, the getters answer for that day. *)
Lemma getters_civil tz year month date :
  let day := Date.MakeDay (dateYear year) month date in
  civil tz day →
  let d := Date.make tz year month date in
  Date.getFullYear tz d = Some (Date.YearFromDay day) ∧
  Date.getMonth tz d = Some (Date.MonthFromDay day) ∧
  Date.getDate tz d = Some (Date.DateFromDay day) ∧
  Date.getDay tz d = Some (Date.WeekDayFromDay day).
Proof.
  intros day Hcivil d. unfold d. rewrite make_eq. fold day.
  unfold civil in Hcivil.
  destruct (Date.TimeClip _) as [t|]; [|done].
  unfold Date.getFullYear, Date.getMonth, Date.getDate, Date.getDay.
  cbn [fmap option_fmap option_map]. by rewrite Hcivil.
Qed.

Lemma getDay_range tz d s : Date.getDay tz d = Some s → 0 ≤ s ≤ 6.
Proof.
  destruct d as [t|]; [|done]. intros [= <-].
  apply DateFacts.WeekDayFromDay_range.
Qed.

Lemma getDate_range tz d n : Date.getDate tz d = Some n → 1 ≤ n ≤ 31.
Proof.
  destruct d as [t|]; [|done]. intros [= <-].
  apply DateFacts.DateFromDay_range.
Qed.

(** [new Date(year, month, 1).getDay()] is the weekday of the 1st. *)
Lemma startDayOfWeek_civil tz year month :
  0 ≤ month ≤ 11 →
  civil tz (Date.MakeDay (dateYear year) month 1) →
  Calendar.startDayOfWeek tz year month
    = Some (weekday (dateYear year) month 1).
Proof.
  intros Hm Hcivil. unfold Calendar.startDayOfWeek, Calendar.firstDay.
  destruct (getters_civil tz year month 1 Hcivil) as (_ & _ & _ & ->).
  by rewrite DateFacts.weekday_MakeDay.
Qed.

(** [new Date(year, month + 1, 0).getDate()] is the length of the month. *)
Lemma lastDay_getDate tz year month :
  0 ≤ month ≤ 11 →
  civil tz (Date.MakeDay (dateYear year) (month + 1) 0) →
  Date.getDate tz (Calendar.lastDay tz year month)
    = Some (daysInMonth (dateYear year) month).
Proof.
  intros Hm Hcivil. unfold Calendar.lastDay.
  destruct (getters_civil tz year (month + 1) 0 Hcivil) as (_ & _ & -> & _).
  rewrite DateFacts.MakeDay_day_0 by done. f_equal.
  apply DateFacts.MakeDay_read; [done|].
  pose proof (DateFacts.daysInMonth_range (dateYear year) month). lia.
Qed.

(** [new Date(year, month, 0).getDate()] is the length of the month
    before. *)
Lemma prevMonthLastDay_civil tz year month :
  0 ≤ month ≤ 11 →
  civil tz (Date.MakeDay (dateYear year) month 0) →
  Calendar.prevMonthLastDay tz year month
    = Some (daysInMonthBefore (dateYear year) month).
Proof.
  intros Hm Hcivil. unfold Calendar.prevMonthLastDay.
  destruct (getters_civil tz year month 0 Hcivil) as (_ & _ & -> & _).
  f_equal. unfold daysInMonthBefore.
  destruct (Z.eqb_spec month 0) as [->|Hne].
  - rewrite DateFacts.MakeDay_month_before.
    by apply DateFacts.MakeDay_read.
  - replace month with (month - 1 + 1) at 1 by lia.
    rewrite DateFacts.MakeDay_day_0 by lia.
    apply DateFacts.MakeDay_read; [lia|].
    pose proof (DateFacts.daysInMonth_range (dateYear year) (month - 1)). lia.
Qed.

Lemma daysInMonthBefore_range y m : 28 ≤ daysInMonthBefore y m ≤ 31.
Proof.
  unfold daysInMonthBefore.
  destruct (m =? 0); [lia|apply DateFacts.daysInMonth_range].
Qed.

(** ** The month grid *)

Section grid.
Variable tz : Date.TimeZone.
Variable ls : LocalStorage.
Variables year month : Z.
Variable selectedDate : option string.
Variable todayString : string.

(** The number of cells before the 1st and the number of cells of the
    month: none when [Date] answers NaN. *)
Let s := default 0 (Calendar.startDayOfWeek tz year month).
Let N := default 0 (Date.getDate tz (Calendar.lastDay tz year month)).
Let P := Calendar.prevMonthLastDay tz year month.
Let cell := Calendar.cell tz ls year month selectedDate todayString.

Let inv := after_cells year month s N P.

Lemma grid_s_range : 0 ≤ s ≤ 6.
Proof.
  unfold s. destruct (Calendar.startDayOfWeek tz year month) as [s'|] eqn:Hs;
    [|simpl; lia].
  by apply getDay_range in Hs.
Qed.

Lemma grid_N_range : 0 ≤ N ≤ 31.
Proof.
  unfold N.
  destruct (Date.getDate tz (Calendar.lastDay tz year month)) as [n|] eqn:Hn;
    [|simpl; lia].
  apply getDate_range in Hn. simpl. lia.
Qed.

Lemma num_lt_s i :
  0 ≤ i → num_lt (Some i) (Calendar.startDayOfWeek tz year month) = (i <? s).
Proof.
  intros Hi. unfold s. destruct (Calendar.startDayOfWeek tz year month); simpl;
    [done|]. symmetry. by apply Z.ltb_ge.
Qed.

Lemma num_le_N c :
  1 ≤ c →
  num_le (Some c) (Date.getDate tz (Calendar.lastDay tz year month))
    = (c <=? N).
Proof.
  intros Hc. unfold N.
  destruct (Date.getDate tz (Calendar.lastDay tz year month)); simpl; [done|].
  symmetry. apply Z.leb_gt. lia.
Qed.

Lemma day_before i :
  0 ≤ i < s →
  num_add
    (num_add (num_sub P (Calendar.startDayOfWeek tz year month)) (Some i))
    (Some 1)
  = (fun P => P - s + i + 1) <$> P.
Proof.
  unfold s. destruct (Calendar.startDayOfWeek tz year month) as [s'|];
    simpl; [|lia]. intros _. by destruct P.
Qed.

Lemma after_no_cell : inv 0 (Calendar.mkLoop [] 1 1).
Proof.
  pose proof grid_s_range. pose proof grid_N_range.
  unfold inv, after_cells. simpl. repeat split; [lia..|].
  intros i c Hi. by destruct i.
Qed.

(** One turn of the inner loop. *)
Lemma after_one_more (n : nat) st week dayOfWeek :
  week * 7 + dayOfWeek = Z.of_nat n →
  inv n st →
  inv (S n) (cell st week dayOfWeek).
Proof.
  pose proof grid_s_range as Hs. pose proof grid_N_range as HN.
  intros Hn (Hday & Hnext & Hlen & Hcells).
  set (i := Z.of_nat n) in *.
  assert (∃ c : Calendar.Cell,
    Calendar.html (cell st week dayOfWeek) = Calendar.html st ++ [c] ∧
    Calendar.dayCount (cell st week dayOfWeek)
      = 1 + Z.max 0 (Z.min (i + 1 - s) N) ∧
    Calendar.nextMonthDay (cell st week dayOfWeek)
      = 1 + Z.max 0 (i + 1 - s - N) ∧
    cell_summary c = expected_cell year month s N P i)
    as (c & Hhtml & Hday' & Hnext' & Hc).
  { unfold cell, Calendar.cell. rewrite Hn. fold i.
    rewrite num_lt_s by lia. rewrite num_le_N by (rewrite Hday; lia).
    rewrite Hday, Hnext. unfold expected_cell.
    destruct (Z.ltb_spec i s) as [Hlt|Hge].
    - rewrite day_before by lia. fold P.
      eexists. split; [reflexivity|].
      cbn -[Z.add Z.sub Z.max Z.min ymd ymd_num].
      split; [lia|]. split; [lia|]. unfold cell_summary.
      cbn -[Z.add Z.sub Z.max Z.min ymd ymd_num]. f_equal. f_equal.
      destruct (month =? 0) eqn:Hm; [done|].
      by replace (month - 1 + 1) with month by lia.
    - destruct (Z.leb_spec (1 + Z.max 0 (Z.min (i - s) N)) N) as [Hin|Hout].
      + rewrite (proj2 (Z.ltb_lt i (s + N))) by lia.
        eexists. split; [reflexivity|].
        cbn -[Z.add Z.sub Z.max Z.min ymd ymd_num].
        split; [lia|]. split; [lia|]. unfold cell_summary.
        cbn -[Z.add Z.sub Z.max Z.min ymd ymd_num].
        by replace (1 + Z.max 0 (Z.min (i - s) N)) with (i - s + 1) by lia.
      + rewrite (proj2 (Z.ltb_ge i (s + N))) by lia.
        eexists. split; [reflexivity|].
        cbn -[Z.add Z.sub Z.max Z.min ymd ymd_num].
        split; [lia|]. split; [lia|]. unfold cell_summary.
        cbn -[Z.add Z.sub Z.max Z.min ymd ymd_num].
        replace (1 + Z.max 0 (i - s - N)) with (i - s - N + 1) by lia.
        f_equal. f_equal.
        destruct (month =? 11) eqn:Hm; [done|]. f_equal. lia. }
  unfold inv, after_cells. rewrite Hhtml, Hday', Hnext'.
  split; [f_equal; f_equal; f_equal; lia|].
  split; [f_equal; f_equal; lia|]. split.
  - rewrite length_app, Hlen. simpl. lia.
  - intros j c' Hj. apply lookup_app_Some in Hj as [Hj|[Hge Hj]].
    + by apply Hcells.
    + rewrite Hlen in Hge, Hj.
      apply list_lookup_singleton_Some in Hj as [Hz <-].
      by replace (Z.of_nat j) with i by lia.
Qed.

(** The six weeks of seven days. *)
Lemma after_all_cells :
  ∃ st,
    Calendar.renderDays tz ls year month selectedDate todayString
      = Calendar.html st ∧
    inv 42 st.
Proof.
  eexists. split; [reflexivity|]. cbn [foldl]. fold cell.
  do 42 (apply after_one_more; [reflexivity|]).
  apply after_no_cell.
Qed.

(** The cells of the grid, whatever [Date] answers. *)
Lemma grid_cells (i : nat) (c : Calendar.Cell) :
  Calendar.renderDays tz ls year month selectedDate todayString !! i = Some c →
  (i < 42)%nat ∧ cell_summary c = expected_cell year month s N P (Z.of_nat i).
Proof.
  destruct after_all_cells as (st & -> & _ & _ & Hlen & Hcells).
  intros Hc. split; [|by apply Hcells].
  apply lookup_lt_Some in Hc. by rewrite Hlen in Hc.
Qed.

Lemma grid_length :
  length (Calendar.renderDays tz ls year month selectedDate todayString)
    = 42%nat.
Proof. by destruct after_all_cells as (st & -> & _ & _ & Hlen & _). Qed.
End grid.

(** C6.  For a month from 0 to 11 whose days the host keeps (the 1st, the
    last day and the day before the 1st), [renderDays] lays out 42 cells.
    With [Y] the year [Date] takes [year] for, [s] the weekday of the 1st of
    the month of [Y] (0 = Sunday), [N] the length of that month and [P]
    the length of the month before, all three by the Gregorian rule, which
    is what [Date] answers: the cells before index [s] count up to [P], the
    last day of the month before; the [N] cells from index [s] on are the
    days 1 to [N] of the month; the cells after them count from 1 in the
    month after.  The date string has the year before for the cells before
    January and the year after for the cells after December.  Since [s] is
    at most 6 and [N] at most 31, the whole month is on the grid. *)
Theorem month_grid (tz : Date.TimeZone) (ls : LocalStorage) (year month : Z)
    (selectedDate : option string) (todayString : string) :
  0 ≤ month ≤ 11 →
  civil_month tz (dateYear year) month →
  let grid := Calendar.renderDays tz ls year month selectedDate todayString in
  let s := weekday (dateYear year) month 1 in
  let N := daysInMonth (dateYear year) month in
  let P := daysInMonthBefore (dateYear year) month in
  Calendar.startDayOfWeek tz year month = Some s ∧
  Date.getDate tz (Calendar.lastDay tz year month) = Some N ∧
  Calendar.prevMonthLastDay tz year month = Some P ∧
  length grid = 42%nat ∧
  0 ≤ s ≤ 6 ∧ 28 ≤ N ≤ 31 ∧ 28 ≤ P ≤ 31 ∧
  ∀ (i : nat) (c : Calendar.Cell),
    grid !! i = Some c →
    (Z.of_nat i < s →
     Calendar.day c = Some (P - (s - 1 - Z.of_nat i)) ∧
     Calendar.isOtherMonth c = true ∧
     Calendar.dateString c =
       if month =? 0 then ymd (year - 1) 12 (P - (s - 1 - Z.of_nat i))
       else ymd year month (P - (s - 1 - Z.of_nat i))) ∧
    (s ≤ Z.of_nat i < s + N →
     Calendar.day c = Some (Z.of_nat i - s + 1) ∧
     Calendar.isOtherMonth c = false ∧
     Calendar.dateString c = ymd year (month + 1) (Z.of_nat i - s + 1)) ∧
    (s + N ≤ Z.of_nat i →
     Calendar.day c = Some (Z.of_nat i - (s + N) + 1) ∧
     Calendar.isOtherMonth c = true ∧
     Calendar.dateString c =
       if month =? 11 then ymd (year + 1) 1 (Z.of_nat i - (s + N) + 1)
       else ymd year (month + 2) (Z.of_nat i - (s + N) + 1)).
Proof.
  intros Hmonth (Hfirst & Hlast & Hbefore) grid s N P.
  pose proof (startDayOfWeek_civil tz year month Hmonth Hfirst) as Hs.
  pose proof (lastDay_getDate tz year month Hmonth Hlast) as HN.
  pose proof (prevMonthLastDay_civil tz year month Hmonth Hbefore) as HP.
  fold s in Hs. fold N in HN. fold P in HP.
  assert (0 ≤ s ≤ 6) as Hs_range by (by apply (getDay_range _ _ _ Hs)).
  assert (28 ≤ N ≤ 31) as HN_range by apply DateFacts.daysInMonth_range.
  assert (28 ≤ P ≤ 31) as HP_range by apply daysInMonthBefore_range.
  do 3 (split; [done|]).
  split; [apply grid_length|]. do 3 (split; [done|]).
  intros i c Hc.
  destruct (grid_cells tz ls year month selectedDate todayString i c Hc)
    as [_ Hsum].
  rewrite Hs, HN, HP in Hsum. cbn [from_option id] in Hsum.
  unfold cell_summary, expected_cell in Hsum.
  destruct (Z.ltb_spec (Z.of_nat i) s) as [Hlt|Hge].
  - cbn [fmap option_fmap option_map] in Hsum.
    injection Hsum as Hday Hdate Hother.
    replace (P - (s - 1 - Z.of_nat i)) with (P - s + Z.of_nat i + 1) by lia.
    repeat split; (lia || done).
  - destruct (Z.ltb_spec (Z.of_nat i) (s + N)) as [Hin|Hout];
      injection Hsum as Hday Hdate Hother.
    + repeat split; (lia || done).
    + replace (Z.of_nat i - (s + N) + 1) with (Z.of_nat i - s - N + 1) by lia.
      repeat split; (lia || done).
Qed.

Lemma month_grid_witness :
  let grid :=
    Calendar.renderDays Date.utc (roomy Sample.items) 2024 1 None
      "2024-02-29" in
  Calendar.startDayOfWeek Date.utc 2024 1 = Some 4 ∧
  Date.getDate Date.utc (Calendar.lastDay Date.utc 2024 1) = Some 29 ∧
  Calendar.prevMonthLastDay Date.utc 2024 1 = Some 31 ∧
  length grid = 42%nat.
Proof.
  pose proof (month_grid Date.utc (roomy Sample.items) 2024 1 None
                "2024-02-29" ltac:(lia) ltac:(by vm_compute)) as H.
  cbv zeta in H. destruct H as (Hs & HN & HP & Hlen & _).
  cbv zeta. split; [exact Hs|]. split; [exact HN|]. split; [exact HP|].
  exact Hlen.
Defined.

(** Without the proviso on the host the layout is another.  The 1st of
    September 275760 is within the range of [Date], the 30th is not: the
    month has no cell on its grid.  In the time zone of Kiritimati,
    whose calendar has no 31 December 1994, the grid of that December
    shows the 1st and then January.  For the year 50, which [Date] takes
    for 1950, the 1st of January is put on a Sunday, the weekday it has
    in 1950, not the one it has in the year 50. *)
Lemma month_grid_of_an_unkept_month :
  (let grid :=
     cell_summary <$>
       Calendar.renderDays Date.utc (roomy Sample.items) 275760 8 None
         "2024-02-29" in
   Calendar.startDayOfWeek Date.utc 275760 8 = Some 1 ∧
   take 3 grid =
     [(Some 31, "275760-08-31", true); (Some 1, "275760-10-01", true);
      (Some 2, "275760-10-02", true)]) ∧
  (let grid :=
     cell_summary <$>
       Calendar.renderDays Sample.kiritimati (roomy Sample.items) 1994 11
         None "2024-02-29" in
   Calendar.startDayOfWeek Sample.kiritimati 1994 11 = Some 4 ∧
   take 3 (drop 4 grid) =
     [(Some 1, "1994-12-01", false); (Some 1, "1995-01-01", true);
      (Some 2, "1995-01-02", true)] ∧
   drop 41 grid = [(Some 37, "1995-01-37", true)]) ∧
  (weekday 50 0 1 = 6 ∧
   cell_summary <$>
     take 1 (Calendar.renderDays Date.utc (roomy Sample.items) 50 0 None
               "2024-02-29")
   = [(Some 1, "50-01-01", false)]).
Proof. by vm_compute. Qed.

(** The scenario of the design document: in February 2024, whose 1st is a
    Thursday, the first four cells are the end of January, the next 29 are
    February and the rest is March. *)
Example grid_february_2024 :
  let grid :=
    cell_summary <$>
      Calendar.renderDays Date.utc (roomy Sample.items) 2024 1 None
        "2024-02-29" in
  take 5 grid =
    [(Some 28, "2024-01-28", true); (Some 29, "2024-01-29", true);
     (Some 30, "2024-01-30", true); (Some 31, "2024-01-31", true);
     (Some 1, "2024-02-01", false)] ∧
  take 2 (drop 32 grid)
    = [(Some 29, "2024-02-29", false); (Some 1, "2024-03-01", true)] ∧
  drop 41 grid = [(Some 9, "2024-03-09", true)].
Proof. by vm_compute. Qed.

(** The year is carried at both ends: the grid of December 2024 ends in
    January 2025, the grid of January 2025 starts in December 2024. *)
Example grid_year_boundaries :
  (cell_summary <$> drop 41
     (Calendar.renderDays Date.utc (roomy Sample.items) 2024 11 None
        "2024-02-29"))
    = [(Some 11, "2025-01-11", true)] ∧
  (cell_summary <$> take 1
     (Calendar.renderDays Date.utc (roomy Sample.items) 2025 0 None
        "2024-02-29"))
    = [(Some 29, "2024-12-29", true)].
Proof. by vm_compute. Qed.

(** The grid does not depend on the time zone where the zone keeps the
    days asked: in Kiritimati the grid of February 1995 starts with the
    end of January and has the 1st, a Wednesday, in its fourth cell. *)
Example grid_february_1995 :
  civil_month Sample.kiritimati 1995 1 ∧
  cell_summary <$> take 2 (drop 2
    (Calendar.renderDays Sample.kiritimati (roomy Sample.items) 1995 1 None
       "2024-02-29"))
  = [(Some 31, "1995-01-31", true); (Some 1, "1995-02-01", false)].
Proof. by vm_compute. Qed.

(** * Further properties of the same code *)

(** ** Single writes *)

Lemma set_outcome ls k v :
  (room_for ls k v ∧ (Storage.set ls k v).2 = true) ∨
  (¬ room_for ls k v ∧ Storage.set ls k v = (ls, false)).
Proof.
  destruct (decide (room_for ls k v)) as [Hroom|Hroom]; [by left|right].
  split; [done|]. by apply set_rejected.
Qed.

Lemma set_true_or_untouched ls k v :
  (Storage.set ls k v).2 = true ∨ Storage.set ls k v = (ls, false).
Proof. destruct (set_outcome ls k v) as [[_ ?]|[_ ?]]; auto. Qed.

(** X1.  A write of the repository that reports failure has left the
    medium exactly as it was: each of [saveEntry], [deleteEntry],
    [saveTags], [addTag], [updateTag] and [deleteTag] either returns true
    or returns false with the medium it was given. *)
Theorem write_true_or_untouched (ls : LocalStorage) (entry : Entry.t)
    (date tagId : string) (tags : list Tag.t) (tag : Tag.t)
    (updates : TagUpdates.t) :
  ((Storage.saveEntry ls entry).2 = true ∨
   Storage.saveEntry ls entry = (ls, false)) ∧
  ((Storage.deleteEntry ls date).2 = true ∨
   Storage.deleteEntry ls date = (ls, false)) ∧
  ((Storage.saveTags ls tags).2 = true ∨
   Storage.saveTags ls tags = (ls, false)) ∧
  ((Storage.addTag ls tag).2 = true ∨ Storage.addTag ls tag = (ls, false)) ∧
  ((Storage.updateTag ls tagId updates).2 = true ∨
   Storage.updateTag ls tagId updates = (ls, false)) ∧
  ((Storage.deleteTag ls tagId).2 = true ∨
   Storage.deleteTag ls tagId = (ls, false)).
Proof.
  repeat split.
  - apply set_true_or_untouched.
  - unfold Storage.deleteEntry. destruct (truthy_at _ _); [|by right].
    apply set_true_or_untouched.
  - apply set_true_or_untouched.
  - apply set_true_or_untouched.
  - unfold Storage.updateTag. destruct (Storage.findIndex _ _); [|by right].
    apply set_true_or_untouched.
  - apply set_true_or_untouched.
Qed.

(** ** Entries: save, fetch, delete *)

Lemma assign_insert {V : Type} (o : gmap string V) (name : string) (v : V) :
  name ≠ "__proto__" → assign o name v = <[name := v]> o.
Proof.
  intros Hname. unfold assign. by rewrite bool_decide_eq_false_2.
Qed.

Lemma assign_cases {V : Type} (o : gmap string V) (name : string) (v : V) :
  assign o name v = <[name := v]> o ∨ assign o name v = o.
Proof. unfold assign. destruct (_ && _); auto. Qed.

Lemma saveEntry_eq ls entry :
  Entry.date entry ≠ "__proto__" →
  Storage.saveEntry ls entry =
  Storage.set ls ENTRIES (<[Entry.date entry := entry]> (Storage.getAllEntries ls)).
Proof. intros Hdate. unfold Storage.saveEntry. by rewrite assign_insert. Qed.

(** X2.  When the medium takes the write, the entry saved by [saveEntry] is
    the one [getEntry] returns for its date; the entry of every other date
    and the tags are as before.  The date is not ["__proto__"], which an
    assignment does not store. *)
Theorem saveEntry_then_getEntry (ls : LocalStorage) (entry : Entry.t) :
  Entry.date entry ≠ "__proto__" →
  room_for ls ENTRIES
    (<[Entry.date entry := entry]> (Storage.getAllEntries ls)) →
  let ls' := (Storage.saveEntry ls entry).1 in
  (Storage.saveEntry ls entry).2 = true ∧
  Storage.getEntry ls' (Entry.date entry) = Some entry ∧
  (∀ date, date ≠ Entry.date entry →
     Storage.getEntry ls' date = Storage.getEntry ls date) ∧
  Storage.getAllTags ls' = Storage.getAllTags ls.
Proof.
  intros Hproto Hroom ls'. unfold ls'. rewrite saveEntry_eq by done.
  change (Storage.set ls ENTRIES ?v).1 with (after_set ls ENTRIES v).
  split; [done|]. unfold Storage.getEntry.
  rewrite entries_after_set_entries by done.
  split; [by rewrite lookup_insert_eq|]. split.
  - intros date Hdate. by rewrite lookup_insert_ne.
  - apply tags_after_set_entries.
Qed.

Lemma saveEntry_then_getEntry_witness :
  let ls' := (Storage.saveEntry (roomy Sample.items) Sample.jan05').1 in
  Storage.getEntry ls' "2024-01-05" = Some Sample.jan05' ∧
  Storage.getEntry ls' "2024-01-20" = Some Sample.jan20.
Proof.
  destruct (saveEntry_then_getEntry (roomy Sample.items) Sample.jan05'
              ltac:(discriminate) eq_refl)
    as (_ & Hsame & Hother & _).
  split; [exact Hsame|].
  etrans; [apply (Hother "2024-01-20"); discriminate|reflexivity].
Defined.

(** An entry dated ["__proto__"] is not stored: the assignment sets the
    prototype of the object, the write is made and reports success, and
    the entries are as before. *)
Example saveEntry_proto :
  let entry := Entry.mk "entry_3" "__proto__" "Title" "" (Some []) [] 1 1 in
  let ls := roomy Sample.items in
  (Storage.saveEntry ls entry).2 = true ∧
  Storage.getEntry (Storage.saveEntry ls entry).1 "__proto__" = None ∧
  Storage.getAllEntries (Storage.saveEntry ls entry).1
    = Storage.getAllEntries ls.
Proof. by vm_compute. Qed.

Lemma entries_after_set_entries_cases ls v :
  Storage.getAllEntries (after_set ls ENTRIES v) = v ∨
  after_set ls ENTRIES v = ls.
Proof.
  destruct (decide (room_for ls ENTRIES v)).
  - left. by apply entries_after_set_entries.
  - right. by apply after_set_rejected.
Qed.

Lemma keyed_by_date_insert entries entry :
  keyed_by_date entries →
  keyed_by_date (<[Entry.date entry := entry]> entries).
Proof. intros Hkeyed. by apply map_Forall_insert_2. Qed.

Lemma keyed_by_date_delete entries date :
  keyed_by_date entries → keyed_by_date (delete date entries).
Proof. intros Hkeyed. by apply map_Forall_delete. Qed.

(** X3.  [saveEntry] and [deleteEntry] keep the entries collection keyed by
    date: if every stored entry is under its own date before the call, so
    it is after, whether the write was taken or not. *)
Theorem entries_stay_keyed_by_date (ls : LocalStorage) (entry : Entry.t)
    (date : string) :
  keyed_by_date (Storage.getAllEntries ls) →
  keyed_by_date (Storage.getAllEntries (Storage.saveEntry ls entry).1) ∧
  keyed_by_date (Storage.getAllEntries (Storage.deleteEntry ls date).1).
Proof.
  intros Hkeyed. split.
  - unfold Storage.saveEntry.
    change (Storage.set ls ENTRIES ?v).1 with (after_set ls ENTRIES v).
    destruct (entries_after_set_entries_cases ls
                (assign (Storage.getAllEntries ls) (Entry.date entry) entry))
      as [-> | ->]; [|done].
    destruct (assign_cases (Storage.getAllEntries ls) (Entry.date entry) entry)
      as [-> | ->]; [by apply keyed_by_date_insert|done].
  - unfold Storage.deleteEntry. destruct (truthy_at _ _); [|done].
    change (Storage.set ls ENTRIES ?v).1 with (after_set ls ENTRIES v).
    destruct (entries_after_set_entries_cases ls
                (delete date (Storage.getAllEntries ls)))
      as [-> | ->]; [by apply keyed_by_date_delete|done].
Qed.

Lemma entries_stay_keyed_by_date_witness :
  keyed_by_date
    (Storage.getAllEntries
       (Storage.saveEntry (roomy Sample.items) Sample.jan05').1) ∧
  keyed_by_date
    (Storage.getAllEntries
       (Storage.deleteEntry (roomy Sample.items) "2024-01-20").1).
Proof.
  apply (entries_stay_keyed_by_date (roomy Sample.items)).
  apply (bool_decide_unpack _). by vm_compute.
Defined.

(** X4.  [deleteEntry] on a date that has an entry, when the medium takes
    the write: it returns true, the date has no entry afterwards and the
    other dates keep theirs.  A second [deleteEntry] of the date returns
    false and changes nothing, unless the date is one of the names an
    object inherits: then the second call writes the entries again. *)
Theorem deleteEntry_existing (ls : LocalStorage) (date : string) :
  is_Some (Storage.getEntry ls date) →
  room_for ls ENTRIES (delete date (Storage.getAllEntries ls)) →
  let ls' := (Storage.deleteEntry ls date).1 in
  (Storage.deleteEntry ls date).2 = true ∧
  Storage.getEntry ls' date = None ∧
  (∀ other, other ≠ date →
     Storage.getEntry ls' other = Storage.getEntry ls other) ∧
  (inherited date = false → Storage.deleteEntry ls' date = (ls', false)) ∧
  (inherited date = true →
   Storage.deleteEntry ls' date =
     Storage.set ls' ENTRIES (Storage.getAllEntries ls')).
Proof.
  intros Hsome Hroom ls'.
  assert (Storage.deleteEntry ls date =
          Storage.set ls ENTRIES (delete date (Storage.getAllEntries ls)))
    as Heq.
  { by apply deleteEntry_truthy, truthy_at_own. }
  assert (Storage.getAllEntries ls'
          = delete date (Storage.getAllEntries ls)) as Hentries.
  { unfold ls'. rewrite Heq. by apply entries_after_set_entries. }
  assert (Storage.getEntry ls' date = None) as Hgone.
  { unfold Storage.getEntry. by rewrite Hentries, lookup_delete_eq. }
  split; [by rewrite Heq|]. split; [done|]. split; [|split].
  - intros other Hother. unfold Storage.getEntry.
    by rewrite Hentries, lookup_delete_ne.
  - intros Hname. by apply deleteEntry_missing.
  - intros Hname. rewrite deleteEntry_truthy by by apply truthy_at_inherited.
    by rewrite (delete_id (Storage.getAllEntries ls') date).
Qed.

Lemma deleteEntry_existing_witness :
  let ls' := (Storage.deleteEntry (roomy Sample.items) "2024-01-20").1 in
  Storage.getEntry ls' "2024-01-20" = None ∧
  Storage.deleteEntry ls' "2024-01-20" = (ls', false).
Proof.
  destruct (deleteEntry_existing (roomy Sample.items) "2024-01-20"
              (ex_intro _ Sample.jan20 eq_refl) eq_refl)
    as (_ & Hgone & _ & Hagain & _).
  exact (conj Hgone (Hagain eq_refl)).
Defined.

Lemma getDatesWithEntries_elem ls date :
  date ∈ Storage.getDatesWithEntries ls ↔ is_Some (Storage.getEntry ls date).
Proof.
  unfold Storage.getDatesWithEntries, Storage.getEntry.
  rewrite list_elem_of_fmap. split.
  - intros ([d e] & -> & Hin). exists e. by apply elem_of_map_to_list.
  - intros [e He]. exists (date, e). split; [done|].
    by apply elem_of_map_to_list.
Qed.

(** X5.  [getDatesWithEntries] lists each date that has an entry, once, and
    no other date. *)
Theorem getDatesWithEntries_spec (ls : LocalStorage) :
  NoDup (Storage.getDatesWithEntries ls) ∧
  ∀ date,
    date ∈ Storage.getDatesWithEntries ls ↔
    is_Some (Storage.getEntry ls date).
Proof.
  split; [apply NoDup_fst_map_to_list|apply getDatesWithEntries_elem].
Qed.

(** ** Tags: add, update, create *)

Lemma find_by_id_fresh (l1 l2 : list Tag.t) (tagId : string) :
  tagId ∉ Tag.id <$> l1 →
  List.find (fun t' => bool_decide (Tag.id t' = tagId)) (l1 ++ l2) =
  List.find (fun t' => bool_decide (Tag.id t' = tagId)) l2.
Proof.
  induction l1 as [|x l1 IH]; [done|].
  rewrite fmap_cons, not_elem_of_cons. intros [Hne Hnotin]. simpl.
  rewrite bool_decide_eq_false_2 by done. by apply IH.
Qed.

Lemma find_by_id_known (l1 l2 : list Tag.t) (tagId : string) :
  tagId ∈ Tag.id <$> l1 →
  List.find (fun t' => bool_decide (Tag.id t' = tagId)) (l1 ++ l2) =
  List.find (fun t' => bool_decide (Tag.id t' = tagId)) l1.
Proof.
  intros (t & -> & Ht)%list_elem_of_fmap. by apply find_by_id_app.
Qed.

(** X6.  [addTag] does not look at the ids already stored.  When the medium
    takes the write, the tag is added at the end of the list; [getById]
    returns it for its id if no stored tag had that id, and goes on
    returning the stored tag for every id that was already there, the id of
    the new tag included. *)
Theorem addTag_appends (ls : LocalStorage) (tag : Tag.t) :
  room_for ls TAGS (Storage.getAllTags ls ++ [tag]) →
  let ls' := (Storage.addTag ls tag).1 in
  (Storage.addTag ls tag).2 = true ∧
  Storage.getAllTags ls' = Storage.getAllTags ls ++ [tag] ∧
  (Tag.id tag ∉ Tag.id <$> Storage.getAllTags ls →
   Tags.getById ls' (Tag.id tag) = Some tag) ∧
  (∀ tagId, tagId ∈ Tag.id <$> Storage.getAllTags ls →
     Tags.getById ls' tagId = Tags.getById ls tagId) ∧
  Storage.getAllEntries ls' = Storage.getAllEntries ls.
Proof.
  intros Hroom ls'.
  assert (Storage.getAllTags ls' = Storage.getAllTags ls ++ [tag]) as Htags.
  { by apply tags_after_set_tags. }
  split; [done|]. split; [done|].
  unfold Tags.getById, Tags.getAll. rewrite Htags. split; [|split].
  - intros Hfresh. rewrite find_by_id_fresh by done. simpl.
    by rewrite bool_decide_eq_true_2.
  - intros tagId Hknown. by apply find_by_id_known.
  - apply entries_after_set_tags.
Qed.

Lemma addTag_appends_witness :
  let ls' := (Storage.addTag (roomy Sample.items) Sample.travail).1 in
  Storage.getAllTags ls' = [Sample.work; Sample.travail] ∧
  Tags.getById ls' "T1" = Some Sample.work.
Proof.
  destruct (addTag_appends (roomy Sample.items) Sample.travail eq_refl)
    as (_ & Htags & _ & Hknown & _).
  split; [exact Htags|].
  rewrite (Hknown "T1"); [reflexivity|]. apply list_elem_of_here.
Defined.

Lemma findIndex_None tags tagId :
  Storage.findIndex tags tagId = None ↔ tagId ∉ Tag.id <$> tags.
Proof.
  unfold Storage.findIndex. rewrite fmap_None, list_find_None, Forall_forall.
  split.
  - intros Hall (t & -> & Ht)%list_elem_of_fmap. by apply (Hall t).
  - intros Hnotin t Ht Hid. apply Hnotin. rewrite <- Hid.
    by apply list_elem_of_fmap_2.
Qed.

Lemma findIndex_Some tags tagId i :
  Storage.findIndex tags tagId = Some i ↔
  ∃ t, tags !! i = Some t ∧ Tag.id t = tagId ∧
       ∀ j t', tags !! j = Some t' → (j < i)%nat → Tag.id t' ≠ tagId.
Proof.
  unfold Storage.findIndex. rewrite fmap_Some. split.
  - intros ([i' t] & Hfind & ->). apply list_find_Some in Hfind. by exists t.
  - intros (t & ? & ? & ?). exists (i, t). split; [|done].
    by apply list_find_Some.
Qed.

(** X7.  [updateTag] on an id that no stored tag has returns false and
    writes nothing, where [deleteTag] would save the list again. *)
Theorem updateTag_missing (ls : LocalStorage) (tagId : string)
    (updates : TagUpdates.t) :
  tagId ∉ Tag.id <$> Storage.getAllTags ls →
  Storage.updateTag ls tagId updates = (ls, false).
Proof.
  intros Hmissing%findIndex_None. unfold Storage.updateTag.
  by rewrite Hmissing.
Qed.

Lemma updateTag_missing_witness :
  Storage.updateTag (roomy Sample.items) "T2"
    (TagUpdates.mk None (Some "Lire") None)
  = (roomy Sample.items, false).
Proof.
  apply updateTag_missing.
  apply not_elem_of_cons. split; [done|apply not_elem_of_nil].
Defined.

(** X8.  [updateTag] changes the first stored tag that has the id, and only
    that one: when the medium takes the write, the tag at that position is
    the old one overridden by the properties given, every other position
    (also a later tag with the same id) and the entries are as before. *)
Theorem updateTag_first_match (ls : LocalStorage) (tagId : string)
    (updates : TagUpdates.t) (i : nat) (t : Tag.t) :
  Storage.getAllTags ls !! i = Some t →
  Tag.id t = tagId →
  (∀ j t', Storage.getAllTags ls !! j = Some t' → (j < i)%nat →
           Tag.id t' ≠ tagId) →
  room_for ls TAGS
    (alter (fun t => TagUpdates.spread t updates) i (Storage.getAllTags ls)) →
  let ls' := (Storage.updateTag ls tagId updates).1 in
  (Storage.updateTag ls tagId updates).2 = true ∧
  Storage.getAllTags ls' !! i = Some (TagUpdates.spread t updates) ∧
  (∀ j, j ≠ i → Storage.getAllTags ls' !! j = Storage.getAllTags ls !! j) ∧
  length (Storage.getAllTags ls') = length (Storage.getAllTags ls) ∧
  Storage.getAllEntries ls' = Storage.getAllEntries ls.
Proof.
  intros Hi Hid Hfirst Hroom ls'.
  assert (Storage.findIndex (Storage.getAllTags ls) tagId = Some i) as Hfind.
  { apply findIndex_Some. by exists t. }
  assert (Storage.updateTag ls tagId updates =
          Storage.set ls TAGS
            (alter (fun t => TagUpdates.spread t updates) i
               (Storage.getAllTags ls))) as Heq.
  { unfold Storage.updateTag. by rewrite Hfind. }
  assert (Storage.getAllTags ls' =
          alter (fun t => TagUpdates.spread t updates) i
            (Storage.getAllTags ls)) as Htags.
  { unfold ls'. rewrite Heq. by apply tags_after_set_tags. }
  split; [by rewrite Heq|]. rewrite Htags.
  split; [by rewrite list_lookup_alter_eq, Hi|]. split; [|split].
  - intros j Hj. by rewrite list_lookup_alter_ne.
  - apply length_alter.
  - unfold ls'. rewrite Heq. apply entries_after_set_tags.
Qed.

Lemma updateTag_first_match_witness :
  let ls := roomy (mkItems None (Some (Stringified [Sample.work; Sample.travail]))) in
  let ls' :=
    (Storage.updateTag ls "T1" (TagUpdates.mk None (Some "Job") None)).1 in
  Storage.getAllTags ls' !! 0%nat = Some (Tag.mk "T1" "Job" "#4a90d9") ∧
  Storage.getAllTags ls' !! 1%nat = Some Sample.travail.
Proof.
  intros ls ls'.
  destruct (updateTag_first_match ls "T1"
              (TagUpdates.mk None (Some "Job") None) 0 Sample.work
              eq_refl eq_refl
              (fun j t' _ (Hlt : (j < 0)%nat) =>
                 False_ind _ (Nat.nlt_0_r j Hlt))
              eq_refl)
    as (_ & Hfirst & Hothers & _).
  split; [exact Hfirst|].
  etrans; [exact (Hothers 1%nat (Nat.neq_succ_0 0))|reflexivity].
Defined.

(** X9.  [Tags.create] returns the tag exactly when it was saved: when the
    medium takes the write the result is the tag with the name trimmed, now
    last in the list; otherwise the result is null and the medium is as it
    was. *)
Theorem create_saved_or_null (ls : LocalStorage) (id name color : string) :
  let tag := Tag.mk id (trim name) color in
  (room_for ls TAGS (Storage.getAllTags ls ++ [tag]) ∧
   (Tags.create ls id name color).2 = Some tag ∧
   Storage.getAllTags (Tags.create ls id name color).1
     = Storage.getAllTags ls ++ [tag]) ∨
  (¬ room_for ls TAGS (Storage.getAllTags ls ++ [tag]) ∧
   Tags.create ls id name color = (ls, None)).
Proof.
  intros tag. unfold Tags.create. fold tag.
  unfold Storage.addTag, Storage.saveTags.
  destruct (set_outcome ls TAGS (Storage.getAllTags ls ++ [tag]))
    as [[Hroom Htrue]|[Hroom Hfalse]].
  - left. split; [done|].
    rewrite (set_pair ls TAGS (Storage.getAllTags ls ++ [tag])), Htrue.
    split; [done|]. by apply tags_after_set_tags.
  - right. split; [done|]. by rewrite Hfalse.
Qed.

(** ** Export and import *)

Lemma filter_all {A} (P : A → Prop) `{∀ x, Decision (P x)} (l : list A) :
  (∀ x, x ∈ l → P x) → filter P l = l.
Proof.
  induction l as [|x l IH]; [done|]. intros Hall.
  rewrite filter_cons_True by apply Hall, list_elem_of_here.
  f_equal. apply IH. intros y Hy. by apply Hall, list_elem_of_further.
Qed.

Lemma filter_none {A} (P : A → Prop) `{∀ x, Decision (P x)} (l : list A) :
  (∀ x, x ∈ l → ¬ P x) → filter P l = [].
Proof.
  induction l as [|x l IH]; [done|]. intros Hnone.
  rewrite filter_cons_False by apply Hnone, list_elem_of_here.
  apply IH. intros y Hy. by apply Hnone, list_elem_of_further.
Qed.

Lemma import_invalid ls data mode :
  Snapshot.entries data = None ∨ Snapshot.tags data = None →
  Storage.importData ls data mode = (ls, false).
Proof.
  unfold Storage.importData, Storage.importData_body.
  cbn [Imported.of_snapshot Imported.entries Imported.tags].
  intros [-> | ->]; [done|]. by destruct (Snapshot.entries data).
Qed.

Lemma accepts_after_import ls (data : Snapshot.t) mode :
  accepts (Storage.importData ls data mode).1 = accepts ls.
Proof.
  destruct (Snapshot.entries data) as [de|] eqn:Hde; cycle 1.
  { by rewrite import_invalid by by left. }
  destruct (Snapshot.tags data) as [dt|] eqn:Hdt; cycle 1.
  { by rewrite import_invalid by by right. }
  destruct (decide (mode = "overwrite")) as [->|Hmode].
  - rewrite (importData_overwrite ls data de dt) by done. simpl.
    by rewrite !accepts_after_set.
  - rewrite (importData_merge ls data mode de dt) by done. simpl.
    by rewrite !accepts_after_set.
Qed.

(** What an import leaves in the two collections when no write is
    refused. *)
Lemma import_collections ls data mode de dt :
  Snapshot.entries data = Some de → Snapshot.tags data = Some dt →
  (∀ it, accepts ls it = true) →
  let ls' := (Storage.importData ls data mode).1 in
  Storage.getAllEntries ls' =
    (if bool_decide (mode = "overwrite") then de
     else Storage.mergedEntries (Storage.getAllEntries ls) de) ∧
  Storage.getAllTags ls' =
    (if bool_decide (mode = "overwrite") then dt
     else Storage.mergedTags (Storage.getAllTags ls) dt).
Proof.
  intros Hde Hdt Hroom ls'. unfold ls'.
  assert (∀ E T,
    Storage.getAllEntries (after_set (after_set ls ENTRIES E) TAGS T) = E ∧
    Storage.getAllTags (after_set (after_set ls ENTRIES E) TAGS T) = T)
    as Hboth.
  { intros E T. split.
    - rewrite entries_after_set_tags.
      by apply entries_after_set_entries, all_room.
    - apply tags_after_set_tags, all_room. intros it.
      by rewrite accepts_after_set. }
  case_bool_decide as Hmode.
  - subst mode. rewrite (importData_overwrite ls data de dt) by done.
    apply Hboth.
  - rewrite (importData_merge ls data mode de dt) by done. apply Hboth.
Qed.

Lemma mergedTags_nothing_new (current dt : list Tag.t) :
  (∀ t, t ∈ dt → Tag.id t ∈ Tag.id <$> current) →
  Storage.mergedTags current dt = current.
Proof.
  intros Hknown. rewrite mergedTags_eq.
  assert (filter (fun t => Tag.id t ∉ Tag.id <$> current) dt = []) as ->.
  { apply filter_none. intros t Ht Hnew. by apply Hnew, Hknown. }
  by rewrite app_nil_r.
Qed.

(** X10.  A snapshot made by [exportData] brings both collections back: on
    a medium that refuses no write, importing it in overwrite mode, or in
    any mode into a store whose collections are empty (as [clearAll] leaves
    them), gives the collections that were exported; and importing it in any
    mode into a store that still has those collections leaves them as they
    are. *)
Theorem export_then_import (src dst : LocalStorage) (now mode : string) :
  (∀ it, accepts dst it = true) →
  mode = "overwrite" ∨
  (Storage.getAllEntries dst = ∅ ∧ Storage.getAllTags dst = []) ∨
  (Storage.getAllEntries dst = Storage.getAllEntries src ∧
   Storage.getAllTags dst = Storage.getAllTags src) →
  let dst' := (Storage.importData dst (Storage.exportData src now) mode).1 in
  (Storage.importData dst (Storage.exportData src now) mode).2 = true ∧
  Storage.getAllEntries dst' = Storage.getAllEntries src ∧
  Storage.getAllTags dst' = Storage.getAllTags src.
Proof.
  intros Hroom Hcase dst'.
  destruct (import_collections dst (Storage.exportData src now) mode
              _ _ eq_refl eq_refl Hroom) as [Hentries Htags].
  fold dst' in Hentries, Htags. rewrite Hentries, Htags.
  split.
  { destruct (decide (mode = "overwrite")) as [->|Hmode'].
    - by rewrite (importData_overwrite dst (Storage.exportData src now)
                    (Storage.getAllEntries src) (Storage.getAllTags src)).
    - by rewrite (importData_merge dst (Storage.exportData src now) mode
                    (Storage.getAllEntries src) (Storage.getAllTags src)). }
  case_bool_decide as Hmode; [done|].
  destruct Hcase as [?|[[He Ht]|[He Ht]]]; [done|..]; rewrite He, Ht.
  - unfold Storage.mergedEntries, Storage.spread, Storage.mergedTags.
    rewrite (right_id_L ∅ (∪)). split; [done|]. simpl.
    apply filter_all. intros t _. apply not_elem_of_empty.
  - split.
    + apply map_eq. intros date. rewrite mergedEntries_lookup.
      by destruct (Storage.getAllEntries src !! date).
    + apply mergedTags_nothing_new. intros t Ht'.
      by apply list_elem_of_fmap_2.
Qed.

Lemma export_then_import_witness :
  let src := roomy Sample.items in
  let dst := Storage.clearAll (roomy Sample.items) in
  let dst' :=
    (Storage.importData dst
       (Storage.exportData src "2024-02-01T00:00:00.000Z") "merge").1 in
  Storage.getAllEntries dst' = Sample.two_entries ∧
  Storage.getAllTags dst' = [Sample.work].
Proof.
  intros src dst dst'.
  destruct (export_then_import src dst "2024-02-01T00:00:00.000Z" "merge"
              (fun _ => eq_refl) (or_intror (or_introl (conj eq_refl eq_refl))))
    as (_ & Hentries & Htags).
  exact (conj Hentries Htags).
Defined.

(** X11.  Importing the same snapshot a second time changes nothing more:
    on a medium that refuses no write, both collections are after two
    imports what they are after one, in either mode. *)
Theorem import_twice (ls : LocalStorage) (data : Snapshot.t) (mode : string) :
  (∀ it, accepts ls it = true) →
  let once := (Storage.importData ls data mode).1 in
  let twice := (Storage.importData once data mode).1 in
  Storage.getAllEntries twice = Storage.getAllEntries once ∧
  Storage.getAllTags twice = Storage.getAllTags once.
Proof.
  intros Hroom once twice.
  destruct (Snapshot.entries data) as [de|] eqn:Hde; cycle 1.
  { unfold twice. by rewrite import_invalid by by left. }
  destruct (Snapshot.tags data) as [dt|] eqn:Hdt; cycle 1.
  { unfold twice. by rewrite import_invalid by by right. }
  destruct (import_collections ls data mode de dt Hde Hdt Hroom)
    as [Hentries1 Htags1].
  assert (∀ it, accepts once it = true) as Hroom1.
  { intros it. unfold once. by rewrite accepts_after_import. }
  destruct (import_collections once data mode de dt Hde Hdt Hroom1)
    as [Hentries2 Htags2].
  fold once in Hentries1, Htags1. fold twice in Hentries2, Htags2.
  rewrite Hentries2, Htags2. case_bool_decide as Hmode.
  { by rewrite Hentries1, Htags1. }
  split.
  - rewrite Hentries1. apply map_eq. intros date.
    rewrite !mergedEntries_lookup. by destruct (de !! date).
  - apply mergedTags_nothing_new. intros t Ht. rewrite Htags1, mergedTags_eq.
    rewrite fmap_app, elem_of_app.
    destruct (decide (Tag.id t ∈ Tag.id <$> Storage.getAllTags ls))
      as [Hknown|Hnew]; [by left|right].
    apply list_elem_of_fmap_2. by apply list_elem_of_filter.
Qed.

Lemma import_twice_witness :
  let once :=
    (Storage.importData (roomy Sample.items) Sample.snapshot "merge").1 in
  let twice := (Storage.importData once Sample.snapshot "merge").1 in
  Storage.getAllEntries twice = Storage.getAllEntries once ∧
  Storage.getAllTags twice = Storage.getAllTags once.
Proof.
  exact (import_twice (roomy Sample.items) Sample.snapshot "merge"
           (fun _ => eq_refl)).
Defined.

Lemma keyed_by_date_merged (current de : gmap string Entry.t) :
  keyed_by_date current → keyed_by_date de →
  keyed_by_date (Storage.mergedEntries current de).
Proof.
  intros Hcurrent Hde date entry. rewrite mergedEntries_lookup.
  destruct (de !! date) as [e|] eqn:He.
  - intros [= <-]. by apply (Hde date).
  - apply Hcurrent.
Qed.

(** X12.  An import keeps the entries collection keyed by date provided the
    entries of the snapshot are: then every entry is stored under its own
    date after the import if it was before, in either mode, whether the
    writes were taken or not. *)
Theorem import_keeps_keyed_by_date (ls : LocalStorage) (data : Snapshot.t)
    (mode : string) :
  keyed_by_date (Storage.getAllEntries ls) →
  keyed_by_date (default ∅ (Snapshot.entries data)) →
  keyed_by_date (Storage.getAllEntries (Storage.importData ls data mode).1).
Proof.
  intros Hls Hdata.
  destruct (Snapshot.entries data) as [de|] eqn:Hde; cycle 1.
  { by rewrite import_invalid by by left. }
  destruct (Snapshot.tags data) as [dt|] eqn:Hdt; cycle 1.
  { by rewrite import_invalid by by right. }
  simpl in Hdata.
  destruct (decide (mode = "overwrite")) as [->|Hmode].
  - rewrite (importData_overwrite ls data de dt) by done. simpl.
    rewrite entries_after_set_tags.
    by destruct (entries_after_set_entries_cases ls de) as [-> | ->].
  - rewrite (importData_merge ls data mode de dt) by done. simpl.
    rewrite entries_after_set_tags.
    destruct (entries_after_set_entries_cases ls
                (Storage.mergedEntries (Storage.getAllEntries ls) de))
      as [-> | ->]; [by apply keyed_by_date_merged|done].
Qed.

Lemma import_keeps_keyed_by_date_witness :
  keyed_by_date
    (Storage.getAllEntries
       (Storage.importData (roomy Sample.items) Sample.snapshot "merge").1).
Proof.
  apply (import_keeps_keyed_by_date (roomy Sample.items) Sample.snapshot).
  - apply (bool_decide_unpack _). by vm_compute.
  - apply (bool_decide_unpack _). by vm_compute.
Defined.

(** ** What deleting a tag leaves alone *)

Lemma strip_only_tags tagId e :
  Entry.with_tags e (Entry.tags (strip tagId e)) = strip tagId e ∧
  (∀ t, has_tag (strip tagId e) t → has_tag e t) ∧
  (∀ t, has_tag e t → t ≠ tagId → has_tag (strip tagId e) t).
Proof.
  destruct (decide (has_tag e tagId)) as [Hyes|Hno].
  - destruct (strip_tagged _ _ Hyes) as (ts & Hts & ->).
    unfold has_tag, Tags.detach. rewrite Hts. simpl. split; [done|]. split.
    + intros t. by intros [_ ?]%list_elem_of_filter.
    + intros t Ht Hne. by apply list_elem_of_filter.
  - rewrite strip_untagged by done. split; [by destruct e|done].
Qed.

Lemma Tags_remove_entries_cases ls tagId :
  Storage.getAllEntries (Tags.remove ls tagId).1 = Storage.getAllEntries ls ∨
  Storage.getAllEntries (Tags.remove ls tagId).1
    = strip tagId <$> Storage.getAllEntries ls.
Proof.
  destruct (Tags_remove_eq ls tagId) as (updated & -> & Hsame & _).
  unfold Storage.deleteTag, Storage.saveTags.
  change (Storage.set ?l TAGS ?v).1 with (after_set l TAGS v).
  rewrite entries_after_set_tags. destruct updated; [|by left].
  destruct (entries_after_set_entries_cases ls
              (strip tagId <$> Storage.getAllEntries ls)) as [-> | ->]; auto.
Qed.

Lemma Tags_remove_tags_cases ls tagId :
  Storage.getAllTags (Tags.remove ls tagId).1 = Storage.getAllTags ls ∨
  Storage.getAllTags (Tags.remove ls tagId).1
    = filter (fun t => Tag.id t ≠ tagId) (Storage.getAllTags ls).
Proof.
  destruct (Tags_remove_eq ls tagId) as (updated & -> & Hsame & _).
  set (ls1 := if updated then _ else ls).
  assert (Storage.getAllTags ls1 = Storage.getAllTags ls) as Htags.
  { unfold ls1. destruct updated; [apply tags_after_set_entries|done]. }
  unfold Storage.deleteTag, Storage.saveTags. rewrite Htags.
  change (Storage.set ?l TAGS ?v).1 with (after_set l TAGS v).
  set (filtered := filter _ _).
  destruct (decide (room_for ls1 TAGS filtered)).
  - right. by apply tags_after_set_tags.
  - left. by rewrite after_set_rejected.
Qed.

(** X13.  Whatever the medium answers to its writes, [Tags.remove(T)]
    touches nothing but [T]: every date keeps its entry, with all fields
    but [tags] as they were and with every tag id other than [T] still
    attached and none added; every tag whose id is not [T] stays in the tag
    collection, and no tag is added to it. *)
Theorem tag_delete_touches_only_that_tag (ls : LocalStorage) (tagId : string) :
  let ls' := (Tags.remove ls tagId).1 in
  (∀ date,
     match Storage.getEntry ls date, Storage.getEntry ls' date with
     | Some e, Some e' =>
         Entry.with_tags e (Entry.tags e') = e' ∧
         (∀ t, has_tag e' t → has_tag e t) ∧
         (∀ t, has_tag e t → t ≠ tagId → has_tag e' t)
     | None, None => True
     | _, _ => False
     end) ∧
  (∀ t, t ∈ Storage.getAllTags ls → Tag.id t ≠ tagId →
        t ∈ Storage.getAllTags ls') ∧
  (∀ t, t ∈ Storage.getAllTags ls' → t ∈ Storage.getAllTags ls).
Proof.
  intros ls'. split; [|split].
  - intros date. unfold Storage.getEntry, ls'.
    destruct (Tags_remove_entries_cases ls tagId) as [-> | ->].
    + destruct (Storage.getAllEntries ls !! date) as [e|]; [|done].
      split; [by destruct e|done].
    + rewrite lookup_fmap.
      destruct (Storage.getAllEntries ls !! date) as [e|]; [|done].
      simpl. apply strip_only_tags.
  - intros t Ht Hid. unfold ls'.
    destruct (Tags_remove_tags_cases ls tagId) as [-> | ->]; [done|].
    by apply list_elem_of_filter.
  - intros t. unfold ls'.
    destruct (Tags_remove_tags_cases ls tagId) as [-> | ->]; [done|].
    by intros [_ ?]%list_elem_of_filter.
Qed.

(** ** The stages of the search *)

Lemma elem_of_List_filter {A} (p : A → bool) (l : list A) (x : A) :
  x ∈ List.filter p l ↔ x ∈ l ∧ p x = true.
Proof. rewrite !list_elem_of_In. apply filter_In. Qed.

Lemma List_filter_sublist {A} (p : A → bool) (l : list A) :
  List.filter p l `sublist_of` l.
Proof.
  induction l as [|x l IH]; [done|]. simpl.
  destruct (p x); [by apply sublist_skip|by apply sublist_cons].
Qed.

Lemma truthy_true s : truthy s = true ↔ s ≠ "".
Proof.
  unfold truthy. rewrite negb_true_iff, bool_decide_eq_false. done.
Qed.

Lemma truthy_bound_true d :
  Search.truthy_bound d = true ↔ ∃ s, d = Some s ∧ s ≠ "".
Proof.
  destruct d as [s|]; simpl.
  - rewrite truthy_true. split; [by exists s|]. by intros (? & [= <-] & ?).
  - split; [done|]. by intros (? & ? & _).
Qed.

Lemma str_lt_false a b : str_lt a b = false ↔ String.le b a.
Proof.
  unfold str_lt, String.ltb, String.le, String.leb.
  rewrite (String.compare_antisym a b).
  destruct (b ?= a)%string; simpl; split; done.
Qed.

Lemma str_gt_false a b : str_gt a b = false ↔ String.le a b.
Proof. apply str_lt_false. Qed.

Lemma filterByDateRange_elem (entries : list Entry.t)
    (fromDate toDate : option string) (e : Entry.t) :
  e ∈ Search.filterByDateRange entries fromDate toDate ↔
  e ∈ entries ∧ in_range fromDate toDate e.
Proof.
  unfold Search.filterByDateRange. rewrite elem_of_List_filter.
  apply and_iff_compat_l. unfold in_range.
  destruct (Search.truthy_bound fromDate) eqn:Hfrom.
  - apply truthy_bound_true in Hfrom as (from & -> & Hne). simpl.
    destruct (str_lt (Entry.date e) from) eqn:Hlt.
    + split; [done|]. intros [Hle _].
      specialize (Hle from eq_refl Hne). apply str_lt_false in Hle.
      congruence.
    + apply str_lt_false in Hlt.
      destruct (Search.truthy_bound toDate) eqn:Hto.
      * apply truthy_bound_true in Hto as (to & -> & Hne'). simpl.
        destruct (str_gt (Entry.date e) to) eqn:Hgt.
        -- split; [done|]. intros [_ Hle].
           specialize (Hle to eq_refl Hne'). apply str_gt_false in Hle.
           congruence.
        -- apply str_gt_false in Hgt. split; [|done]. intros _.
           split; intros ? [= <-] _; done.
      * simpl. split; [|done]. intros _. split.
        -- by intros ? [= <-] _.
        -- intros to -> Hne'.
           assert (Search.truthy_bound (Some to) = true) as Habs
             by (apply truthy_bound_true; eauto).
           congruence.
  - simpl.
    assert (∀ from, fromDate = Some from → from ≠ "" → False) as Hnofrom.
    { intros from -> Hne.
      assert (Search.truthy_bound (Some from) = true) as Habs
        by (apply truthy_bound_true; eauto).
      congruence. }
    destruct (Search.truthy_bound toDate) eqn:Hto.
    + apply truthy_bound_true in Hto as (to & -> & Hne'). simpl.
      destruct (str_gt (Entry.date e) to) eqn:Hgt.
      * split; [done|]. intros [_ Hle].
        specialize (Hle to eq_refl Hne'). apply str_gt_false in Hle.
        congruence.
      * apply str_gt_false in Hgt. split; [|done]. intros _. split.
        -- intros from ? ?. by destruct (Hnofrom from).
        -- by intros ? [= <-] _.
    + simpl. split; [|done]. intros _. split.
      * intros from ? ?. by destruct (Hnofrom from).
      * intros to -> Hne'.
        assert (Search.truthy_bound (Some to) = true) as Habs
          by (apply truthy_bound_true; eauto).
        congruence.
Qed.

(** X14.  [filterByDateRange] keeps, in their order, the entries whose date
    is not before [fromDate] and not after [toDate]; both bounds are
    included, and a bound that is null or empty excludes nothing. *)
Theorem filterByDateRange_spec (entries : list Entry.t)
    (fromDate toDate : option string) :
  Search.filterByDateRange entries fromDate toDate `sublist_of` entries ∧
  ∀ e,
    e ∈ Search.filterByDateRange entries fromDate toDate ↔
    e ∈ entries ∧ in_range fromDate toDate e.
Proof.
  split; [apply List_filter_sublist|]. intros e.
  apply filterByDateRange_elem.
Qed.

Lemma filterByTags_elem (entries : list Entry.t) (tagIds : list string)
    (e : Entry.t) :
  tagIds ≠ [] →
  e ∈ Search.filterByTags entries (Some tagIds) ↔
  e ∈ entries ∧ has_one_of tagIds e.
Proof.
  intros Hne. destruct tagIds as [|tagId tagIds]; [done|].
  unfold Search.filterByTags.
  rewrite elem_of_List_filter. apply and_iff_compat_l.
  set (selection := tagId :: tagIds). unfold has_one_of, has_tag.
  destruct (Entry.tags e) as [[|t ts]|].
  - split; [done|]. intros (? & _ & Hin). by apply elem_of_nil in Hin.
  - rewrite existsb_exists. split.
    + intros (x & Hx%list_elem_of_In & Hin%bool_decide_eq_true). eauto.
    + intros (x & Hx & Hin). exists x.
      split; [by apply list_elem_of_In|by apply bool_decide_eq_true].
  - split; [done|]. by intros (? & _ & ?).
Qed.

(** X15.  [filterByTags] with a selection that is not empty keeps, in their
    order, the entries that carry at least one of the selected tags; an
    entry without tags is dropped. *)
Theorem filterByTags_spec (entries : list Entry.t) (tagIds : list string) :
  tagIds ≠ [] →
  Search.filterByTags entries (Some tagIds) `sublist_of` entries ∧
  ∀ e,
    e ∈ Search.filterByTags entries (Some tagIds) ↔
    e ∈ entries ∧ has_one_of tagIds e.
Proof.
  intros Hne. split.
  - destruct tagIds; [done|]. apply List_filter_sublist.
  - intros e. by apply filterByTags_elem.
Qed.

Lemma filterByTags_spec_witness :
  Search.filterByTags [Sample.jan05; Sample.jan20] (Some ["T1"; "T2"])
    `sublist_of` [Sample.jan05; Sample.jan20] ∧
  (Sample.jan05 ∈
     Search.filterByTags [Sample.jan05; Sample.jan20] (Some ["T1"; "T2"])).
Proof.
  destruct (filterByTags_spec [Sample.jan05; Sample.jan20] ["T1"; "T2"]
              ltac:(discriminate)) as [Hsub Hin].
  split; [exact Hsub|]. apply Hin. split; [apply list_elem_of_here|].
  exists "T1". split; apply list_elem_of_here.
Defined.

Lemma prefix_spec (sub s : string) :
  String.prefix sub s = true ↔ ∃ after, s = sub +:+ after.
Proof.
  revert s. induction sub as [|c sub IH]; intros s.
  - split; [intros _; by exists s|by destruct s].
  - destruct s as [|c' s]; simpl; [split; [done|by intros [? ?]]|].
    destruct (Ascii.ascii_dec c c') as [->|Hne].
    + rewrite IH. split; intros [after Hafter]; exists after.
      * simpl. by rewrite Hafter.
      * simpl in Hafter. by injection Hafter.
    + split; [done|]. intros [after Hafter]. simpl in Hafter.
      by injection Hafter.
Qed.

(** [includes] is the substring test. *)
Lemma includes_spec (s sub : string) :
  includes s sub = true ↔ ∃ before after, s = before +:+ sub +:+ after.
Proof.
  induction s as [|c s IH].
  - change (includes "" sub) with (String.prefix sub "" || false).
    rewrite orb_false_r, prefix_spec. split.
    + intros [after ?]. by exists "", after.
    + intros ([|? ?] & after & Heq); [by exists after|done].
  - change (includes (String c s) sub)
      with (String.prefix sub (String c s) || includes s sub).
    rewrite orb_true_iff, prefix_spec, IH. split.
    + intros [[after ?]|(before & after & ->)].
      * by exists "", after.
      * by exists (String c before), after.
    + intros ([|c' before] & after & Heq).
      * left. by exists after.
      * right. simpl in Heq. injection Heq as _ ->. by exists before, after.
Qed.

Lemma includes_empty s : includes s "" = true.
Proof. apply includes_spec. by exists "", s. Qed.

Lemma foldl_push_if {A} (p : A → bool) (l acc : list A) :
  foldl (fun results x => if p x then results ++ [x] else results) acc l
  = acc ++ List.filter p l.
Proof.
  revert acc. induction l as [|x l IH]; intros acc; simpl.
  - by rewrite app_nil_r.
  - rewrite IH. destruct (p x); [by rewrite <- app_assoc|done].
Qed.

Lemma field_has_iff field keyword :
  truthy field && includes (toLowerCase field) (toLowerCase keyword) = true
  ↔ field_has field keyword.
Proof.
  unfold field_has. by rewrite andb_true_iff, truthy_true, includes_spec.
Qed.

Lemma searchByKeyword_filter ls keyword :
  Search.searchByKeyword ls keyword =
  List.filter
    (fun entry =>
       truthy (Entry.title entry) &&
         includes (toLowerCase (Entry.title entry)) (toLowerCase keyword)
       || truthy (Entry.content entry) &&
            includes (toLowerCase (Entry.content entry)) (toLowerCase keyword))
    (Object_values (Storage.getAllEntries ls)).
Proof. unfold Search.searchByKeyword. by rewrite foldl_push_if. Qed.

Lemma stored_iff ls e :
  e ∈ Object_values (Storage.getAllEntries ls) ↔ stored ls e.
Proof. apply elem_of_Object_values. Qed.

Lemma searchByKeyword_elem ls keyword e :
  e ∈ Search.searchByKeyword ls keyword ↔
  stored ls e ∧ matches_keyword keyword e.
Proof.
  rewrite searchByKeyword_filter, elem_of_List_filter, stored_iff.
  apply and_iff_compat_l. unfold matches_keyword.
  by rewrite orb_true_iff, !field_has_iff.
Qed.

(** X16.  [searchByKeyword] returns, in the order in which the entries are
    enumerated, the stored entries whose title or content contains the
    keyword, letter case aside.  An empty title or content matches nothing:
    with the empty keyword the result is the entries that have a title or a
    content, not all entries. *)
Theorem searchByKeyword_spec (ls : LocalStorage) (keyword : string) :
  Search.searchByKeyword ls keyword
    `sublist_of` Object_values (Storage.getAllEntries ls) ∧
  (∀ e, e ∈ Search.searchByKeyword ls keyword ↔
        stored ls e ∧ matches_keyword keyword e) ∧
  (∀ e, e ∈ Search.searchByKeyword ls "" ↔
        stored ls e ∧ (Entry.title e ≠ "" ∨ Entry.content e ≠ "")).
Proof.
  split; [|split].
  - rewrite searchByKeyword_filter. apply List_filter_sublist.
  - intros e. apply searchByKeyword_elem.
  - intros e. rewrite searchByKeyword_filter, elem_of_List_filter, stored_iff.
    apply and_iff_compat_l. simpl.
    by rewrite !includes_empty, !andb_true_r, orb_true_iff, !truthy_true.
Qed.

(** ** The whole search *)

Lemma search_results ls cur arg :
  let f := Search.spread cur arg in
  ∃ filtered,
    (Search.search ls cur arg).2 =
      Array_sort (fun a b => localeCompare (Entry.date b) (Entry.date a))
        filtered ∧
    filtered `sublist_of` Object_values (Storage.getAllEntries ls) ∧
    ∀ e, e ∈ filtered ↔
      stored ls e ∧
      (Search.keyword f = "" ∨ matches_keyword (Search.keyword f) e) ∧
      (Search.tags f = [] ∨ has_one_of (Search.tags f) e) ∧
      in_range (Search.fromDate f) (Search.toDate f) e.
Proof.
  intros f. unfold Search.search. fold f. cbv zeta. cbn [snd].
  set (r1 := if truthy (Search.keyword f) then _ else _).
  set (r2 := if bool_decide (0 < length (Search.tags f))%nat then _ else r1).
  set (r3 := if _ || _ then _ else r2).
  exists r3.
  assert (r1 `sublist_of` Object_values (Storage.getAllEntries ls) ∧
          ∀ e, e ∈ r1 ↔
            stored ls e ∧
            (Search.keyword f = "" ∨ matches_keyword (Search.keyword f) e))
    as [Hsub1 Hin1].
  { unfold r1. destruct (truthy (Search.keyword f)) eqn:Hk.
    - apply truthy_true in Hk. split.
      + rewrite searchByKeyword_filter. apply List_filter_sublist.
      + intros e. rewrite searchByKeyword_elem. apply and_iff_compat_l.
        split; [by right|]. by intros [?|?].
    - assert (Search.keyword f = "") as Hempty.
      { destruct (decide (Search.keyword f = "")) as [?|Hne]; [done|].
        apply truthy_true in Hne. congruence. }
      split; [done|]. intros e. rewrite stored_iff.
      split; [by auto|by intros [? _]]. }
  assert (r2 `sublist_of` r1 ∧
          ∀ e, e ∈ r2 ↔
            e ∈ r1 ∧ (Search.tags f = [] ∨ has_one_of (Search.tags f) e))
    as [Hsub2 Hin2].
  { unfold r2. case_bool_decide as Hlen.
    - assert (Search.tags f ≠ []) as Hne.
      { intros Heq. rewrite Heq in Hlen. simpl in Hlen. lia. }
      split.
      + destruct (Search.tags f); [done|]. apply List_filter_sublist.
      + intros e. rewrite filterByTags_elem by done.
        apply and_iff_compat_l. split; [by right|]. by intros [?|?].
    - assert (Search.tags f = []) as Hempty.
      { destruct (Search.tags f); [done|]. simpl in Hlen. lia. }
      split; [done|]. intros e. split; [by auto|by intros [? _]]. }
  assert (r3 `sublist_of` r2 ∧
          ∀ e, e ∈ r3 ↔
            e ∈ r2 ∧ in_range (Search.fromDate f) (Search.toDate f) e)
    as [Hsub3 Hin3].
  { unfold r3.
    destruct (Search.truthy_bound (Search.fromDate f)
              || Search.truthy_bound (Search.toDate f)) eqn:Hb.
    - split; [apply List_filter_sublist|]. intros e.
      apply filterByDateRange_elem.
    - apply orb_false_iff in Hb as [Hfrom Hto].
      split; [done|]. intros e. split; [|by intros [? _]].
      intros He. split; [done|]. split.
      + intros from Hsome Hne.
        assert (Search.truthy_bound (Search.fromDate f) = true) as Habs
          by (apply truthy_bound_true; eauto).
        congruence.
      + intros to Hsome Hne.
        assert (Search.truthy_bound (Search.toDate f) = true) as Habs
          by (apply truthy_bound_true; eauto).
        congruence. }
  split; [done|]. split; [by repeat (etrans; [eassumption|])|].
  intros e. rewrite Hin3, Hin2, Hin1. tauto.
Qed.

(** X17.  The criteria of a search combine by conjunction.  With the
    criteria in force after the argument is merged into [currentFilters],
    an entry is in the result exactly when it is stored, contains the
    keyword in its title or content if there is a keyword, carries one of
    the selected tags if any is selected, and has its date within the
    bounds that are set. *)
Theorem search_spec (ls : LocalStorage) (currentFilters : Search.Filters)
    (filters : Search.Arg.t) (e : Entry.t) :
  let f := Search.spread currentFilters filters in
  e ∈ (Search.search ls currentFilters filters).2 ↔
  stored ls e ∧
  (Search.keyword f = "" ∨ matches_keyword (Search.keyword f) e) ∧
  (Search.tags f = [] ∨ has_one_of (Search.tags f) e) ∧
  in_range (Search.fromDate f) (Search.toDate f) e.
Proof.
  intros f.
  destruct (search_results ls currentFilters filters)
    as (filtered & -> & _ & Hin).
  rewrite Array_sort_Permutation. apply Hin.
Qed.







Lemma spread_twice cur arg :
  Search.spread (Search.spread cur arg) arg = Search.spread cur arg.
Proof.
  destruct arg as [[k|] [t|] [from|] [to|]]; by destruct cur.
Qed.

(** X20.  Repeating a call of [search] with the same argument changes
    nothing: the second call returns the result of the first and leaves
    [currentFilters] as the first left it. *)
Theorem search_again (ls : LocalStorage) (currentFilters : Search.Filters)
    (filters : Search.Arg.t) :
  Search.search ls (Search.search ls currentFilters filters).1 filters
  = Search.search ls currentFilters filters.
Proof.
  rewrite search_state. unfold Search.search. by rewrite spread_twice.
Qed.

(** ** The calendar: months and days *)

(** X21.  [goToNextMonth] and [goToPrevMonth] move by one month and undo
    each other: from a month between 0 and 11 the month stays between 0 and
    11, the count of months [12 * year + month] goes up or down by one, and
    going forth and back returns to the start. *)
Theorem month_navigation (year month : Z) :
  0 ≤ month ≤ 11 →
  let next := Calendar.goToNextMonth (year, month) in
  let prev := Calendar.goToPrevMonth (year, month) in
  0 ≤ next.2 ≤ 11 ∧ 12 * next.1 + next.2 = 12 * year + month + 1 ∧
  0 ≤ prev.2 ≤ 11 ∧ 12 * prev.1 + prev.2 = 12 * year + month - 1 ∧
  Calendar.goToPrevMonth next = (year, month) ∧
  Calendar.goToNextMonth prev = (year, month).
Proof.
  intros Hmonth next prev. unfold next, prev.
  unfold Calendar.goToNextMonth, Calendar.goToPrevMonth.
  destruct (Z.ltb_spec 11 (month + 1)), (Z.ltb_spec (month - 1) 0); simpl;
    repeat match goal with
      | |- context [?a <? ?b] => destruct (Z.ltb_spec a b); simpl; try lia
      end;
    repeat split; try lia; f_equal; lia.
Qed.

Lemma month_navigation_witness :
  Calendar.goToNextMonth (2024, 11) = (2025, 0) ∧
  Calendar.goToPrevMonth (2025, 0) = (2024, 11) ∧
  Calendar.goToPrevMonth (Calendar.goToNextMonth (2024, 11)) = (2024, 11).
Proof.
  split; [reflexivity|]. split; [reflexivity|].
  refine (proj1 (proj2 (proj2 (proj2 (proj2 (month_navigation 2024 11 _)))))).
  lia.
Defined.

Lemma dateYear_outside year : ¬ (0 ≤ year ≤ 99) → dateYear year = year.
Proof.
  intros Hout. unfold dateYear.
  destruct (Z.leb_spec 0 year), (Z.leb_spec year 99); simpl; lia.
Qed.

(** X22.  [formatDate] writes the date a [Date] was built from, the month
    counted from 1 and month and day padded to two digits, when the host
    keeps the day: the [Date] is in range and its local time is within
    the day, which the time zone does not skip.  For a year from 0 to 99
    it writes the year 1900 later, which is the year the [Date] has. *)
Theorem formatDate_of_make (tz : Date.TimeZone) (year month day : Z) :
  0 ≤ month ≤ 11 →
  1 ≤ day ≤ daysInMonth (dateYear year) month →
  civil tz (Date.MakeDay (dateYear year) month day) →
  Calendar.formatDate tz (Date.make tz year month day)
    = ymd (dateYear year) (month + 1) day ∧
  (¬ (0 ≤ year ≤ 99) →
   Calendar.formatDate tz (Date.make tz year month day)
     = ymd year (month + 1) day).
Proof.
  intros Hmonth Hday Hcivil.
  assert (Calendar.formatDate tz (Date.make tz year month day)
          = ymd (dateYear year) (month + 1) day) as Heq.
  { unfold Calendar.formatDate.
    destruct (getters_civil tz year month day Hcivil) as (-> & -> & -> & _).
    destruct (DateFacts.MakeDay_read (dateYear year) month day Hmonth Hday)
      as (-> & -> & ->). done. }
  split; [done|]. intros Hout. by rewrite Heq, dateYear_outside.
Qed.

Lemma formatDate_of_make_witness :
  Calendar.formatDate Date.utc (Date.make Date.utc 24 1 29) = "1924-02-29" ∧
  Calendar.formatDate Sample.kiritimati
    (Date.make Sample.kiritimati 1995 0 1) = "1995-01-01".
Proof.
  split.
  - refine (proj1 (formatDate_of_make Date.utc 24 1 29 _ _ _));
      by vm_compute.
  - refine (proj1 (formatDate_of_make Sample.kiritimati 1995 0 1 _ _ _));
      by vm_compute.
Defined.

(** Where the host does not keep the day: a day out of the range of
    [Date] gives an Invalid Date, written with NaN; the 31 December 1994
    that Kiritimati skipped is written as the day after. *)
Example formatDate_of_unkept_days :
  Calendar.formatDate Date.utc (Date.make Date.utc 300000 0 1)
    = "NaN-NaN-NaN" ∧
  Calendar.formatDate Sample.kiritimati (Date.make Sample.kiritimati 1994 11 31)
    = "1995-01-01".
Proof. by vm_compute. Qed.

(** ** Date strings *)

Lemma pretty_go_Z (z : Z) (s : string) :
  0 < z →
  pretty_N_go (Z.to_N z) s =
  pretty_N_go (Z.to_N (z / 10)) (String (digit (z mod 10)) s).
Proof.
  intros Hz. rewrite pretty_N_go_step by lia. unfold digit.
  rewrite Z2N.inj_div, Z2N.inj_mod by lia. done.
Qed.

Lemma pretty_Z_pos (z : Z) : 0 < z → pretty z = pretty_N_go (Z.to_N z) "".
Proof.
  intros Hz. destruct z as [|p|p]; [lia| |lia].
  unfold pretty, pretty_Z, pretty, pretty_positive, pretty, pretty_N.
  by rewrite decide_False.
Qed.

Lemma pretty_1digit (n : Z) : 0 ≤ n ≤ 9 → pretty n = String (digit n) "".
Proof.
  intros Hn. destruct (decide (n = 0)) as [->|Hne]; [done|].
  rewrite pretty_Z_pos, pretty_go_Z by lia.
  rewrite Z.div_small, Z.mod_small by lia. done.
Qed.

Lemma pretty_2digits (n : Z) :
  10 ≤ n ≤ 99 →
  pretty n = String (digit (n / 10)) (String (digit (n mod 10)) "").
Proof.
  intros Hn. rewrite pretty_Z_pos, pretty_go_Z by lia.
  rewrite pretty_go_Z by (Z.div_mod_to_equations; lia).
  rewrite (Z.div_small (n / 10)) by (Z.div_mod_to_equations; lia).
  rewrite (Z.mod_small (n / 10)) by (Z.div_mod_to_equations; lia). done.
Qed.

(** [String(n).padStart(2, '0')] is the two digits of [n]. *)
Lemma padStart_2digits (n : Z) :
  0 ≤ n ≤ 99 →
  padStart 2 (pretty n) = String (digit (n / 10)) (String (digit (n mod 10)) "").
Proof.
  intros Hn. destruct (decide (n ≤ 9)) as [Hsmall|Hbig].
  - rewrite pretty_1digit by lia.
    rewrite Z.div_small, Z.mod_small by lia. done.
  - by rewrite pretty_2digits by lia.
Qed.

Lemma pretty_4digits (y : Z) :
  1000 ≤ y ≤ 9999 →
  pretty y =
  String (digit (y / 1000))
    (String (digit (y / 100 mod 10))
       (String (digit (y / 10 mod 10)) (String (digit (y mod 10)) ""))).
Proof.
  intros Hy. rewrite pretty_Z_pos, pretty_go_Z by lia.
  rewrite pretty_go_Z by (Z.div_mod_to_equations; lia).
  rewrite pretty_go_Z by (Z.div_mod_to_equations; lia).
  rewrite pretty_go_Z by (Z.div_mod_to_equations; lia).
  replace (y / 10 / 10 / 10 / 10) with 0 by (Z.div_mod_to_equations; lia).
  replace (y / 10 / 10 / 10 mod 10) with (y / 1000)
    by (Z.div_mod_to_equations; lia).
  replace (y / 10 / 10 mod 10) with (y / 100 mod 10)
    by (Z.div_mod_to_equations; lia).
  done.
Qed.

Lemma compare_digit (a b : Z) :
  0 ≤ a ≤ 9 → 0 ≤ b ≤ 9 → Ascii.compare (digit a) (digit b) = (a ?= b).
Proof.
  intros Ha Hb.
  assert (∀ x, 0 ≤ x ≤ 9 → N_of_ascii (digit x) = Z.to_N (48 + x)) as Hcode.
  { intros x Hx.
    assert (x = 0 ∨ x = 1 ∨ x = 2 ∨ x = 3 ∨ x = 4 ∨
            x = 5 ∨ x = 6 ∨ x = 7 ∨ x = 8 ∨ x = 9)
      as [->|[->|[->|[->|[->|[->|[->|[->|[->| ->]]]]]]]]] by lia; done. }
  unfold Ascii.compare. rewrite !Hcode by done.
  rewrite (Z2N.inj_compare (48 + a) (48 + b)) by lia.
  apply Z.add_compare_mono_l.
Qed.

Lemma ymd_digits (y m d : Z) :
  1000 ≤ y ≤ 9999 → 0 ≤ m ≤ 99 → 0 ≤ d ≤ 99 →
  ymd y m d =
  String (digit (y / 1000))
    (String (digit (y / 100 mod 10))
       (String (digit (y / 10 mod 10))
          (String (digit (y mod 10))
             (String "-"
                (String (digit (m / 10))
                   (String (digit (m mod 10))
                      (String "-"
                         (String (digit (d / 10))
                            (String (digit (d mod 10)) ""))))))))).
Proof.
  intros Hy Hm Hd. unfold ymd.
  by rewrite pretty_4digits, !padStart_2digits by done.
Qed.

(** X23.  For years of four digits the order of the date strings is the
    order of the dates: [`${year}-${month}-${day}`] with month and day
    padded to two digits has ten characters, and one such string is below
    another, as [<] compares strings, exactly when its date is the earlier
    one. *)
Theorem ymd_order (y m d y' m' d' : Z) :
  1000 ≤ y ≤ 9999 → 0 ≤ m ≤ 99 → 0 ≤ d ≤ 99 →
  1000 ≤ y' ≤ 9999 → 0 ≤ m' ≤ 99 → 0 ≤ d' ≤ 99 →
  String.length (ymd y m d) = 10%nat ∧
  (str_lt (ymd y m d) (ymd y' m' d') = true ↔ date_before y m d y' m' d').
Proof.
  intros Hy Hm Hd Hy' Hm' Hd'.
  rewrite !ymd_digits by done. split; [done|].
  unfold str_lt, String.ltb, date_before. cbn [String.compare].
  rewrite !compare_digit by (Z.div_mod_to_equations; lia).
  change (Ascii.compare "-" "-") with Eq. cbv iota.
  pose proof (Z.div_mod y 1000 ltac:(lia)) as Ey.
  pose proof (Z.mod_pos_bound y 1000 ltac:(lia)) as By.
  assert (y / 100 mod 10 = y mod 1000 / 100) as -> by
    (Z.div_mod_to_equations; lia).
  assert (y / 10 mod 10 = y mod 100 / 10) as -> by
    (Z.div_mod_to_equations; lia).
  assert (y' / 100 mod 10 = y' mod 1000 / 100) as -> by
    (Z.div_mod_to_equations; lia).
  assert (y' / 10 mod 10 = y' mod 100 / 10) as -> by
    (Z.div_mod_to_equations; lia).
  destruct (Z.compare_spec (y / 1000) (y' / 1000));
    [|split; [intros _|done]; Z.div_mod_to_equations; lia
     |split; [done|]; Z.div_mod_to_equations; lia].
  destruct (Z.compare_spec (y mod 1000 / 100) (y' mod 1000 / 100));
    [|split; [intros _|done]; Z.div_mod_to_equations; lia
     |split; [done|]; Z.div_mod_to_equations; lia].
  destruct (Z.compare_spec (y mod 100 / 10) (y' mod 100 / 10));
    [|split; [intros _|done]; Z.div_mod_to_equations; lia
     |split; [done|]; Z.div_mod_to_equations; lia].
  destruct (Z.compare_spec (y mod 10) (y' mod 10));
    [|split; [intros _|done]; Z.div_mod_to_equations; lia
     |split; [done|]; Z.div_mod_to_equations; lia].
  assert (y = y') as <- by (Z.div_mod_to_equations; lia).
  destruct (Z.compare_spec (m / 10) (m' / 10));
    [|split; [intros _|done]; Z.div_mod_to_equations; lia
     |split; [done|]; Z.div_mod_to_equations; lia].
  destruct (Z.compare_spec (m mod 10) (m' mod 10));
    [|split; [intros _|done]; Z.div_mod_to_equations; lia
     |split; [done|]; Z.div_mod_to_equations; lia].
  assert (m = m') as <- by (Z.div_mod_to_equations; lia).
  destruct (Z.compare_spec (d / 10) (d' / 10));
    [|split; [intros _|done]; Z.div_mod_to_equations; lia
     |split; [done|]; Z.div_mod_to_equations; lia].
  destruct (Z.compare_spec (d mod 10) (d' mod 10));
    [|split; [intros _|done]; Z.div_mod_to_equations; lia
     |split; [done|]; Z.div_mod_to_equations; lia].
  split; [done|]. Z.div_mod_to_equations. lia.
Qed.

Lemma ymd_order_witness :
  String.length (ymd 2024 1 20) = 10%nat ∧
  (str_lt (ymd 2024 1 20) (ymd 2024 2 5) = true ↔
   date_before 2024 1 20 2024 2 5).
Proof. apply ymd_order; lia. Defined.

(** With a year of five digits the order of the strings is no longer that
    of the dates. *)
Example ymd_order_year_10000 :
  str_lt (ymd 10000 1 1) (ymd 9999 12 31) = true.
Proof. by vm_compute. Qed.

(** ** The marks of the cells *)

Lemma classes_marks (other today selected sunday saturday : bool) :
  let classes :=
    ["calendar-day"]
    ++ (if other then ["other-month"] else [])
    ++ (if today then ["today"] else [])
    ++ (if selected then ["selected"] else [])
    ++ (if sunday then ["sunday"] else [])
    ++ (if saturday then ["saturday"] else []) in
  ("other-month" ∈ classes ↔ other = true) ∧
  ("today" ∈ classes ↔ today = true) ∧
  ("selected" ∈ classes ↔ selected = true) ∧
  ("sunday" ∈ classes ↔ sunday = true) ∧
  ("saturday" ∈ classes ↔ saturday = true).
Proof.
  destruct other, today, selected, sunday, saturday; cbv zeta;
    apply (bool_decide_unpack _); by vm_compute.
Qed.

Section marks.
Variable tz : Date.TimeZone.
Variable ls : LocalStorage.
Variables year month : Z.
Variable selectedDate : option string.
Variable todayString : string.

Let cell := Calendar.cell tz ls year month selectedDate todayString.
Let ok := flags_ok ls selectedDate todayString.
Let marked := flags_after ls selectedDate todayString.

(** The container of the dots is written exactly when the entry of the
    day has tag ids; a slot holds a colour when its id names a tag. *)
Lemma tagsOf_spec dateString :
  let tagDots :=
    if bool_decide (dateString ∈ Calendar.entriesSet ls)
    then Calendar.tagsOf ls dateString else None in
  (is_Some tagDots ↔ tags_at ls dateString ≠ []) ∧
  match tagDots with
  | Some slots => omap (fun slot : option string => slot) slots
  | None => []
  end
  = omap (fun tagId => Tag.color <$> Tags.getById ls tagId)
      (take 3 (tags_at ls dateString)).
Proof.
  cbv zeta. unfold tags_at, Calendar.tagsOf, Calendar.allEntries.
  destruct (bool_decide_reflect (dateString ∈ Calendar.entriesSet ls))
    as [Hin|Hout].
  - unfold Storage.getEntry.
    destruct (Storage.getAllEntries ls !! dateString) as [entry|];
      cbn [mbind option_bind from_option id]; cycle 1.
    { split; [|done]. split; [by intros [? ?]|done]. }
    destruct (Entry.tags entry) as [[|t ts]|]; cbn [from_option id].
    + split; [|done]. split; [by intros [? ?]|done].
    + split; [split; [done|by eexists]|].
      generalize (take 3 (t :: ts)). intros l.
      induction l as [|x l IH]; [done|]. cbn [fmap list_fmap omap list_omap].
      cbn [fmap list_fmap omap list_omap] in IH.
      destruct (Tag.color <$> Tags.getById ls x); by rewrite ?IH.
    + split; [|done]. split; [by intros [? ?]|done].
  - unfold Calendar.entriesSet in Hout. rewrite elem_of_list_to_set in Hout.
    rewrite getDatesWithEntries_elem in Hout.
    destruct (Storage.getEntry ls dateString) as [entry|] eqn:He.
    { exfalso. apply Hout. by eexists. }
    split; [|done]. split; [by intros [? ?]|done].
Qed.

Lemma length_omap_le {A B} (f : A → option B) (l : list A) :
  (length (omap f l) ≤ length l)%nat.
Proof.
  induction l as [|x l IH]; [done|]. cbn [omap list_omap].
  destruct (f x); simpl; lia.
Qed.

(** The marks of a cell built from a date string, whatever the branch. *)
Lemma marks_of_cell (i : Z) (day' : num) (dateString : string)
    (other : bool) (dayOfWeek : Z) :
  dayOfWeek = i mod 7 →
  ok i
    (Calendar.mkCell day' dateString other
       (["calendar-day"]
        ++ (if other then ["other-month"] else [])
        ++ (if bool_decide (dateString = todayString) then ["today"] else [])
        ++ (if bool_decide (Some dateString = selectedDate)
            then ["selected"] else [])
        ++ (if dayOfWeek =? 0 then ["sunday"] else [])
        ++ (if dayOfWeek =? 6 then ["saturday"] else []))
       (bool_decide (dateString ∈ Calendar.entriesSet ls))
       (if bool_decide (dateString ∈ Calendar.entriesSet ls)
        then Calendar.tagsOf ls dateString else None)).
Proof.
  intros ->. unfold ok, flags_ok. cbn [Calendar.classes Calendar.dateString
    Calendar.isOtherMonth Calendar.hasEntry Calendar.tagDots].
  destruct (classes_marks other
              (bool_decide (dateString = todayString))
              (bool_decide (Some dateString = selectedDate))
              (i mod 7 =? 0) (i mod 7 =? 6))
    as (Hother & Htoday & Hselected & Hsunday & Hsaturday).
  split; [exact Hother|].
  split; [etrans; [exact Htoday|apply bool_decide_eq_true]|].
  split.
  { etrans; [exact Hselected|]. etrans; [apply bool_decide_eq_true|].
    split; congruence. }
  split; [etrans; [exact Hsunday|apply Z.eqb_eq]|].
  split; [etrans; [exact Hsaturday|apply Z.eqb_eq]|].
  split.
  { rewrite bool_decide_eq_true. unfold Calendar.entriesSet.
    rewrite elem_of_list_to_set. apply getDatesWithEntries_elem. }
  split.
  { by intros ->. }
  destruct (tagsOf_spec dateString) as [Hsome Hdots]. cbv zeta in Hsome, Hdots.
  split; [exact Hsome|]. unfold dots. cbn [Calendar.tagDots].
  split; [exact Hdots|]. rewrite Hdots.
  etrans; [apply length_omap_le|]. rewrite length_take. lia.
Qed.

Lemma marked_no_cell : marked 0 (Calendar.mkLoop [] 1 1).
Proof. split; [done|]. intros i c Hi. by destruct i. Qed.

Lemma marked_one_more (n : nat) st week dayOfWeek :
  week * 7 + dayOfWeek = Z.of_nat n →
  0 ≤ dayOfWeek ≤ 6 →
  marked n st →
  marked (S n) (cell st week dayOfWeek).
Proof.
  intros Hn Hday [Hlen Hcells].
  assert (dayOfWeek = Z.of_nat n mod 7) as Hcol
    by (Z.div_mod_to_equations; lia).
  assert (∃ c, Calendar.html (cell st week dayOfWeek)
               = Calendar.html st ++ [c] ∧ ok (Z.of_nat n) c)
    as (c & Hhtml & Hc).
  { unfold cell, Calendar.cell.
    destruct (num_lt _ _).
    - eexists. split; [reflexivity|]. by apply marks_of_cell.
    - destruct (num_le _ _).
      + eexists. split; [reflexivity|]. by apply marks_of_cell.
      + eexists. split; [reflexivity|]. by apply marks_of_cell. }
  split.
  - rewrite Hhtml, length_app, Hlen. simpl. lia.
  - intros i c' Hi. rewrite Hhtml in Hi.
    apply lookup_app_Some in Hi as [Hi|[Hge Hi]].
    + by apply Hcells.
    + rewrite Hlen in Hge, Hi.
      apply list_lookup_singleton_Some in Hi as [Hz <-].
      by replace i with n by lia.
Qed.

Lemma marked_all_cells :
  ∃ st,
    Calendar.renderDays tz ls year month selectedDate todayString
      = Calendar.html st ∧
    marked 42 st.
Proof.
  eexists. split; [reflexivity|]. cbn [foldl]. fold cell.
  do 42 (apply marked_one_more; [reflexivity|lia|]).
  apply marked_no_cell.
Qed.
End marks.

Lemma grid_marks_of (tz : Date.TimeZone) (ls : LocalStorage) (year month : Z)
    (selectedDate : option string) (todayString : string)
    (i : nat) (c : Calendar.Cell) :
  Calendar.renderDays tz ls year month selectedDate todayString !! i = Some c →
  flags_ok ls selectedDate todayString (Z.of_nat i) c.
Proof.
  destruct (marked_all_cells tz ls year month selectedDate todayString)
    as (st & -> & _ & Hcells).
  apply Hcells.
Qed.

(** X24.  The marks of every cell of the grid say what they should: the
    class ["other-month"] is on the cells outside the month, ["today"] on
    the cells whose date string is the string of today, ["selected"] on
    those whose date string is the selected date, ["sunday"] and
    ["saturday"] on the first and the last column; the indicator is shown
    exactly where the date has a stored entry; the container of the tag
    dots comes only with the indicator, exactly when the entry has tag
    ids, and it holds one dot, in the colour of the tag, for each of the
    first three ids that names a stored tag: three dots at most, and none
    when no id names a tag. *)
Theorem grid_marks (tz : Date.TimeZone) (ls : LocalStorage) (year month : Z)
    (selectedDate : option string) (todayString : string)
    (i : nat) (c : Calendar.Cell) :
  Calendar.renderDays tz ls year month selectedDate todayString !! i = Some c →
  flags_ok ls selectedDate todayString (Z.of_nat i) c.
Proof.
  apply grid_marks_of.
Qed.

Lemma grid_marks_witness :
  ∃ c,
    Calendar.renderDays Date.utc (roomy Sample.items_orphan) 2024 0
      (Some "2024-01-05") "2024-01-20" !! 7%nat = Some c ∧
    flags_ok (roomy Sample.items_orphan) (Some "2024-01-05") "2024-01-20" 7 c.
Proof.
  eexists. split; [by vm_compute|].
  apply (grid_marks Date.utc (roomy Sample.items_orphan) 2024 0
           (Some "2024-01-05") "2024-01-20" 7).
  by vm_compute.
Defined.

(** The cell of an entry whose only tag id names no tag has the indicator
    and an empty container; the cell of an entry with a stored tag has
    its dot. *)
Example grid_dots :
  let grid :=
    Calendar.renderDays Date.utc (roomy Sample.items_orphan) 2024 0
      (Some "2024-01-05") "2024-01-20" in
  ((fun c => (Calendar.dateString c, Calendar.hasEntry c,
              Calendar.tagDots c, dots c)) <$> grid !! 7%nat)
    = Some ("2024-01-07", true, Some [None], []) ∧
  ((fun c => (Calendar.dateString c, Calendar.hasEntry c, dots c))
     <$> grid !! 5%nat)
    = Some ("2024-01-05", true, [Tag.color Sample.work]).
Proof. by vm_compute. Qed.

(** ** The dates of the cells *)

Lemma length_append (s t : string) :
  String.length (s +:+ t) = (String.length s + String.length t)%nat.
Proof.
  induction s as [|c s IH]; [done|].
  change (String c s +:+ t) with (String c (s +:+ t)).
  cbn [String.length]. by rewrite IH.
Qed.

Lemma append_inj_tail (s1 s2 t1 t2 : string) :
  String.length t1 = String.length t2 →
  s1 +:+ t1 = s2 +:+ t2 → s1 = s2 ∧ t1 = t2.
Proof.
  intros Hlen. revert s2. induction s1 as [|c s1 IH]; intros [|c' s2] Heq;
    unfold String.app in Heq; cbn [String.append] in Heq;
    fold String.app in Heq.
  - done.
  - exfalso. rewrite Heq in Hlen. cbn [String.length] in Hlen.
    rewrite length_append in Hlen. lia.
  - exfalso. rewrite <- Heq in Hlen. cbn [String.length] in Hlen.
    rewrite length_append in Hlen. lia.
  - injection Heq as -> Heq. destruct (IH s2 Heq) as [-> ->]. done.
Qed.

Lemma digit_inj (a b : Z) :
  0 ≤ a ≤ 9 → 0 ≤ b ≤ 9 → digit a = digit b → a = b.
Proof.
  intros Ha Hb Heq. unfold digit in Heq.
  apply pretty_N_char_inj in Heq; lia.
Qed.

Lemma two_digits_inj (a b : Z) :
  0 ≤ a ≤ 99 → 0 ≤ b ≤ 99 →
  digit (a / 10) = digit (b / 10) → digit (a mod 10) = digit (b mod 10) →
  a = b.
Proof.
  intros Ha Hb H1 H0.
  apply digit_inj in H1; [|Z.div_mod_to_equations; lia..].
  apply digit_inj in H0; [|Z.div_mod_to_equations; lia..].
  Z.div_mod_to_equations. lia.
Qed.

Lemma digit_not_minus (n : Z) : 0 ≤ n ≤ 9 → digit n ≠ "-"%char.
Proof.
  intros Hn.
  assert (n = 0 ∨ n = 1 ∨ n = 2 ∨ n = 3 ∨ n = 4 ∨ n = 5 ∨ n = 6 ∨ n = 7
          ∨ n = 8 ∨ n = 9) as Hcases by lia.
  repeat (destruct Hcases as [->|Hcases]; [done|]). by subst n.
Qed.

(** A day number below zero is written with its sign and is not padded. *)
Lemma padStart_negative (d : Z) :
  -9 ≤ d ≤ -1 → padStart 2 (pretty d) = String "-" (String (digit (- d)) "").
Proof.
  intros Hd.
  assert (d = -9 ∨ d = -8 ∨ d = -7 ∨ d = -6 ∨ d = -5 ∨ d = -4 ∨ d = -3
          ∨ d = -2 ∨ d = -1) as Hcases by lia.
  repeat (destruct Hcases as [->|Hcases]; [done|]). by subst d.
Qed.

Lemma day_string_length (d : Z) :
  -9 ≤ d ≤ 99 → String.length (padStart 2 (pretty d)) = 2%nat.
Proof.
  intros Hd. destruct (Z.le_gt_cases 0 d) as [Hpos|Hneg].
  - by rewrite padStart_2digits by lia.
  - by rewrite padStart_negative by lia.
Qed.

Lemma day_string_inj (d d' : Z) :
  -9 ≤ d ≤ 99 → -9 ≤ d' ≤ 99 →
  padStart 2 (pretty d) = padStart 2 (pretty d') → d = d'.
Proof.
  intros Hd Hd'.
  destruct (Z.le_gt_cases 0 d) as [Hpos|Hneg],
    (Z.le_gt_cases 0 d') as [Hpos'|Hneg'].
  - rewrite !padStart_2digits by lia. intros [= H1 H0].
    apply two_digits_inj; (lia || done).
  - rewrite (padStart_2digits d), (padStart_negative d') by lia.
    intros [= H1 H0].
    exfalso. apply (digit_not_minus (d / 10)); [|done].
    Z.div_mod_to_equations. lia.
  - rewrite (padStart_2digits d'), (padStart_negative d) by lia.
    intros [= H1 H0].
    exfalso. apply (digit_not_minus (d' / 10)); [|done].
    Z.div_mod_to_equations. lia.
  - rewrite !padStart_negative by lia. intros [= H0].
    apply digit_inj in H0; lia.
Qed.

(** Two date strings are equal only if they are made of the same year,
    month and day. *)
Lemma ymd_inj (y m d y' m' d' : Z) :
  0 ≤ m ≤ 99 → -9 ≤ d ≤ 99 → 0 ≤ m' ≤ 99 → -9 ≤ d' ≤ 99 →
  ymd y m d = ymd y' m' d' → y = y' ∧ m = m' ∧ d = d'.
Proof.
  intros Hm Hd Hm' Hd'. unfold ymd.
  rewrite (padStart_2digits m), (padStart_2digits m') by done.
  pose proof (day_string_length d Hd) as Hlen.
  pose proof (day_string_length d' Hd') as Hlen'.
  unfold String.app at 2 3 4 6 7 8. cbn [String.append]. fold String.app.
  intros Heq. apply append_inj_tail in Heq as [Hy Htail];
    [|cbn [String.length]; by rewrite Hlen, Hlen'].
  apply (inj pretty) in Hy.
  injection Htail as Hm1 Hm0 Hday.
  split; [done|]. split; [by apply two_digits_inj|by apply day_string_inj].
Qed.

Lemma MakeDay_shift y m d k :
  Date.MakeDay y m (d + k) = Date.MakeDay y m d + k.
Proof. unfold Date.MakeDay. lia. Qed.

Lemma MakeDay_month_12 y d : Date.MakeDay y 12 d = Date.MakeDay (y + 1) 0 d.
Proof.
  unfold Date.MakeDay. change (12 / 12) with 1. change (12 mod 12) with 0.
  change (0 / 12) with 0. change (0 mod 12) with 0.
  by replace (y + 1 + 0) with (y + 1) by lia.
Qed.

(** The first and the last day a [Date] can hold are the 20th of a month
    and the 13th of another: a [Date] of the 1st of a month has a [Date]
    of the day before, whatever the time zone. *)
Lemma day_before_is_kept tz year month :
  0 ≤ month ≤ 11 →
  Calendar.prevMonthLastDay tz year month = None →
  Calendar.startDayOfWeek tz year month = None.
Proof.
  intros Hmonth. unfold Calendar.prevMonthLastDay, Calendar.startDayOfWeek,
    Calendar.firstDay. rewrite !make_eq.
  set (Y := dateYear year).
  rewrite (MakeDay_shift Y month 0 1 : Date.MakeDay Y month 1 = _).
  assert (Date.DateFromDay (Date.MakeDay Y month 0 + 1) = 1) as Hfirst.
  { rewrite <- MakeDay_shift. apply DateFacts.MakeDay_read; [done|].
    pose proof (DateFacts.daysInMonth_range Y month). lia. }
  set (day := Date.MakeDay Y month 0) in *.
  pose proof (Date.LocalTZA_range tz (day * Date.msPerDay) false) as H0.
  pose proof (Date.LocalTZA_range tz ((day + 1) * Date.msPerDay) false) as H1.
  unfold Date.UTC, Date.TimeClip.
  destruct (Z.leb_spec (Z.abs (day * Date.msPerDay
              - Date.LocalTZA tz (day * Date.msPerDay) false))
              8640000000000000) as [|Hout0]; [done|]. intros _.
  destruct (Z.leb_spec (Z.abs ((day + 1) * Date.msPerDay
              - Date.LocalTZA tz ((day + 1) * Date.msPerDay) false))
              8640000000000000) as [Hin1|]; [|done].
  exfalso. unfold Date.msPerDay in *.
  assert (day + 1 = -100000000 ∨ day + 1 = -99999999) as [Heq|Heq] by lia;
    rewrite Heq in Hfirst; by vm_compute in Hfirst.
Qed.

Section cell_dates.
Variable tz : Date.TimeZone.
Variable ls : LocalStorage.
Variables year month : Z.
Variable selectedDate : option string.
Variable todayString : string.
Hypothesis month_range : 0 ≤ month ≤ 11.

Let grid := Calendar.renderDays tz ls year month selectedDate todayString.
Let s := default 0 (Calendar.startDayOfWeek tz year month).
Let N := default 0 (Date.getDate tz (Calendar.lastDay tz year month)).
Let P := default 0 (Calendar.prevMonthLastDay tz year month).

(** The year, month and day written in the cell of index [i]. *)
Lemma grid_cell_ymd (i : nat) (c : Calendar.Cell) :
  grid !! i = Some c →
  ∃ y m d,
    Calendar.dateString c = ymd y m d ∧ 1 ≤ m ≤ 12 ∧ -9 ≤ d ≤ 99 ∧
    12 * y + m =
      12 * year + month + 1
      + (if Z.of_nat i <? s then -1
         else if Z.of_nat i <? s + N then 0 else 1) ∧
    d = (if Z.of_nat i <? s then P - s + Z.of_nat i + 1
         else if Z.of_nat i <? s + N then Z.of_nat i - s + 1
         else Z.of_nat i - s - N + 1).
Proof.
  intros Hc.
  pose proof (grid_s_range tz year month) as Hs.
  pose proof (grid_N_range tz year month) as HN.
  destruct (grid_cells tz ls year month selectedDate todayString i c Hc)
    as [Hi Hsum].
  fold s N in Hs, HN, Hsum.
  unfold cell_summary, expected_cell in Hsum.
  destruct (Z.ltb_spec (Z.of_nat i) s) as [Hlt|Hge].
  - assert (∃ p, Calendar.prevMonthLastDay tz year month = Some p
                 ∧ 1 ≤ p ≤ 31) as (p & HP & Hp).
    { destruct (Calendar.prevMonthLastDay tz year month) as [p|] eqn:HP.
      - exists p. split; [done|]. by apply (getDate_range _ _ _ HP).
      - exfalso. apply day_before_is_kept in HP; [|done].
        unfold s in Hlt. rewrite HP in Hlt. simpl in Hlt. lia. }
    unfold P. rewrite HP in Hsum |- *.
    cbn [fmap option_fmap option_map from_option id] in Hsum |- *.
    injection Hsum as _ -> _. destruct (Z.eqb_spec month 0).
    + eexists _, _, _. split; [reflexivity|]. lia.
    + eexists _, _, _. split; [reflexivity|]. lia.
  - destruct (Z.ltb_spec (Z.of_nat i) (s + N)).
    + injection Hsum as _ -> _.
      eexists _, _, _. split; [reflexivity|]. lia.
    + injection Hsum as _ -> _. destruct (Z.eqb_spec month 11).
      * eexists _, _, _. split; [reflexivity|]. lia.
      * eexists _, _, _. split; [reflexivity|]. lia.
Qed.

Lemma grid_dateString_inj (i j : nat) (ci cj : Calendar.Cell) :
  grid !! i = Some ci → grid !! j = Some cj →
  Calendar.dateString ci = Calendar.dateString cj → i = j.
Proof.
  intros Hi Hj Heq.
  pose proof (grid_s_range tz year month) as Hs.
  pose proof (grid_N_range tz year month) as HN.
  fold s N in Hs, HN.
  destruct (grid_cell_ymd i ci Hi) as (y & m & d & Hci & Hm & Hd & Hym & Hdi).
  destruct (grid_cell_ymd j cj Hj)
    as (y' & m' & d' & Hcj & Hm' & Hd' & Hym' & Hdj).
  rewrite Hci, Hcj in Heq.
  apply ymd_inj in Heq as (-> & -> & ->); [|lia..].
  destruct (Z.ltb_spec (Z.of_nat i) s), (Z.ltb_spec (Z.of_nat j) s),
    (Z.ltb_spec (Z.of_nat i) (s + N)), (Z.ltb_spec (Z.of_nat j) (s + N));
    lia.
Qed.
End cell_dates.

(** X25.  No two cells of the grid carry the same date string; hence at
    most one cell is marked ["today"] and at most one ["selected"]. *)
Theorem grid_dates_distinct (tz : Date.TimeZone) (ls : LocalStorage)
    (year month : Z) (selectedDate : option string) (todayString : string) :
  0 ≤ month ≤ 11 →
  let grid := Calendar.renderDays tz ls year month selectedDate todayString in
  NoDup (Calendar.dateString <$> grid) ∧
  ∀ (mark : string) (i j : nat) (ci cj : Calendar.Cell),
    mark = "today" ∨ mark = "selected" →
    grid !! i = Some ci → grid !! j = Some cj →
    mark ∈ Calendar.classes ci → mark ∈ Calendar.classes cj → i = j.
Proof.
  intros Hmonth grid. split.
  - apply NoDup_alt. intros i j ds Hi Hj.
    apply list_lookup_fmap_Some in Hi as (ci & -> & Hi).
    apply list_lookup_fmap_Some in Hj as (cj & Heq & Hj).
    by apply (grid_dateString_inj tz ls year month selectedDate todayString
                Hmonth i j ci cj).
  - intros mark i j ci cj Hmark Hi Hj Hci Hcj.
    apply (grid_dateString_inj tz ls year month selectedDate todayString
             Hmonth i j ci cj Hi Hj).
    destruct (grid_marks_of tz ls year month selectedDate todayString i ci Hi)
      as (_ & Htoday & Hselected & _).
    destruct (grid_marks_of tz ls year month selectedDate todayString j cj Hj)
      as (_ & Htoday' & Hselected' & _).
    destruct Hmark as [-> | ->].
    + apply Htoday in Hci. apply Htoday' in Hcj. congruence.
    + apply Hselected in Hci. apply Hselected' in Hcj. congruence.
Qed.

Lemma grid_dates_distinct_witness :
  NoDup (Calendar.dateString <$>
           Calendar.renderDays Date.utc (roomy Sample.items) 2024 1 None
             "2024-02-29").
Proof.
  refine (proj1 (grid_dates_distinct Date.utc (roomy Sample.items) 2024 1
                   None "2024-02-29" _)).
  lia.
Defined.

(** ** The grid shows 42 consecutive days *)

(** [formatDate] of a [Date] of a day the host keeps writes that day. *)
Lemma formatDate_civil tz year month date :
  let day := Date.MakeDay (dateYear year) month date in
  civil tz day →
  Calendar.formatDate tz (Date.make tz year month date)
    = ymd (Date.YearFromDay day) (Date.MonthFromDay day + 1)
        (Date.DateFromDay day).
Proof.
  intros day Hcivil. unfold Calendar.formatDate.
  by destruct (getters_civil tz year month date Hcivil) as (-> & -> & -> & _).
Qed.

Lemma ymd_MakeDay y m d :
  0 ≤ m ≤ 11 → 1 ≤ d ≤ daysInMonth y m →
  ymd (Date.YearFromDay (Date.MakeDay y m d))
    (Date.MonthFromDay (Date.MakeDay y m d) + 1)
    (Date.DateFromDay (Date.MakeDay y m d))
  = ymd y (m + 1) d.
Proof.
  intros Hm Hd.
  by destruct (DateFacts.MakeDay_read y m d Hm Hd) as (-> & -> & ->).
Qed.

Lemma ymd_num_Some (y m d : Z) :
  ymd_num (Some y) (Some m) (Some d) = ymd y m d.
Proof. done. Qed.

(** The day before the 1st is the last day of the month before. *)
Lemma day_before_first y m :
  0 ≤ m ≤ 11 →
  Date.MakeDay y m 0 =
    if m =? 0 then Date.MakeDay (y - 1) 11 31
    else Date.MakeDay y (m - 1) (daysInMonth y (m - 1)).
Proof.
  intros Hm. destruct (Z.eqb_spec m 0) as [->|Hne].
  - apply DateFacts.MakeDay_month_before.
  - rewrite <- DateFacts.MakeDay_day_0 by lia.
    by replace (m - 1 + 1) with m by lia.
Qed.

(** The day after the last day of the month is the 1st of the month after. *)
Lemma day_after_last y m :
  0 ≤ m ≤ 11 →
  Date.MakeDay y m (daysInMonth y m + 1) =
    if m =? 11 then Date.MakeDay (y + 1) 0 1 else Date.MakeDay y (m + 1) 1.
Proof.
  intros Hm. rewrite MakeDay_shift, <- DateFacts.MakeDay_day_0 by done.
  rewrite <- MakeDay_shift. change (0 + 1) with 1.
  destruct (Z.eqb_spec m 11) as [->|Hne]; [|done].
  apply MakeDay_month_12.
Qed.

(** X26.  For a month of a year outside 0..99 whose days the host keeps,
    the cell of index [i] carries the date of the day [i - s] days after
    the 1st of the month, [s] being the weekday of the 1st, when the host
    keeps that day too: the 42 cells are 42 consecutive days, and the cell
    of index [i] falls on the weekday [i mod 7] (0 = Sunday). *)
Theorem grid_consecutive_days (tz : Date.TimeZone) (ls : LocalStorage)
    (year month : Z) (selectedDate : option string) (todayString : string)
    (i : nat) (c : Calendar.Cell) :
  0 ≤ month ≤ 11 → ¬ (0 ≤ year ≤ 99) →
  civil_month tz year month →
  let s := weekday year month 1 in
  civil tz (Date.MakeDay year month (1 - s + Z.of_nat i)) →
  Calendar.renderDays tz ls year month selectedDate todayString !! i
    = Some c →
  let date := Date.make tz year month (1 - s + Z.of_nat i) in
  Calendar.startDayOfWeek tz year month = Some s ∧
  Calendar.dateString c = Calendar.formatDate tz date ∧
  Date.getDay tz date = Some (Z.of_nat i mod 7).
Proof.
  intros Hmonth Hyear (Hfirst & Hlast & Hbefore) s Hcivil Hc date.
  pose proof (dateYear_outside year Hyear) as HY.
  rewrite <- HY in Hfirst, Hlast, Hbefore.
  pose proof (startDayOfWeek_civil tz year month Hmonth Hfirst) as Hs.
  pose proof (lastDay_getDate tz year month Hmonth Hlast) as HN.
  pose proof (prevMonthLastDay_civil tz year month Hmonth Hbefore) as HP.
  rewrite HY in Hs, HN, HP. fold s in Hs.
  destruct (grid_cells tz ls year month selectedDate todayString i c Hc)
    as [Hi Hsum].
  rewrite Hs, HN, HP in Hsum. cbn [from_option id] in Hsum.
  assert (0 ≤ s ≤ 6) as Hs_range by (by apply (getDay_range _ _ _ Hs)).
  pose proof (DateFacts.daysInMonth_range year month) as HN_range.
  pose proof (daysInMonthBefore_range year month) as HP_range.
  set (N := daysInMonth year month) in *.
  set (P := daysInMonthBefore year month) in *.
  split; [done|].
  rewrite <- HY in Hcivil.
  split; cycle 1.
  { unfold date.
    destruct (getters_civil tz year month _ Hcivil) as (_ & _ & _ & ->).
    f_equal. rewrite HY.
    pose proof (DateFacts.weekday_MakeDay year month 1 Hmonth) as Hw.
    fold s in Hw. revert Hw.
    replace (1 - s + Z.of_nat i) with (1 + (Z.of_nat i - s)) by lia.
    rewrite MakeDay_shift.
    unfold Date.WeekDayFromDay. Z.div_mod_to_equations. lia. }
  unfold date. rewrite formatDate_civil by done. rewrite HY.
  unfold cell_summary, expected_cell in Hsum.
  destruct (Z.ltb_spec (Z.of_nat i) s) as [Hlt|Hge].
  - cbn [fmap option_fmap option_map] in Hsum. injection Hsum as _ -> _.
    rewrite !ymd_num_Some.
    replace (Date.MakeDay year month (1 - s + Z.of_nat i))
      with (Date.MakeDay year month 0 + (1 - s + Z.of_nat i))
      by (rewrite <- MakeDay_shift; f_equal; lia).
    rewrite day_before_first by done.
    destruct (Z.eqb_spec month 0) as [Hzero|Hne].
    + assert (P = 31) as HPeq.
      { unfold P, daysInMonthBefore. by rewrite Hzero. }
      rewrite <- MakeDay_shift, ymd_MakeDay.
      * f_equal; lia.
      * lia.
      * change (daysInMonth (year - 1) 11) with 31. lia.
    + assert (P = daysInMonth year (month - 1)) as HPeq.
      { unfold P, daysInMonthBefore.
        by rewrite (proj2 (Z.eqb_neq month 0)). }
      rewrite <- MakeDay_shift, ymd_MakeDay by lia.
      f_equal; lia.
  - destruct (Z.ltb_spec (Z.of_nat i) (s + N)) as [Hlt|Hout].
    + injection Hsum as _ -> _.
      rewrite ymd_MakeDay; [f_equal; lia|done|fold N; lia].
    + injection Hsum as _ -> _.
      replace (Date.MakeDay year month (1 - s + Z.of_nat i))
        with (Date.MakeDay year month (N + 1) + (Z.of_nat i - s - N))
        by (rewrite <- MakeDay_shift; f_equal; lia).
      unfold N at 1. rewrite day_after_last by done.
      destruct (Z.eqb_spec month 11) as [->|Hne].
      * rewrite <- MakeDay_shift, ymd_MakeDay.
        -- f_equal; lia.
        -- lia.
        -- change (daysInMonth (year + 1) 0) with 31. lia.
      * rewrite <- MakeDay_shift, ymd_MakeDay.
        -- f_equal; lia.
        -- lia.
        -- pose proof (DateFacts.daysInMonth_range year (month + 1)). lia.
Qed.

Lemma grid_consecutive_days_witness :
  ∃ c,
    Calendar.renderDays Date.utc (roomy Sample.items) 2024 0
      (Some "2024-01-05") "2024-01-20" !! 5%nat = Some c ∧
    Calendar.dateString c = "2024-01-05" ∧
    Date.getDay Date.utc (Date.make Date.utc 2024 0 5) = Some 5.
Proof.
  eexists. split; [by vm_compute|].
  match goal with
  | |- Calendar.dateString ?c = _ ∧ _ =>
      destruct (grid_consecutive_days Date.utc (roomy Sample.items) 2024 0
                  (Some "2024-01-05") "2024-01-20" 5 c ltac:(lia) ltac:(lia)
                  ltac:(by vm_compute) ltac:(by vm_compute)
                  ltac:(by vm_compute)) as (_ & Hdate & Hday)
  end.
  split; [|exact Hday]. etrans; [exact Hdate|]. by vm_compute.
Defined.

(** ** diary.js and app.js: the images of the editor, saving the form *)

Lemma Array_slice_from_0 {A : Type} (l : list A) (end_ : Z) :
  Array_slice l 0 end_ =
    if end_ <? 0 then take (length l - Z.to_nat (- end_)) l
    else take (Z.to_nat end_) l.
Proof.
  unfold Array_slice. change (0 <? 0) with false. cbv iota.
  rewrite (Z.min_l 0) by lia. rewrite Z.sub_0_r.
  change (Z.to_nat 0) with 0%nat. rewrite drop_0.
  destruct (Z.ltb_spec end_ 0) as [Hneg|Hpos].
  - f_equal. lia.
  - destruct (decide (end_ ≤ Z.of_nat (length l))) as [Hle|Hgt].
    + f_equal. lia.
    + rewrite !take_ge by lia. done.
Qed.

(** X27.  [addImages] keeps the editor within [MAX_IMAGES] images when it
    is within the limit: the images are added in order until there are
    ten.  When the editor holds more than ten images already, as after
    [setCurrentImages] with a longer list, the count left is negative and
    [slice] takes it from the end: all the new images but the last
    [length currentImages - 10] are added. *)
Theorem addImages_limit (currentImages images : list string) :
  let n := length currentImages in
  let added := Diary.addImages currentImages images in
  ((n ≤ 10)%nat →
   added = currentImages ++ take (10 - n)%nat images ∧
   length added = ((n + length images) `min` 10)%nat) ∧
  ((10 < n)%nat →
   added = currentImages ++ take (length images - (n - 10))%nat images).
Proof.
  intros n added. unfold added, Diary.addImages, Diary.MAX_IMAGES.
  rewrite Array_slice_from_0. fold n. split.
  - intros Hn. destruct (Z.ltb_spec (10 - Z.of_nat n) 0); [lia|].
    replace (Z.to_nat (10 - Z.of_nat n)) with (10 - n)%nat by lia.
    split; [done|]. rewrite length_app, length_take. fold n. lia.
  - intros Hn. destruct (Z.ltb_spec (10 - Z.of_nat n) 0); [|lia].
    do 2 f_equal. lia.
Qed.

Lemma addImages_limit_witness :
  Diary.addImages (replicate 9 "a") ["b"; "c"] = replicate 9 "a" ++ ["b"] ∧
  Diary.addImages (replicate 12 "a") ["b"; "c"; "d"] =
    replicate 12 "a" ++ ["b"].
Proof.
  split.
  - refine (proj1 (proj1 (addImages_limit (replicate 9 "a") ["b"; "c"]) _)).
    vm_compute. lia.
  - refine (proj2 (addImages_limit (replicate 12 "a") ["b"; "c"; "d"]) _).
    vm_compute. lia.
Defined.

Lemma saveDiary_empty (ls : LocalStorage) (createdNow updatedNow savedNow : Z)
    (form : App.Form) :
  trim (App.diary_title form) = "" → trim (App.diary_content form) = "" →
  App.currentImages form = [] → App.selectedTagIds form = [] →
  App.saveDiary ls createdNow updatedNow savedNow form =
    if Diary.get_truthy ls (App.diary_date form)
    then (Diary.remove ls (App.diary_date form)).1
    else ls.
Proof.
  intros Htitle Hcontent Himages Htags. unfold App.saveDiary.
  cbn [App.getModalData Entry.title Entry.content Entry.images Entry.date].
  unfold Diary.getCurrentImages.
  by rewrite Htitle, Hcontent, Himages, Htags.
Qed.

Lemma saveDiary_not_empty (ls : LocalStorage)
    (createdNow updatedNow savedNow : Z) (form : App.Form) :
  trim (App.diary_title form) ≠ "" ∨ trim (App.diary_content form) ≠ "" ∨
  App.currentImages form ≠ [] ∨ App.selectedTagIds form ≠ [] →
  App.saveDiary ls createdNow updatedNow savedNow form =
    (Diary.save ls savedNow
       (App.getModalData ls createdNow updatedNow form)).1.
Proof.
  intros Hsome. unfold App.saveDiary.
  cbn [App.getModalData Entry.title Entry.content Entry.images Entry.date].
  unfold Diary.getCurrentImages, truthy.
  destruct (decide (trim (App.diary_title form) = "")) as [Ht|Ht];
    [|by rewrite (bool_decide_eq_false_2 _ Ht)].
  destruct (decide (trim (App.diary_content form) = "")) as [Hc|Hc];
    [|by rewrite (bool_decide_eq_false_2 _ Hc), andb_false_r].
  destruct (App.currentImages form) as [|img imgs] eqn:Hi;
    [|by rewrite !andb_false_r].
  destruct (App.selectedTagIds form) as [|tag tags] eqn:Hs;
    [|by rewrite !andb_false_r].
  by destruct Hsome as [?|[?|[?|?]]].
Qed.

(** X28.  Saving a form with nothing in it (title and content empty once
    trimmed, no image, no tag selected) stores nothing: on a medium that
    takes every write the date has no entry afterwards, whether it had one
    or not; when it had none, and the date is none of the names an object
    inherits, the medium is as it was.  The other dates and the tags are
    not touched. *)
Theorem saveDiary_empty_form (ls : LocalStorage)
    (createdNow updatedNow savedNow : Z) (form : App.Form) :
  (∀ it, accepts ls it = true) →
  trim (App.diary_title form) = "" → trim (App.diary_content form) = "" →
  App.currentImages form = [] → App.selectedTagIds form = [] →
  let ls' := App.saveDiary ls createdNow updatedNow savedNow form in
  Diary.get ls' (App.diary_date form) = None ∧
  (Diary.get ls (App.diary_date form) = None →
   inherited (App.diary_date form) = false → ls' = ls) ∧
  (∀ date, date ≠ App.diary_date form →
     Diary.get ls' date = Diary.get ls date) ∧
  Storage.getAllTags ls' = Storage.getAllTags ls.
Proof.
  intros Hroom Htitle Hcontent Himages Htags ls'. unfold ls'.
  rewrite saveDiary_empty by done.
  unfold Diary.get, Diary.get_truthy, Diary.remove, Storage.getEntry_truthy.
  destruct (truthy_at (Storage.getAllEntries ls) (App.diary_date form))
    eqn:Htruthy.
  - rewrite deleteEntry_truthy by done. unfold Storage.getEntry.
    change (Storage.set ls ENTRIES ?v).1 with (after_set ls ENTRIES v).
    rewrite entries_after_set_entries by by apply all_room.
    split; [apply lookup_delete_eq|]. split; [|split].
    + intros Hnone Hname.
      by rewrite (truthy_at_missing _ _ Hnone Hname) in Htruthy.
    + intros date Hdate. by rewrite lookup_delete_ne.
    + apply tags_after_set_entries.
  - split; [|done]. unfold Storage.getEntry.
    destruct (Storage.getAllEntries ls !! App.diary_date form) eqn:Hown;
      [|done].
    by rewrite truthy_at_own in Htruthy.
Qed.

Lemma saveDiary_empty_form_witness :
  Diary.get
    (App.saveDiary (roomy Sample.items) 1 2 3
       (App.mkForm "entry_2" "2024-01-20" "  " "" [] []))
    "2024-01-20" = None.
Proof.
  refine (proj1 (saveDiary_empty_form (roomy Sample.items) 1 2 3
                   (App.mkForm "entry_2" "2024-01-20" "  " "" [] [])
                   _ _ _ _ _)); reflexivity.
Defined.

(** X29.  Saving a form with something in it, on a medium that takes every
    write, stores under the date of the form (any date but ["__proto__"],
    which an assignment does not store) an entry with the trimmed title and
    content, the selected tags and the images of the editor.
    Its time of update is the time of the save, not the time the form was
    read; its time of creation is that of the entry the date had, when it
    had one with a time of creation other than zero, and the time the form
    was read otherwise.  The other dates and the tags are not touched. *)
Theorem saveDiary_stores (ls : LocalStorage)
    (createdNow updatedNow savedNow : Z) (form : App.Form) :
  (∀ it, accepts ls it = true) →
  App.diary_date form ≠ "__proto__" →
  trim (App.diary_title form) ≠ "" ∨ trim (App.diary_content form) ≠ "" ∨
  App.currentImages form ≠ [] ∨ App.selectedTagIds form ≠ [] →
  let ls' := App.saveDiary ls createdNow updatedNow savedNow form in
  (∃ e,
     Diary.get ls' (App.diary_date form) = Some e ∧
     Entry.id e = App.diary_id form ∧
     Entry.date e = App.diary_date form ∧
     Entry.title e = trim (App.diary_title form) ∧
     Entry.content e = trim (App.diary_content form) ∧
     Entry.tags e = Some (App.selectedTagIds form) ∧
     Entry.images e = App.currentImages form ∧
     Entry.updatedAt e = savedNow ∧
     (∀ old, Diary.get ls (App.diary_date form) = Some old →
        Entry.createdAt old ≠ 0 → Entry.createdAt e = Entry.createdAt old) ∧
     (∀ old, Diary.get ls (App.diary_date form) = Some old →
        Entry.createdAt old = 0 → Entry.createdAt e = createdNow) ∧
     (Diary.get ls (App.diary_date form) = None →
        Entry.createdAt e = createdNow)) ∧
  (∀ date, date ≠ App.diary_date form →
     Diary.get ls' date = Diary.get ls date) ∧
  Storage.getAllTags ls' = Storage.getAllTags ls.
Proof.
  intros Hroom Hproto Hsome ls'. unfold ls'.
  rewrite saveDiary_not_empty by done.
  unfold Diary.save. rewrite saveEntry_eq by done.
  change (Storage.set ls ENTRIES ?v).1 with (after_set ls ENTRIES v).
  unfold Diary.get, Storage.getEntry.
  rewrite entries_after_set_entries by by apply all_room.
  cbn [App.getModalData Entry.id Entry.date Entry.title Entry.content
       Entry.tags Entry.images Entry.createdAt Entry.updatedAt].
  split; [|split].
  - eexists. split; [apply lookup_insert_eq|].
    cbn [Entry.id Entry.date Entry.title Entry.content Entry.tags
         Entry.images Entry.createdAt Entry.updatedAt].
    do 7 (split; [done|]).
    unfold Storage.getEntry.
    destruct (Storage.getAllEntries ls !! App.diary_date form) as [old|];
      [|done].
    split; [|split; [|done]].
    + intros ? [= <-] Hne. by destruct (Z.eqb_spec (Entry.createdAt old) 0).
    + intros ? [= <-] Hzero. by rewrite Hzero.
  - intros date Hdate. by rewrite lookup_insert_ne.
  - apply tags_after_set_entries.
Qed.

Lemma saveDiary_stores_witness :
  ∃ e,
    Diary.get
      (App.saveDiary (roomy Sample.items) 1 2 3
         (App.mkForm "entry_2" "2024-01-20" " Out " "" [] []))
      "2024-01-20" = Some e ∧
    Entry.title e = "Out" ∧ Entry.updatedAt e = 3 ∧
    Entry.createdAt e = 1705708800000.
Proof.
  destruct (saveDiary_stores (roomy Sample.items) 1 2 3
              (App.mkForm "entry_2" "2024-01-20" " Out " "" [] [])
              ltac:(reflexivity) ltac:(discriminate) ltac:(left; discriminate))
    as ((e & Hget & _ & _ & Htitle & _ & _ & _ & Hupdated & Hcreated & _) & _).
  exists e. split; [exact Hget|]. split; [exact Htitle|].
  split; [exact Hupdated|].
  apply (Hcreated Sample.jan20); [reflexivity|discriminate].
Defined.

(** ** app.js: creating a tag *)

Lemma append_cons (c : ascii) (s t : string) :
  String c s +:+ t = String c (s +:+ t).
Proof. done. Qed.

Lemma append_nil_r (s : string) : s +:+ "" = s.
Proof.
  induction s as [|c s IH]; [done|]. by rewrite append_cons, IH.
Qed.

Lemma append_assoc (s t u : string) : (s +:+ t) +:+ u = s +:+ (t +:+ u).
Proof.
  induction s as [|c s IH]; [done|]. by rewrite !append_cons, IH.
Qed.

Lemma rev_app_append (s t : string) :
  String.rev_app s t = String.rev s +:+ t.
Proof.
  unfold String.rev. revert t.
  induction s as [|c s IH]; intros t; [done|].
  cbn [String.rev_app]. rewrite (IH (String c t)), (IH (String c "")).
  by rewrite append_assoc.
Qed.

Lemma rev_app_snoc (s t : string) (c : ascii) :
  String.rev_app (s +:+ String c "") t = String c (String.rev_app s t).
Proof.
  revert t. induction s as [|a s IH]; intros t; [done|].
  rewrite append_cons. cbn [String.rev_app]. apply IH.
Qed.

Lemma rev_snoc (s : string) (c : ascii) :
  String.rev (s +:+ String c "") = String c (String.rev s).
Proof. apply rev_app_snoc. Qed.

Lemma rev_cons (s : string) (c : ascii) :
  String.rev (String c s) = String.rev s +:+ String c "".
Proof. unfold String.rev at 1. cbn [String.rev_app]. apply rev_app_append. Qed.

Lemma rev_involutive (s : string) : String.rev (String.rev s) = s.
Proof.
  induction s as [|c s IH]; [done|]. by rewrite rev_cons, rev_snoc, IH.
Qed.

(** A string that does not start with white space. *)
Lemma trimStart_head (s : string) :
  match trimStart s with
  | EmptyString => True
  | String c _ => is_white c = false
  end.
Proof.
  induction s as [|c s IH]; [done|]. cbn [trimStart].
  by destruct (is_white c) eqn:Hc.
Qed.

Lemma trimStart_clean (s : string) :
  match s with EmptyString => True | String c _ => is_white c = false end →
  trimStart s = s.
Proof. destruct s as [|c s]; [done|]. cbn [trimStart]. by intros ->. Qed.

Lemma trimStart_twice (s : string) : trimStart (trimStart s) = trimStart s.
Proof. apply trimStart_clean, trimStart_head. Qed.

Lemma trimStart_snoc (s : string) (c : ascii) :
  is_white c = false →
  ∃ v, trimStart (s +:+ String c "") = v +:+ String c "".
Proof.
  intros Hc. induction s as [|a s IH].
  - exists "". change ("" +:+ String c "") with (String c "").
    cbn [trimStart]. by rewrite Hc.
  - rewrite append_cons. cbn [trimStart]. destruct (is_white a); [done|].
    by exists (String a s).
Qed.

Lemma trimEnd_clean (s : string) :
  trimStart s = s → trimStart (trimEnd s) = trimEnd s.
Proof.
  intros Hs. apply trimStart_clean. unfold trimEnd.
  pose proof (trimStart_head s) as Hhead. rewrite Hs in Hhead.
  destruct s as [|c s]; [done|].
  rewrite rev_cons.
  destruct (trimStart_snoc (String.rev s) c Hhead) as [v ->].
  by rewrite rev_snoc.
Qed.

(** Trimming twice is trimming once. *)
Lemma trim_twice (s : string) : trim (trim s) = trim s.
Proof.
  unfold trim. rewrite trimEnd_clean by apply trimStart_twice.
  unfold trimEnd. by rewrite rev_involutive, trimStart_twice.
Qed.

Lemma getByName_None (ls : LocalStorage) (name : string) :
  Tags.getByName ls name = None →
  toLowerCase name ∉
    (fun t => toLowerCase (Tag.name t)) <$> Storage.getAllTags ls.
Proof.
  unfold Tags.getByName, Tags.getAll. intros Hnone Hin.
  apply list_elem_of_fmap in Hin as (t & Heq & Ht).
  apply list_elem_of_In in Ht.
  pose proof (find_none _ _ Hnone t Ht) as Hfalse. cbv beta in Hfalse.
  by rewrite bool_decide_eq_true_2 in Hfalse.
Qed.

Lemma tags_after_set_tags_cases ls v :
  Storage.getAllTags (after_set ls TAGS v) = v ∨ after_set ls TAGS v = ls.
Proof.
  destruct (decide (room_for ls TAGS v)).
  - left. by apply tags_after_set_tags.
  - right. by apply after_set_rejected.
Qed.

Lemma create_fst (ls : LocalStorage) (id name color : string) :
  (Tags.create ls id name color).1 =
    after_set ls TAGS (Storage.getAllTags ls ++ [Tag.mk id (trim name) color]).
Proof.
  unfold Tags.create, Storage.addTag, Storage.saveTags, after_set.
  by destruct (Storage.set ls TAGS _) as [ls' []].
Qed.

(** X30.  The handler that creates a tag keeps the tag names distinct: if
    every stored tag has a name and no two have the same name, letter case
    aside, this is so after the handler too, whatever was typed and whether
    the medium took the write.  The tag list is as before or has one more
    tag at its end, with the name trimmed; the entries are not touched. *)
Theorem createTag_keeps_names_distinct (ls : LocalStorage)
    (id nameInput colorInput : string) :
  distinct_names (Storage.getAllTags ls) →
  let ls' := App.createTag ls id nameInput colorInput in
  distinct_names (Storage.getAllTags ls') ∧
  (Storage.getAllTags ls' = Storage.getAllTags ls ∨
   Storage.getAllTags ls' =
     Storage.getAllTags ls ++ [Tag.mk id (trim nameInput) colorInput]) ∧
  Storage.getAllEntries ls' = Storage.getAllEntries ls.
Proof.
  intros [Hnamed Hdistinct] ls'. unfold ls', App.createTag, truthy.
  destruct (decide (trim nameInput = "")) as [Hempty|Hname].
  { rewrite (bool_decide_eq_true_2 _ Hempty). cbn [negb].
    split; [by split|]. split; [by left|done]. }
  rewrite (bool_decide_eq_false_2 _ Hname). cbn [negb].
  destruct (Tags.getByName ls (trim nameInput)) as [known|] eqn:Hknown.
  { split; [by split|]. split; [by left|done]. }
  apply getByName_None in Hknown.
  rewrite create_fst, trim_twice.
  split; [|split].
  - destruct (tags_after_set_tags_cases ls
                (Storage.getAllTags ls ++ [Tag.mk id (trim nameInput) colorInput]))
      as [-> | ->]; [|done].
    split.
    + apply Forall_app. split; [done|]. by apply Forall_singleton.
    + rewrite fmap_app. apply NoDup_app. split; [done|]. split.
      * intros x Hx Hnew. apply list_elem_of_singleton in Hnew.
        cbn [Tag.name] in Hnew. by subst x.
      * apply NoDup_singleton.
  - destruct (tags_after_set_tags_cases ls
                (Storage.getAllTags ls ++ [Tag.mk id (trim nameInput) colorInput]))
      as [-> | ->]; [by right|by left].
  - apply entries_after_set_tags.
Qed.

Lemma createTag_keeps_names_distinct_witness :
  distinct_names
    (Storage.getAllTags (App.createTag (roomy Sample.items) "T9" " work " "#000")) ∧
  distinct_names
    (Storage.getAllTags (App.createTag (roomy Sample.items) "T9" " Home " "#000")).
Proof.
  assert (distinct_names (Storage.getAllTags (roomy Sample.items))) as Hinv.
  { split; [by repeat constructor|].
    apply (bool_decide_unpack _). by vm_compute. }
  split.
  - exact (proj1 (createTag_keeps_names_distinct (roomy Sample.items)
                    "T9" " work " "#000" Hinv)).
  - exact (proj1 (createTag_keeps_names_distinct (roomy Sample.items)
                    "T9" " Home " "#000" Hinv)).
Defined.
